(** * pygraph: the artist registry, its legend and its autoscale pass

    A shallow embedding of [pygraph/errors.py], [pygraph/artists.py],
    [pygraph/artists_3d.py], [pygraph/mesh.py] and of the classes [_Figure],
    [Figure] and [Legend] of [pygraph/pygraph.py].

    Conventions.
    - A Python [dict] keeps insertion order; it is an association list with
      pairwise distinct keys, see [Module Dict].
    - [np.array(x, dtype=float)] is taken after coercion: an [ndarray] is a
      shape together with its elements in row-major order, so [flatten] is a
      projection.  An element is a float: a finite value, read as the
      rational it denotes, an infinity or nan.  [np.min] and [np.max]
      return nan as soon as one element is nan.
    - A method that raises leaves the object in the state it had at the
      [raise]; such methods return an [outcome] that carries this state.
    - matplotlib is the renderer.  A drawing call checks its arguments
      before it adds anything to the axes and raises on those it refuses;
      which arguments these are is matplotlib's business, so the axes carry
      it as a component, [mpl_refuses].  What an accepted call returns is an
      opaque handle with a fresh identity. *)

From Stdlib Require Import String List Bool Arith ZArith QArith Lia.
Import ListNotations.
Open Scope string_scope.
Open Scope list_scope.

Set Implicit Arguments.

Infix "^^" := String.append (at level 60, right associativity).

(* ------------------------------------------------------------------ *)
(** ** Exceptions: [pygraph/errors.py] and those of Python and numpy    *)

(** The argument of an [assert]: one of the two message classes of
    [errors.py], or a plain string. *)
Inductive message : Type :=
| OptionsError (cls arg : string) (options : option (list string))
               (add_msg : string)
| IndexError (cls arg idx : string) (action : option string)
             (overwrite : bool) (add_msg : string)
| Plain (msg : string).

Inductive exn : Type :=
| AssertionError (m : message)
| KeyError (key : string)
| AttributeError (obj attr : string)
| ValueError (msg : string)
| TypeError (msg : string)
| IndexOutOfBounds
| NotImplementedError.

(** [IndexError.__init__]: the text the message renders to. *)
Definition IndexError_msg (cls arg idx : string) (action : option string)
    (overwrite : bool) (add_msg : string) : string :=
  let action :=
    match action with
    | None => "add `" ^^ arg ^^ "` to " ^^ cls
    | Some a => a
    end in
  let msg := "Tried to " ^^ action ^^ ", but `" ^^ idx ^^ "` " in
  let msg :=
    if overwrite
    then msg ^^ "is already displayed or taken. "
             ^^ "If you wish to overwrite the current `" ^^ arg ^^ "`, set "
             ^^ "`overwrite` to True. "
    else msg ^^ "wasn't found. " in
  msg ^^ add_msg.

(** Results of code that builds a value or raises. *)
Inductive result (A : Type) : Type :=
| Ok (a : A)
| Err (e : exn).
Arguments Ok {A} a.
Arguments Err {A} e.

Definition rbind {A B : Type} (m : result A) (k : A -> result B) : result B :=
  match m with
  | Ok a => k a
  | Err e => Err e
  end.

Declare Scope result_scope.
Delimit Scope result_scope with result.
Notation "'let?' x ':=' m 'in' k" := (rbind m (fun x => k))
  (at level 10, x name, m at level 100, k at level 200) : result_scope.
Open Scope result_scope.

(** [assert cond, m] *)
Definition py_assert (cond : bool) (m : message) : result unit :=
  if cond then Ok tt else Err (AssertionError m).

(* ------------------------------------------------------------------ *)
(** ** Python dictionaries                                             *)

Module Dict.
Section Dict.
Variable V : Type.

Definition t : Type := list (string * V).

Definition empty : t := [].

Definition keys (d : t) : list string := map fst d.

Definition values (d : t) : list V := map snd d.

(** [k in d] *)
Fixpoint mem (k : string) (d : t) : bool :=
  match d with
  | [] => false
  | (k', _) :: r => if String.eqb k k' then true else mem k r
  end.

(** [d[k]], a [KeyError] when absent *)
Fixpoint get (k : string) (d : t) : option V :=
  match d with
  | [] => None
  | (k', v) :: r => if String.eqb k k' then Some v else get k r
  end.

(** [d[k] = v]: a present key keeps its position, a new one goes last *)
Fixpoint set (k : string) (v : V) (d : t) : t :=
  match d with
  | [] => [(k, v)]
  | (k', v') :: r =>
      if String.eqb k k' then (k, v) :: r else (k', v') :: set k v r
  end.

(** the dictionary left by [d.pop(k)] when [k] is present *)
Fixpoint remove (k : string) (d : t) : t :=
  match d with
  | [] => []
  | (k', v') :: r =>
      if String.eqb k k' then r else (k', v') :: remove k r
  end.

(** [d.pop(k)]: the value and the remaining dictionary *)
Definition pop (k : string) (d : t) : option (V * t) :=
  match get k d with
  | Some v => Some (v, remove k d)
  | None => None
  end.

(** [d |= d'] *)
Definition update (d d' : t) : t :=
  fold_left (fun acc kv => set (fst kv) (snd kv) acc) d' d.

(** A dict display or comprehension: the items are stored one by one. *)
Definition of_items (items : list (string * V)) : t :=
  fold_left (fun acc kv => set (fst kv) (snd kv) acc) items empty.

(** [[d[k] for k in ks]], which stops at the first absent key *)
Fixpoint get_all (ks : list string) (d : t) : result (list V) :=
  match ks with
  | [] => Ok []
  | k :: r =>
      match get k d with
      | None => Err (KeyError k)
      | Some v => let? vs := get_all r d in Ok (v :: vs)
      end
  end.
End Dict.
End Dict.

(* ------------------------------------------------------------------ *)
(** ** Floats                                                          *)

(** A Python float, or an element of an array of [dtype=float]. *)
Inductive pyfloat : Type :=
| Finite (q : Q)
| PosInf
| NegInf
| NaN.

(** A rational stands for the float that denotes it, also inside list and
    pair displays. *)
Coercion Finite : Q >-> pyfloat.
Arguments cons {A}%_type_scope & a l.
Arguments pair {A B}%_type_scope & a b.


(** [a <= b], false as soon as one of them is nan *)
Definition fle (a b : pyfloat) : bool :=
  match a, b with
  | NaN, _ | _, NaN => false
  | NegInf, _ | _, PosInf => true
  | Finite p, Finite q => Qle_bool p q
  | _, _ => false
  end.

(* ------------------------------------------------------------------ *)
(** ** numpy arrays                                                    *)

Record ndarray : Type := mk_ndarray {
  shape : list nat;
  data : list pyfloat
}.

(** [np.array(s, dtype=float)] of a Python number *)
Definition np_scalar (q : pyfloat) : ndarray := {| shape := []; data := [q] |}.

(** [np.array(l, dtype=float)] of a flat Python list *)
Definition np_array (l : list pyfloat) : ndarray :=
  {| shape := [length l]; data := l |}.

(** [a.flatten()] *)
Definition flatten (a : ndarray) : list pyfloat := data a.

(** [a.size] of a flat array *)
Definition size (a : list pyfloat) : nat := length a.

(** [np.shape(a) == np.shape(b)] *)
Definition shape_eqb (a b : ndarray) : bool :=
  if list_eq_dec Nat.eq_dec (shape a) (shape b) then true else false.

(** [np.minimum] and [np.maximum]: an operand that is nan is the result. *)
Definition minimum (a b : pyfloat) : pyfloat :=
  match a, b with
  | NaN, _ | _, NaN => NaN
  | _, _ => if fle a b then a else b
  end.

Definition maximum (a b : pyfloat) : pyfloat :=
  match a, b with
  | NaN, _ | _, NaN => NaN
  | _, _ => if fle a b then b else a
  end.

Definition zero_size (op : string) : exn :=
  ValueError ("zero-size array to reduction operation " ^^ op
              ^^ " which has no identity").

(** [np.min]: a reduction with [minimum], which has no identity *)
Definition np_min (a : list pyfloat) : result pyfloat :=
  match a with
  | [] => Err (zero_size "minimum")
  | x :: r => Ok (fold_left minimum r x)
  end.

Definition np_max (a : list pyfloat) : result pyfloat :=
  match a with
  | [] => Err (zero_size "maximum")
  | x :: r => Ok (fold_left maximum r x)
  end.

(* ------------------------------------------------------------------ *)
(** ** Artists: [pygraph/artists.py]                                   *)

(** What every [Artist] holds. *)
Record ArtistBase : Type := mk_base {
  _xdata : list pyfloat;
  _ydata : list pyfloat;
  _name : string
}.

(** The attributes [Line] adds. *)
Record LineAttrs : Type := mk_line {
  _c : string;
  _lw : pyfloat;
  _ls : string
}.

(** An argument that is one number or an array-like of numbers. *)
Inductive num_arg : Type :=
| Num (q : pyfloat)
| Arr (a : ndarray).

(** The value a setter stores for such an argument. *)
Inductive num_attr : Type :=
| NumScalar (q : pyfloat)
| NumArray (a : list pyfloat).

(** The [c] argument of [Points]: a string or an array-like. *)
Inductive color_arg : Type :=
| CStr (c : string)
| CArr (a : ndarray).

Inductive color_attr : Type :=
| ColorName (c : string)
| ColorArray (a : list pyfloat).

Record PointsAttrs : Type := mk_points {
  pts_c : color_attr;
  pts_s : num_attr;
  pts_t : string
}.

Record ArrowsAttrs : Type := mk_arrows {
  _uv : list pyfloat * list pyfloat;
  arr_c : num_attr;
  _pivot : string
}.

Record TextAttrs : Type := mk_text {
  _text : string;
  txt_c : string;
  txt_s : pyfloat;
  _coord_type : string;
  _offset : pyfloat * pyfloat
}.

(** The concrete 2D classes.  [Straight] is a subclass of [Line]. *)
Inductive Artist : Type :=
| Line (b : ArtistBase) (a : LineAttrs)
| Straight (b : ArtistBase) (a : LineAttrs) (dx dy : pyfloat)
| Points (b : ArtistBase) (a : PointsAttrs)
| Arrows (b : ArtistBase) (a : ArrowsAttrs)
| Text (b : ArtistBase) (a : TextAttrs).

Definition base (artist : Artist) : ArtistBase :=
  match artist with
  | Line b _ | Straight b _ _ _ | Points b _ | Arrows b _ | Text b _ => b
  end.

Definition get_xdata (artist : Artist) : list pyfloat := _xdata (base artist).
Definition get_ydata (artist : Artist) : list pyfloat := _ydata (base artist).
Definition get_name (artist : Artist) : string := _name (base artist).

(** [isinstance(artist, Text)] *)
Definition isinstance_Text (artist : Artist) : bool :=
  match artist with
  | Text _ _ => true
  | _ => false
  end.

(** [x in l] for a set or for the keys of a dict of strings *)
Definition str_in (x : string) (l : list string) : bool :=
  existsb (String.eqb x) l.

(** The string literals between two commas of the display of
    [Line.LS_OPTIONS], line by line.  Python joins adjacent literals into
    one. *)
Definition LS_OPTIONS_literals : list (list string) :=
  [ ["solid"];
    ["dashed"];
    ["dotted"];
    ["dashdot"];
    ["-"];
    ["--"; ":"];
    ["-."] ].

Definition LS_OPTIONS : list string :=
  map (String.concat EmptyString) LS_OPTIONS_literals.

Definition PIVOT_OPTIONS : list string := ["tip"; "mid"; "tail"].

(** [Text.COORD_OPTIONS] *)
Definition COORD_OPTIONS : Dict.t string :=
  [("data", "data"); ("fraction", "axes fraction")].

Definition size_msg_Artist : message :=
  Plain "Tried to initialize Artist, but `x` and `y` don't have the same size.".
Definition size_msg_Artist3D : message :=
  Plain "Tried to initialize Artist, but `x` and `z` don't have the same size.".
Definition size_msg_Arrows : message :=
  Plain "Tried to initialize Arrows, but `u` and `v` don't have the same size as `x` and `y`.".
Definition size_msg_Points_color : message :=
  Plain "Tried to set Points `color`, but `c` doesn't have the same size as `x` and `y`.".
Definition size_msg_Points_size : message :=
  Plain "Tried to set Points `size`, but `s` doesn't have the same size as `x` and `y`.".
Definition size_msg_Arrows_color : message :=
  Plain "Tried to set Arrows `color`, but `c` doesn't have the same size as `x` and `y`.".

(** A setter call on a built object: the exception it raised, if any, and
    the object after the call. *)
Definition setter (A : Type) : Type := (option exn * A)%type.

(** A setter whose assignment follows its assertion: when the check raises,
    nothing has been stored. *)
Definition assign {A B : Type} (self : A) (check : result B)
    (store : B -> A) : setter A :=
  match check with
  | Ok b => (None, store b)
  | Err e => (Some e, self)
  end.

Section Artists.
(** [Artist.COLOR_OPTIONS]: the names in matplotlib's [BASE_COLORS],
    [TABLEAU_COLORS] and [CSS4_COLORS]. *)
Variable COLOR_OPTIONS : list string.

(** [Artist.__init__] *)
Definition Artist_init (x y : ndarray) (name : string) : result ArtistBase :=
  let xdata := flatten x in
  let ydata := flatten y in
  let? _ := py_assert (Nat.eqb (size xdata) (size ydata)) size_msg_Artist in
  Ok {| _xdata := xdata; _ydata := ydata; _name := name |}.

(** The check of [Line.set_color] and [Text.set_color]. *)
Definition check_color (cls c : string) : result string :=
  let? _ := py_assert (str_in c COLOR_OPTIONS)
                      (OptionsError cls "c" None EmptyString) in
  Ok c.

(** The check of [Line.set_linestyle]. *)
Definition check_linestyle (ls : string) : result string :=
  let? _ := py_assert (str_in ls LS_OPTIONS)
                      (OptionsError "Line" "ls" (Some LS_OPTIONS)
                                    EmptyString) in
  Ok ls.

(** [Line.set_color], [Line.set_linewidth], [Line.set_linestyle] *)
Definition Line_set_color (c : string) (self : LineAttrs)
  : setter LineAttrs :=
  assign self (check_color "Line" c)
         (fun c => {| _c := c; _lw := _lw self; _ls := _ls self |}).

Definition Line_set_linewidth (lw : pyfloat) (self : LineAttrs)
  : setter LineAttrs :=
  (None, {| _c := _c self; _lw := lw; _ls := _ls self |}).

Definition Line_set_linestyle (ls : string) (self : LineAttrs)
  : setter LineAttrs :=
  assign self (check_linestyle ls)
         (fun ls => {| _c := _c self; _lw := _lw self; _ls := ls |}).

(** The three setter calls that end [Line.__init__] and
    [Line3D.__init__], on an object that has none of the attributes yet. *)
Definition Line_attrs_init (c : string) (lw : pyfloat) (ls : string)
  : result LineAttrs :=
  let? c := check_color "Line" c in
  let? ls := check_linestyle ls in
  Ok {| _c := c; _lw := lw; _ls := ls |}.

(** [Line.__init__] *)
Definition Line_init (x y : ndarray) (name c : string) (lw : pyfloat)
    (ls : string) : result Artist :=
  let? b := Artist_init x y name in
  let? a := Line_attrs_init c lw ls in
  Ok (Line b a).

(** [Straight.__init__] *)
Definition Straight_init (xy dir : pyfloat * pyfloat) (name c : string) (lw : pyfloat)
    (ls : string) : result Artist :=
  let '(dx, dy) := dir in
  let? b := Artist_init (np_scalar (fst xy)) (np_scalar (snd xy)) name in
  let? a := Line_attrs_init c lw ls in
  Ok (Straight b a dx dy).

(** The value [Points.set_color] stores, given the object's [_xdata]. *)
Definition Points_check_color (c : color_arg) (xdata : list pyfloat)
  : result color_attr :=
  match c with
  | CStr c =>
      let? _ := py_assert (str_in c COLOR_OPTIONS)
                          (OptionsError "Points" "c" None EmptyString) in
      Ok (ColorName c)
  | CArr c =>
      let c := flatten c in
      let? _ := py_assert (Nat.eqb (size c) (size xdata)) size_msg_Points_color in
      Ok (ColorArray c)
  end.

(** The value [Points.set_size] stores. *)
Definition Points_check_size (s : num_arg) (xdata : list pyfloat)
  : result num_attr :=
  match s with
  | Num s => Ok (NumScalar s)
  | Arr s =>
      let s := flatten s in
      let? _ := py_assert (Nat.eqb (size s) (size xdata)) size_msg_Points_size in
      Ok (NumArray s)
  end.

(** [Points.__init__] *)
Definition Points_init (x y : ndarray) (name : string) (c : color_arg)
    (s : num_arg) (t : string) : result Artist :=
  let? b := Artist_init x y name in
  let? c := Points_check_color c (_xdata b) in
  let? s := Points_check_size s (_xdata b) in
  Ok (Points b {| pts_c := c; pts_s := s; pts_t := t |}).

(** [Points.set_color] and [Points.set_size] on a [Points] object whose
    coordinates are [b]. *)
Definition Points_set_color (c : color_arg) (b : ArtistBase)
    (self : PointsAttrs) : setter PointsAttrs :=
  assign self (Points_check_color c (_xdata b))
         (fun c => {| pts_c := c; pts_s := pts_s self;
                      pts_t := pts_t self |}).

Definition Points_set_size (s : num_arg) (b : ArtistBase)
    (self : PointsAttrs) : setter PointsAttrs :=
  assign self (Points_check_size s (_xdata b))
         (fun s => {| pts_c := pts_c self; pts_s := s;
                      pts_t := pts_t self |}).

(** The value [Arrows.set_color] stores. *)
Definition Arrows_check_color (c : num_arg) (xdata : list pyfloat)
  : result num_attr :=
  match c with
  | Num c => Ok (NumScalar c)
  | Arr c =>
      let c := flatten c in
      let? _ := py_assert (Nat.eqb (size c) (size xdata)) size_msg_Arrows_color in
      Ok (NumArray c)
  end.

(** [Arrows.__init__]; [pivot] is stored as given. *)
Definition Arrows_init (x y u v : ndarray) (name : string) (c : num_arg)
    (pivot : string) : result Artist :=
  let? b := Artist_init x y name in
  let u := flatten u in
  let v := flatten v in
  let? _ := py_assert ((Nat.eqb (size u) (size v)) && (Nat.eqb (size v) (size (_xdata b))))
                      size_msg_Arrows in
  let? c := Arrows_check_color c (_xdata b) in
  Ok (Arrows b {| _uv := (u, v); arr_c := c; _pivot := pivot |}).

(** [Arrows.set_pivot] *)
Definition Arrows_set_pivot (pivot : string) (self : ArrowsAttrs)
  : setter ArrowsAttrs :=
  assign self
         (py_assert (str_in pivot PIVOT_OPTIONS)
            (OptionsError "Arrows" "pivot" (Some PIVOT_OPTIONS)
                          EmptyString))
         (fun _ => {| _uv := _uv self; arr_c := arr_c self;
                      _pivot := pivot |}).

(** The check of [Text.set_coord_type]. *)
Definition check_coord_type (coord_type : string) : result string :=
  let? _ := py_assert (Dict.mem coord_type COORD_OPTIONS)
              (OptionsError "Text" "coord_type"
                            (Some (Dict.keys COORD_OPTIONS)) EmptyString) in
  Ok coord_type.

(** [Text.__init__] *)
Definition Text_init (x y : pyfloat) (text name c : string) (s : pyfloat)
    (coord_type : string) (offset : pyfloat * pyfloat) : result Artist :=
  let? b := Artist_init (np_scalar x) (np_scalar y) name in
  let? c := check_color "Text" c in
  let? coord_type := check_coord_type coord_type in
  Ok (Text b {| _text := text; txt_c := c; txt_s := s;
                _coord_type := coord_type; _offset := offset |}).

(** *** [pygraph/artists_3d.py] *)

Inductive Artist3 : Type :=
| Line3D (b : ArtistBase) (zdata : list pyfloat) (a : LineAttrs)
| Points3D (b : ArtistBase) (zdata : list pyfloat) (c : color_attr) (s : num_attr)
| Text3D (b : ArtistBase) (zdata : list pyfloat) (text c : string) (s : pyfloat)
         (offset : pyfloat * pyfloat).

(** [Artist3D.__init__] *)
Definition Artist3D_init (x y z : ndarray) (name : string)
  : result (ArtistBase * list pyfloat) :=
  let? b := Artist_init x y name in
  let zdata := flatten z in
  let? _ := py_assert (Nat.eqb (size (_xdata b)) (size zdata)) size_msg_Artist3D in
  Ok (b, zdata).

Definition Line3D_init (x y z : ndarray) (name c : string) (lw : pyfloat)
    (ls : string) : result Artist3 :=
  let? bz := Artist3D_init x y z name in
  let? a := Line_attrs_init c lw ls in
  Ok (Line3D (fst bz) (snd bz) a).

Definition Points3D_init (x y z : ndarray) (name : string) (c : color_arg)
    (s : num_arg) : result Artist3 :=
  let? bz := Artist3D_init x y z name in
  let? c := Points_check_color c (_xdata (fst bz)) in
  let? s := Points_check_size s (_xdata (fst bz)) in
  Ok (Points3D (fst bz) (snd bz) c s).

Definition Text3D_init (x y z : pyfloat) (text name c : string) (s : pyfloat)
    (offset : pyfloat * pyfloat) : result Artist3 :=
  let? bz := Artist3D_init (np_scalar x) (np_scalar y) (np_scalar z) name in
  let? c := check_color "Text" c in
  Ok (Text3D (fst bz) (snd bz) text c s offset).
End Artists.

(* ------------------------------------------------------------------ *)
(** ** [ColorMesh]: [pygraph/mesh.py]                                  *)

Record ColorMesh : Type := mk_mesh {
  _X : ndarray;
  _Y : ndarray;
  _C : ndarray;
  _cmap : string
}.

Definition ColorMesh_init (X Y C : ndarray) (cmap : string)
  : result ColorMesh :=
  let? _ := py_assert (Nat.eqb (length (shape X)) 2)
    (Plain "Tried to initialize ColorMesh, but `X` isn't 2 dimensional.") in
  let? _ := py_assert (shape_eqb X Y && shape_eqb Y C)
    (Plain "Tried to initialize ColorMesh, but `X`, `Y` and `C` don't have the same shape.") in
  Ok {| _X := X; _Y := Y; _C := C; _cmap := cmap |}.

(* ------------------------------------------------------------------ *)
(** ** The renderer: a matplotlib [Axes]                                *)

Inductive mpl_kind : Type :=
| AxLine | Line2D | PathCollection | Quiver | Annotation | QuadMesh.

(** An object matplotlib has drawn.  The figure and the legend refer to it
    by [mpl_id]; its state lives with the axes. *)
Record MplArtist : Type := mk_mpl {
  mpl_id : nat;
  mpl_kind_of : mpl_kind;
  mpl_label : string;
  mpl_visible : bool
}.

Record MplLegend : Type := mk_legend {
  legend_handles : list nat;
  legend_visible : bool
}.

(** [cm.ScalarMappable(mcolors.Normalize(vmin, vmax), cmap)] *)
Record ScalarMappable : Type := mk_sm {
  vmin : pyfloat;
  vmax : pyfloat;
  sm_cmap : string
}.

(** A drawing call of [Figure] on its axes: the method, named by the kind
    of object it returns ([axline], [plot], [scatter], [quiver],
    [annotate]), with the artist whose attributes are its arguments and the
    label; or [pcolormesh] with a mesh. *)
Inductive mpl_request : Type :=
| Draw (kind : mpl_kind) (artist : Artist) (label : string)
| DrawMesh (color_mesh : ColorMesh).

(** The axes.  [mpl_refuses ax r] is the exception the drawing call [r]
    raises on [ax], [None] when matplotlib accepts its arguments: a
    linestyle, a marker, a pivot or a colormap matplotlib does not know is
    a [ValueError].  A call that raises has added nothing. *)
Record Axes : Type := mk_axes {
  next_id : nat;
  children : list MplArtist;
  xlim : Q * Q;
  ylim : Q * Q;
  colorbars : list ScalarMappable;
  mpl_refuses : mpl_request -> option exn
}.

(** What an accepted drawing call does: the new object goes on top, its
    identity is fresh. *)
Definition mpl_draw (kind : mpl_kind) (label : string) (ax : Axes)
  : nat * Axes :=
  let id := next_id ax in
  (id, {| next_id := S id;
          children := children ax ++ [mk_mpl id kind label true];
          xlim := xlim ax; ylim := ylim ax; colorbars := colorbars ax;
          mpl_refuses := mpl_refuses ax |}).

(** [mpl_artist.remove()] *)
Definition mpl_remove (id : nat) (ax : Axes) : Axes :=
  {| next_id := next_id ax;
     children := filter (fun c => negb (Nat.eqb (mpl_id c) id)) (children ax);
     xlim := xlim ax; ylim := ylim ax; colorbars := colorbars ax;
     mpl_refuses := mpl_refuses ax |}.

(** [mpl_artist.set_visible(visibility)] *)
Definition mpl_set_visible (id : nat) (visibility : bool) (ax : Axes) : Axes :=
  {| next_id := next_id ax;
     children :=
       map (fun c => if Nat.eqb (mpl_id c) id
                     then mk_mpl (mpl_id c) (mpl_kind_of c) (mpl_label c)
                                 visibility
                     else c) (children ax);
     xlim := xlim ax; ylim := ylim ax; colorbars := colorbars ax;
     mpl_refuses := mpl_refuses ax |}.

(** What matplotlib raises on a limit that is nan or infinite. *)
Definition limits_error : exn :=
  ValueError "Axis limits cannot be NaN or Inf".

(** [ax.set_xlim(lo, hi)] and [ax.set_ylim(lo, hi)]: the limits are checked,
    then stored. *)
Definition set_xlim (lo hi : pyfloat) (ax : Axes) : result Axes :=
  match lo, hi with
  | Finite lo, Finite hi =>
      Ok {| next_id := next_id ax; children := children ax;
            xlim := (lo, hi); ylim := ylim ax; colorbars := colorbars ax;
            mpl_refuses := mpl_refuses ax |}
  | _, _ => Err limits_error
  end.

Definition set_ylim (lo hi : pyfloat) (ax : Axes) : result Axes :=
  match lo, hi with
  | Finite lo, Finite hi =>
      Ok {| next_id := next_id ax; children := children ax;
            xlim := xlim ax; ylim := (lo, hi); colorbars := colorbars ax;
            mpl_refuses := mpl_refuses ax |}
  | _, _ => Err limits_error
  end.

(** [mpl_fig.colorbar(sm, ax=mpl_ax)] *)
Definition colorbar (sm : ScalarMappable) (ax : Axes) : Axes :=
  {| next_id := next_id ax; children := children ax;
     xlim := xlim ax; ylim := ylim ax;
     colorbars := colorbars ax ++ [sm];
     mpl_refuses := mpl_refuses ax |}.

(** A new [Axes]: nothing drawn, matplotlib's default limits. *)
Definition new_axes (refuses : mpl_request -> option exn) : Axes :=
  {| next_id := 0; children := []; xlim := (0, 1); ylim := (0, 1);
     colorbars := []; mpl_refuses := refuses |}.

(* ------------------------------------------------------------------ *)
(** ** [_Figure], [Figure] and [Legend]: [pygraph/pygraph.py]           *)

Module LegendState.
Record t : Type := mk {
  _mpl_legend : MplLegend;
  _artists : Dict.t Artist
}.
End LegendState.

(** A [Figure] with the [Legend] it owns.  The legend's [_figure] is this
    very object, so the methods of [Legend] act on the same state. *)
Record Figure : Type := mk_figure {
  _mpl_ax : Axes;
  _mpl_artists : Dict.t nat;
  _artists : Dict.t Artist;
  _color_mesh : option ColorMesh;
  _mpl_quad_mesh : option nat;
  _autoscale : string;
  legend : LegendState.t
}.

Definition with_mpl_ax (ax : Axes) (self : Figure) : Figure :=
  mk_figure ax (_mpl_artists self) (_artists self) (_color_mesh self)
            (_mpl_quad_mesh self) (_autoscale self) (legend self).

Definition with_mpl_artists (d : Dict.t nat) (self : Figure) : Figure :=
  mk_figure (_mpl_ax self) d (_artists self) (_color_mesh self)
            (_mpl_quad_mesh self) (_autoscale self) (legend self).

Definition with_artists (d : Dict.t Artist) (self : Figure) : Figure :=
  mk_figure (_mpl_ax self) (_mpl_artists self) d (_color_mesh self)
            (_mpl_quad_mesh self) (_autoscale self) (legend self).

Definition with_color_mesh (m : option ColorMesh) (self : Figure) : Figure :=
  mk_figure (_mpl_ax self) (_mpl_artists self) (_artists self) m
            (_mpl_quad_mesh self) (_autoscale self) (legend self).

Definition with_mpl_quad_mesh (h : option nat) (self : Figure) : Figure :=
  mk_figure (_mpl_ax self) (_mpl_artists self) (_artists self)
            (_color_mesh self) h (_autoscale self) (legend self).

Definition with_autoscale (a : string) (self : Figure) : Figure :=
  mk_figure (_mpl_ax self) (_mpl_artists self) (_artists self)
            (_color_mesh self) (_mpl_quad_mesh self) a (legend self).

Definition with_legend (l : LegendState.t) (self : Figure) : Figure :=
  mk_figure (_mpl_ax self) (_mpl_artists self) (_artists self)
            (_color_mesh self) (_mpl_quad_mesh self) (_autoscale self) l.

Definition with_legend_artists (d : Dict.t Artist) (self : Figure) : Figure :=
  with_legend (LegendState.mk (LegendState._mpl_legend (legend self)) d) self.

Definition with_mpl_legend (l : MplLegend) (self : Figure) : Figure :=
  with_legend (LegendState.mk l (LegendState._artists (legend self))) self.

(** What a method call leaves: the object, and the exception if it raised. *)
Inductive outcome : Type :=
| Return (self : Figure)
| Raise (e : exn) (self : Figure).

Definition obind (m : outcome) (k : Figure -> outcome) : outcome :=
  match m with
  | Return self => k self
  | Raise e self => Raise e self
  end.

Declare Scope outcome_scope.
Delimit Scope outcome_scope with outcome.
Notation "'do' x '<-' m ';' k" := (obind m (fun x => k))
  (at level 10, x name, m at level 100, k at level 200) : outcome_scope.
Open Scope outcome_scope.

(** The state a call leaves, raised or not, and the exception if any. *)
Definition state_of (o : outcome) : Figure :=
  match o with
  | Return self | Raise _ self => self
  end.

Definition raised (o : outcome) : option exn :=
  match o with
  | Return _ => None
  | Raise e _ => Some e
  end.

(** [assert cond, m] inside a method *)
Definition oassert (cond : bool) (m : message) (self : Figure) : outcome :=
  if cond then Return self else Raise (AssertionError m) self.

(** [a[0]] on a numpy array *)
Definition item0 (a : list pyfloat) : result pyfloat :=
  match a with
  | [] => Err IndexOutOfBounds
  | x :: _ => Ok x
  end.

(** Lift a check that reads only: the state is the one at the call. *)
Definition lift {A : Type} (r : result A) (self : Figure)
    (k : A -> outcome) : outcome :=
  match r with
  | Ok a => k a
  | Err e => Raise e self
  end.

(** One of [Figure._add_mpl_axline], [_add_mpl_line], [_add_mpl_scatter],
    [_add_mpl_quiver], [_add_mpl_annotation] once its arguments are
    evaluated: the drawing call, which may raise, then
    [self._mpl_artists[artist.get_name()] = handle]. *)
Definition draw_and_store (kind : mpl_kind) (artist : Artist)
    (label : string) (self : Figure) : outcome :=
  match mpl_refuses (_mpl_ax self) (Draw kind artist label) with
  | Some e => Raise e self
  | None =>
      let '(h, ax) := mpl_draw kind label (_mpl_ax self) in
      Return (with_mpl_artists (Dict.set (get_name artist) h
                                         (_mpl_artists self))
                               (with_mpl_ax ax self))
  end.

(** [Figure._add_mpl_artist]: the [isinstance] chain, [Straight] before
    [Line]. *)
Definition _add_mpl_artist (artist : Artist) (label : string)
    (self : Figure) : outcome :=
  match artist with
  | Straight b _ _ _ =>
      lift (item0 (_xdata b)) self (fun _ =>
      lift (item0 (_ydata b)) self (fun _ =>
      draw_and_store AxLine artist label self))
  | Line _ _ => draw_and_store Line2D artist label self
  | Points _ _ => draw_and_store PathCollection artist label self
  | Arrows _ _ => draw_and_store Quiver artist label self
  | Text b a =>
      lift (item0 (_xdata b)) self (fun _ =>
      lift (item0 (_ydata b)) self (fun _ =>
      match Dict.get (_coord_type a) COORD_OPTIONS with
      | None => Raise (KeyError (_coord_type a)) self
      | Some _ => draw_and_store Annotation artist EmptyString self
      end))
  end.

(** [_Figure.remove_artist] *)
Definition remove_artist (name : string) (self : Figure) : outcome :=
  do self <- oassert (Dict.mem name (_artists self))
       (IndexError "Figure" "artist" "name"
                   (Some "remove Artist from Figure") false EmptyString)
       self;
  let self := with_artists (Dict.remove name (_artists self)) self in
  match Dict.pop name (_mpl_artists self) with
  | None => Raise (KeyError name) self
  | Some (mpl_artist, rest) =>
      let self := with_mpl_artists rest self in
      Return (with_mpl_ax (mpl_remove mpl_artist (_mpl_ax self)) self)
  end.

(** [_Figure.add_artist] *)
Definition add_artist (artist : Artist) (label : string) (overwrite : bool)
    (self : Figure) : outcome :=
  let name := get_name artist in
  do self <-
    (if Dict.mem name (_artists self)
     then if overwrite
          then remove_artist name self
          else Raise (AssertionError
                        (IndexError "Figure" "artist" "name" None true
                                    EmptyString)) self
     else Return self);
  let label := if String.eqb label EmptyString then name else label in
  do self <- _add_mpl_artist artist label self;
  Return (with_artists (Dict.set name artist (_artists self)) self).

(** [_Figure.set_visible] *)
Definition set_visible (name : string) (visibility : bool) (self : Figure)
  : outcome :=
  do self <- oassert (Dict.mem name (_artists self))
       (IndexError "Figure" "artist" "name"
                   (Some "set Artist visibility") false EmptyString)
       self;
  match Dict.get name (_mpl_artists self) with
  | None => Raise (KeyError name) self
  | Some h =>
      Return (with_mpl_ax (mpl_set_visible h visibility (_mpl_ax self)) self)
  end.

(** [artist.get_color()] for the classes that have it: a color name, one
    number, or an array. *)
Inductive color_value : Type :=
| CVStr (c : string)
| CVNum (q : pyfloat)
| CVArray (a : list pyfloat).

Definition get_color (artist : Artist) : color_value :=
  match artist with
  | Line _ a | Straight _ a _ _ => CVStr (_c a)
  | Points _ a =>
      match pts_c a with
      | ColorName c => CVStr c
      | ColorArray c => CVArray c
      end
  | Arrows _ a =>
      match arr_c a with
      | NumScalar c => CVNum c
      | NumArray c => CVArray c
      end
  | Text _ a => CVStr (txt_c a)
  end.

Definition class_name (artist : Artist) : string :=
  match artist with
  | Line _ _ => "Line"
  | Straight _ _ _ _ => "Straight"
  | Points _ _ => "Points"
  | Arrows _ _ => "Arrows"
  | Text _ _ => "Text"
  end.

(** [np.min] and [np.max] of what [get_color] returns; numpy has no
    [minimum] on strings. *)
Definition np_reduce_color (reduce : list pyfloat -> result pyfloat) (v : color_value)
  : result pyfloat :=
  match v with
  | CVStr _ => Err (TypeError "cannot perform reduce with flexible type")
  | CVNum q => Ok q
  | CVArray a => reduce a
  end.

(** [_Figure.add_colorbar].  No class of [artists.py] defines [get_cmap];
    [ColorMesh] does. *)
Definition add_colorbar (name : option string) (self : Figure) : outcome :=
  match name with
  | Some name =>
      do self <- oassert (Dict.mem name (_artists self))
           (IndexError "Figure" "artist" "name"
                       (Some "add Figure colorbar") false EmptyString)
           self;
      match Dict.get name (_artists self) with
      | None => Raise (KeyError name) self
      | Some artist =>
          let data := get_color artist in
          lift (np_reduce_color np_min data) self (fun _ =>
          lift (np_reduce_color np_max data) self (fun _ =>
          Raise (AttributeError (class_name artist) "get_cmap") self))
      end
  | None =>
      match _color_mesh self with
      | None => Raise (AttributeError "NoneType" "get_color") self
      | Some artist =>
          let data := flatten (_C artist) in
          lift (np_min data) self (fun lo =>
          lift (np_max data) self (fun hi =>
          let sm := {| vmin := lo; vmax := hi; sm_cmap := _cmap artist |} in
          Return (with_mpl_ax (colorbar sm (_mpl_ax self)) self)))
      end
  end.

Definition AUTOSCALE_OPTIONS : list string :=
  ["all"; "width"; "height"; "none"].

(** The arrays [Figure.update_scale] reduces, [None] when the outer [if]
    fails. *)
Definition gather (self : Figure) : option (list pyfloat * list pyfloat) :=
  match Dict.values (_artists self), _color_mesh self with
  | [], None => None
  | [], Some mesh => Some (flatten (_X mesh), flatten (_Y mesh))
  | artists, mesh =>
      let xdata := concat (map get_xdata artists) in
      let ydata := concat (map get_ydata artists) in
      match mesh with
      | None => Some (xdata, ydata)
      | Some mesh =>
          Some (xdata ++ flatten (_X mesh), ydata ++ flatten (_Y mesh))
      end
  end.

(** [Figure.update_scale] *)
Definition update_scale (self : Figure) : outcome :=
  match gather self with
  | None => Return self
  | Some (xdata, ydata) =>
      lift (np_min xdata) self (fun x_min =>
      lift (np_max xdata) self (fun x_max =>
      lift (np_min ydata) self (fun y_min =>
      lift (np_max ydata) self (fun y_max =>
      if String.eqb (_autoscale self) "all" then
        lift (set_xlim x_min x_max (_mpl_ax self)) self (fun ax =>
        let self := with_mpl_ax ax self in
        lift (set_ylim y_min y_max (_mpl_ax self)) self (fun ax =>
        Return (with_mpl_ax ax self)))
      else if String.eqb (_autoscale self) "width" then
        lift (set_xlim x_min x_max (_mpl_ax self)) self (fun ax =>
        Return (with_mpl_ax ax self))
      else if String.eqb (_autoscale self) "height" then
        lift (set_ylim y_min y_max (_mpl_ax self)) self (fun ax =>
        Return (with_mpl_ax ax self))
      else Return self))))
  end.

(** [Figure.set_autoscale] *)
Definition set_autoscale (autoscale : string) (self : Figure) : outcome :=
  do self <- oassert (str_in autoscale AUTOSCALE_OPTIONS)
       (OptionsError "Figure" "autoscale" (Some AUTOSCALE_OPTIONS)
                     EmptyString) self;
  Return (with_autoscale autoscale self).

(** [Figure.remove_color_mesh] *)
Definition remove_color_mesh (self : Figure) : outcome :=
  match _color_mesh self with
  | None =>
      Raise (AssertionError
               (IndexError "Figure" "color_mesh" "color_mesh"
                  (Some "remove ColorMesh from Figure") false EmptyString))
            self
  | Some _ =>
      let self := with_color_mesh None self in
      match _mpl_quad_mesh self with
      | None => Raise (AttributeError "NoneType" "remove") self
      | Some h =>
          Return (with_mpl_quad_mesh None
                    (with_mpl_ax (mpl_remove h (_mpl_ax self)) self))
      end
  end.

(** [Figure.add_color_mesh] *)
Definition add_color_mesh (color_mesh : ColorMesh) (overwrite : bool)
    (self : Figure) : outcome :=
  do self <-
    (match _color_mesh self with
     | Some _ =>
         if overwrite
         then remove_color_mesh self
         else Raise (AssertionError
                       (IndexError "Figure" "color_mesh" "color_mesh" None
                                   true EmptyString)) self
     | None => Return self
     end);
  match mpl_refuses (_mpl_ax self) (DrawMesh color_mesh) with
  | Some e => Raise e self
  | None =>
      let '(h, ax) := mpl_draw QuadMesh EmptyString (_mpl_ax self) in
      Return (with_color_mesh (Some color_mesh)
                (with_mpl_quad_mesh (Some h) (with_mpl_ax ax self)))
  end.

(** *** [Legend] *)

(** [Legend._update] *)
Definition Legend_update (self : Figure) : outcome :=
  lift (Dict.get_all (Dict.keys (LegendState._artists (legend self)))
                     (_mpl_artists self)) self (fun mpl_handles =>
  if Nat.ltb 0 (length mpl_handles)
  then Return (with_mpl_legend
                 {| legend_handles := mpl_handles; legend_visible := true |}
                 self)
  else Return (with_mpl_legend
                 {| legend_handles :=
                      legend_handles (LegendState._mpl_legend (legend self));
                    legend_visible := false |}
                 self)).

(** The [names] argument of [Legend.add] and [Legend.remove]. *)
Inductive names_arg : Type :=
| NamesStr (s : string)
| NamesSeq (names : list string).

(** [name in artists and not isinstance(artists[name], Text)] *)
Definition selectable (name : string) (self : Figure) : bool :=
  Dict.mem name (_artists self) &&
  negb match Dict.get name (_artists self) with
       | Some artist => isinstance_Text artist
       | None => false
       end.

Definition msg_Legend_add_names : message :=
  Plain "Tried to add Artist to Figure Legend, but `names` is invalid. Make sure `names` is of type list | tuple | numpy.ndarray, or use the keyword 'all' to add all Artists to the Figure Legend.".

Definition msg_Legend_remove_names : message :=
  Plain "Tried to remove Artist from Figure Legend, but `names` is invalid. Make sure `names` is of type list | tuple | numpy.ndarray, or use the keyword 'all' to remove all Artists from the Figure Legend.".

Definition maybe_Text : string :=
  "Maybe Artist is of type pygraph.artists.Text.".

(** [Legend.add] *)
Definition Legend_add (names : names_arg) (self : Figure) : outcome :=
  do self <-
    (match names with
     | NamesStr s =>
         do self <- oassert (String.eqb s "all") msg_Legend_add_names self;
         Return (with_legend_artists
                   (Dict.of_items
                      (filter (fun kv => negb (isinstance_Text (snd kv)))
                              (_artists self)))
                   self)
     | NamesSeq names =>
         do self <- oassert (forallb (fun name => selectable name self) names)
              (IndexError "Legend" "artist" "name" None false maybe_Text)
              self;
         lift (Dict.get_all names (_artists self)) self (fun artists =>
         Return (with_legend_artists
                   (Dict.update (LegendState._artists (legend self))
                                (Dict.of_items (combine names artists)))
                   self))
     end);
  Legend_update self.

(** The [for] loop of [Legend.remove]: the assertion and the [pop] of one
    name follow each other. *)
Fixpoint Legend_remove_loop (names : list string) (self : Figure) : outcome :=
  match names with
  | [] => Return self
  | name :: rest =>
      do self <- oassert (selectable name self)
           (IndexError "Legend" "artist" "name"
                       (Some "remove Artist from Legend") false maybe_Text)
           self;
      match Dict.pop name (LegendState._artists (legend self)) with
      | None => Raise (KeyError name) self
      | Some (_, d) => Legend_remove_loop rest (with_legend_artists d self)
      end
  end.

(** [Legend.remove] *)
Definition Legend_remove (names : names_arg) (self : Figure) : outcome :=
  do self <-
    (match names with
     | NamesStr s =>
         do self <- oassert (String.eqb s "all") msg_Legend_remove_names
                            self;
         Return (with_legend_artists (Dict.empty Artist) self)
     | NamesSeq names => Legend_remove_loop names self
     end);
  Legend_update self.

(** [Figure.__init__] on a new [Axes], with the [Legend.__init__] it runs:
    [ax.legend(handles=[])], no artist, then [_update]. *)
Definition Figure_init (mpl_ax : Axes) (autoscale : string) : outcome :=
  let self :=
    {| _mpl_ax := mpl_ax;
       _mpl_artists := Dict.empty nat;
       _artists := Dict.empty Artist;
       _color_mesh := None;
       _mpl_quad_mesh := None;
       _autoscale := EmptyString;
       legend := LegendState.mk
                   {| legend_handles := []; legend_visible := true |}
                   (Dict.empty Artist) |} in
  do self <- Legend_update self;
  set_autoscale autoscale self.

(* ------------------------------------------------------------------ *)
(** ** The vocabulary of the specification                             *)

(** The error kinds of the specification are the [AssertionError]s of the
    source, told apart by their message. *)
Definition DuplicateNameError : exn :=
  AssertionError (IndexError "Figure" "artist" "name" None true EmptyString).

Definition NotFoundError (action : string) : exn :=
  AssertionError
    (IndexError "Figure" "artist" "name" (Some action) false EmptyString).

Definition InvalidSelectionError (action : option string) : exn :=
  AssertionError (IndexError "Legend" "artist" "name" action false maybe_Text).

Definition ShapeMismatchError (e : exn) : Prop :=
  In e (map AssertionError
            [size_msg_Artist; size_msg_Artist3D; size_msg_Arrows;
             size_msg_Points_color; size_msg_Points_size;
             size_msg_Arrows_color]).

Definition InvalidOptionError (e : exn) : Prop :=
  exists cls arg options add_msg,
    e = AssertionError (OptionsError cls arg options add_msg).

(** What the constructors of [artists.py] establish and
    [Figure._add_mpl_artist] relies on: a [Straight] and a [Text] hold one
    point, and the [coord_type] of a [Text] is a key of [COORD_OPTIONS]. *)
Definition drawable (artist : Artist) : Prop :=
  match artist with
  | Straight b _ _ _ => _xdata b <> [] /\ _ydata b <> []
  | Text b a =>
      _xdata b <> [] /\ _ydata b <> [] /\
      Dict.mem (_coord_type a) COORD_OPTIONS = true
  | _ => True
  end.

(** The invariant of the registry: [_artists] is a dictionary, and
    [_mpl_artists] has the same keys in the same order. *)
Definition registry_inv (self : Figure) : Prop :=
  NoDup (Dict.keys (_artists self)) /\
  Dict.keys (_mpl_artists self) = Dict.keys (_artists self).

(** The invariant the specification asks of the legend. *)
Definition legend_subset (self : Figure) : Prop :=
  forall name,
    Dict.mem name (LegendState._artists (legend self)) = true ->
    Dict.mem name (_artists self) = true.

(** The coordinates the specification says the scale pass works on: those
    of the artists in registry order, then those of the mesh if there is
    one. *)
Definition mesh_x (self : Figure) : list pyfloat :=
  match _color_mesh self with
  | Some mesh => flatten (_X mesh)
  | None => []
  end.

Definition mesh_y (self : Figure) : list pyfloat :=
  match _color_mesh self with
  | Some mesh => flatten (_Y mesh)
  | None => []
  end.

Definition gathered_x (self : Figure) : list pyfloat :=
  concat (map get_xdata (Dict.values (_artists self))) ++ mesh_x self.

Definition gathered_y (self : Figure) : list pyfloat :=
  concat (map get_ydata (Dict.values (_artists self))) ++ mesh_y self.

(** The figure with the two pairs of limits of its axes set. *)
Definition with_limits (x_limits y_limits : Q * Q) (self : Figure)
  : Figure :=
  with_mpl_ax
    (mk_axes (next_id (_mpl_ax self)) (children (_mpl_ax self))
             x_limits y_limits (colorbars (_mpl_ax self))
             (mpl_refuses (_mpl_ax self)))
    self.




(** *** Objects used in the examples *)

(** The keys of matplotlib's [BASE_COLORS], which are among
    [COLOR_OPTIONS]. *)
Definition BASE_COLORS : list string :=
  ["b"; "g"; "r"; "c"; "m"; "y"; "k"; "w"].

Definition default_line : LineAttrs :=
  {| _c := "k"; _lw := 1%Q; _ls := "solid" |}.

(** [Line(x, y, name)] with the default style. *)
Definition line (x y : list pyfloat) (name : string) : Artist :=
  Line {| _xdata := x; _ydata := y; _name := name |} default_line.

(** [Text(0, 0, 'note', name)] with the default style. *)
Definition text (name : string) : Artist :=
  Text {| _xdata := [0%Q]; _ydata := [0%Q]; _name := name |}
       {| _text := "note"; txt_c := "k"; txt_s := 10%Q;
          _coord_type := "data"; _offset := (0%Q, 0%Q) |}.

(** The linestyles matplotlib knows. *)
Definition MPL_LINESTYLES : list string :=
  ["-"; "--"; "-."; ":"; "None"; " "; EmptyString;
   "solid"; "dashed"; "dashdot"; "dotted"].

(** What [Line2D.set_linestyle] raises on a linestyle outside that table. *)
Definition invalid_linestyle (ls : string) : exn :=
  ValueError
    ("'" ^^ ls ^^ "' is not a valid value for ls; supported values are "
         ^^ "'-', '--', '-.', ':', 'None', ' ', '', "
         ^^ "'solid', 'dashed', 'dashdot', 'dotted'").

(** Axes that, as matplotlib's do, refuse a line whose linestyle is not in
    that table, and accept every other call. *)
Definition refuse_linestyle (r : mpl_request) : option exn :=
  match r with
  | Draw _ (Line _ a) _ | Draw _ (Straight _ a _ _) _ =>
      if str_in (_ls a) MPL_LINESTYLES then None
      else Some (invalid_linestyle (_ls a))
  | _ => None
  end.

(** [Figure(mpl_fig, mpl_ax, autoscale=autoscale)] on such axes, new. *)
Definition new_figure (autoscale : string) : Figure :=
  state_of (Figure_init (new_axes refuse_linestyle) autoscale).


(** The object matplotlib draws for an artist, and the label it gets. *)
Definition mpl_kind_for (artist : Artist) : mpl_kind :=
  match artist with
  | Line _ _ => Line2D
  | Straight _ _ _ _ => AxLine
  | Points _ _ => PathCollection
  | Arrows _ _ => Quiver
  | Text _ _ => Annotation
  end.

Definition mpl_label_for (artist : Artist) (label : string) : string :=
  match artist with
  | Text _ _ => EmptyString
  | _ => label
  end.

(** The drawing call [add_artist artist label] makes once the name is
    free: an empty label stands for the artist's name. *)
Definition draw_request (artist : Artist) (label : string) : mpl_request :=
  let label := if String.eqb label EmptyString then get_name artist
               else label in
  Draw (mpl_kind_for artist) artist (mpl_label_for artist label).

(** The scenario of the specification: a figure that holds the line [f],
    and a second line of the same name. *)
Definition line_f : Artist := line [0; 1; 2]%Q [0; 1; 4]%Q "f".
Definition second_f : Artist := line [0; 1; 2]%Q [0; 2; 8]%Q "f".

Definition figure_f : Figure :=
  state_of (add_artist line_f EmptyString false (new_figure "none")).

(** The figure that holds the line [f], with [f] in its legend. *)
Definition figure_f_legend : Figure :=
  state_of (Legend_add (NamesSeq ["f"]) figure_f).


(** One line without points, [Line([], [], 'a')]. *)
Definition figure_empty_line (autoscale : string) : Figure :=
  state_of (add_artist (line [] [] "a") EmptyString false
                       (new_figure autoscale)).

(** One line with a nan among its y-coordinates,
    [Line([2, 3], [nan, 1], 'a')]. *)
Definition figure_nan_line (autoscale : string) : Figure :=
  state_of (add_artist (line [2; 3]%Q [NaN; Finite 1] "a") EmptyString false
                       (new_figure autoscale)).

(** Style arguments a constructor accepts for an artist of [n] points. *)
Definition Line_style_ok (COLOR_OPTIONS : list string) (c ls : string)
  : Prop :=
  str_in c COLOR_OPTIONS = true /\ str_in ls LS_OPTIONS = true.

Definition Points_color_ok (COLOR_OPTIONS : list string) (c : color_arg)
    (n : nat) : Prop :=
  match c with
  | CStr c => str_in c COLOR_OPTIONS = true
  | CArr a => size (flatten a) = n
  end.

Definition per_point_ok (s : num_arg) (n : nat) : Prop :=
  match s with
  | Num _ => True
  | Arr a => size (flatten a) = n
  end.

(** The tokens the claim lists. *)
Definition accepted_linestyles : list string :=
  ["solid"; "dashed"; "dotted"; "dashdot"; "-"; "--:"; "-."].

(** A figure that holds three points colored by number. *)
Definition points_p : Artist :=
  Points (mk_base [0; 1; 2]%Q [0; 1; 4]%Q "p")
         (mk_points (ColorArray [1; 2; 3]%Q) (NumScalar 1%Q) ".").

Definition figure_p : Figure :=
  state_of (add_artist points_p EmptyString false (new_figure "none")).

(** A mesh on a 1 x 2 grid. *)
Definition mesh_12 : ColorMesh :=
  {| _X := mk_ndarray [1; 2]%nat [0; 1]%Q;
     _Y := mk_ndarray [1; 2]%nat [0; 0]%Q;
     _C := mk_ndarray [1; 2]%nat [3; 5]%Q;
     _cmap := "plasma" |}.

(** The public methods of a figure and of its legend. *)
Inductive call : Type :=
| Call_add_artist (artist : Artist) (label : string) (overwrite : bool)
| Call_remove_artist (name : string)
| Call_set_visible (name : string) (visibility : bool)
| Call_add_colorbar (name : option string)
| Call_update_scale
| Call_set_autoscale (autoscale : string)
| Call_add_color_mesh (color_mesh : ColorMesh) (overwrite : bool)
| Call_remove_color_mesh
| Call_Legend_add (names : names_arg)
| Call_Legend_remove (names : names_arg).

Definition exec (c : call) (self : Figure) : outcome :=
  match c with
  | Call_add_artist artist label overwrite =>
      add_artist artist label overwrite self
  | Call_remove_artist name => remove_artist name self
  | Call_set_visible name visibility => set_visible name visibility self
  | Call_add_colorbar name => add_colorbar name self
  | Call_update_scale => update_scale self
  | Call_set_autoscale autoscale => set_autoscale autoscale self
  | Call_add_color_mesh color_mesh overwrite =>
      add_color_mesh color_mesh overwrite self
  | Call_remove_color_mesh => remove_color_mesh self
  | Call_Legend_add names => Legend_add names self
  | Call_Legend_remove names => Legend_remove names self
  end.

(** The artists passed to a figure are built by the constructors. *)
Definition well_formed_call (c : call) : Prop :=
  match c with
  | Call_add_artist artist _ _ => drawable artist
  | _ => True
  end.

(** The states a figure goes through, whether its calls return or raise. *)
Inductive reachable : Figure -> Prop :=
| reachable_init refuses autoscale self :
    Figure_init (new_axes refuses) autoscale = Return self -> reachable self
| reachable_call c self :
    reachable self -> well_formed_call c ->
    reachable (state_of (exec c self)).

(** Two states with the same name-keyed mappings. *)
Definition same_registry (self self' : Figure) : Prop :=
  _artists self' = _artists self /\ _mpl_artists self' = _mpl_artists self.

(** The identities of the objects on the axes, in drawing order. *)
Definition child_ids (self : Figure) : list nat :=
  map mpl_id (children (_mpl_ax self)).

(** The handles the figure holds: those of the artists, then the one of the
    mesh. *)
Definition owned_ids (self : Figure) : list nat :=
  Dict.values (_mpl_artists self) ++
  match _mpl_quad_mesh self with
  | Some h => [h]
  | None => []
  end.

(** The mesh and its handle are both there or both absent. *)
Definition mesh_inv (self : Figure) : Prop :=
  _color_mesh self = None <-> _mpl_quad_mesh self = None.

(** The objects on the axes are exactly the ones the figure holds a handle
    of, each once, and their identities are below the next fresh one. *)
Definition handles_inv (self : Figure) : Prop :=
  NoDup (child_ids self) /\
  (forall h, In h (child_ids self) -> (h < next_id (_mpl_ax self))%nat) /\
  NoDup (owned_ids self) /\
  (forall h, In h (owned_ids self) <-> In h (child_ids self)).

Definition figure_inv (self : Figure) : Prop :=
  registry_inv self /\ mesh_inv self /\ handles_inv self.

(** The error of [add_color_mesh] on an occupied slot and the one of
    [remove_color_mesh] on an empty slot. *)
Definition SlotOccupiedError : exn :=
  AssertionError
    (IndexError "Figure" "color_mesh" "color_mesh" None true EmptyString).

Definition NoMeshError : exn :=
  AssertionError
    (IndexError "Figure" "color_mesh" "color_mesh"
                (Some "remove ColorMesh from Figure") false EmptyString).

(** The parts of a figure the invariants read. *)
Definition same_frame (self self' : Figure) : Prop :=
  _artists self' = _artists self /\
  _mpl_artists self' = _mpl_artists self /\
  _color_mesh self' = _color_mesh self /\
  _mpl_quad_mesh self' = _mpl_quad_mesh self /\
  child_ids self' = child_ids self /\
  next_id (_mpl_ax self') = next_id (_mpl_ax self).

(** [Arrows.set_color] *)
Definition Arrows_set_color (c : num_arg) (b : ArtistBase)
    (self : ArrowsAttrs) : setter ArrowsAttrs :=
  assign self (Arrows_check_color c (_xdata b))
         (fun c => {| _uv := _uv self; arr_c := c; _pivot := _pivot self |}).

(** [Text.set_color] and [Text.set_coord_type] *)
Definition Text_set_color (COLOR_OPTIONS : list string) (c : string)
    (self : TextAttrs) : setter TextAttrs :=
  assign self (check_color COLOR_OPTIONS "Text" c)
         (fun c => {| _text := _text self; txt_c := c; txt_s := txt_s self;
                      _coord_type := _coord_type self;
                      _offset := _offset self |}).

Definition Text_set_coord_type (coord_type : string) (self : TextAttrs)
  : setter TextAttrs :=
  assign self (check_coord_type coord_type)
         (fun t => {| _text := _text self; txt_c := txt_c self;
                      txt_s := txt_s self; _coord_type := t;
                      _offset := _offset self |}).

(** An artist one of the five constructors of [artists.py] returned. *)
Definition constructed (COLOR_OPTIONS : list string) (artist : Artist)
  : Prop :=
  (exists x y name c lw ls,
      Line_init COLOR_OPTIONS x y name c lw ls = Ok artist) \/
  (exists xy dir name c lw ls,
      Straight_init COLOR_OPTIONS xy dir name c lw ls = Ok artist) \/
  (exists x y name c s t,
      Points_init COLOR_OPTIONS x y name c s t = Ok artist) \/
  (exists x y u v name c pivot,
      Arrows_init x y u v name c pivot = Ok artist) \/
  (exists x y txt name c s coord_type offset,
      Text_init COLOR_OPTIONS x y txt name c s coord_type offset
      = Ok artist).

Definition attr_size_ok (a : num_attr) (n : nat) : Prop :=
  match a with
  | NumScalar _ => True
  | NumArray l => size l = n
  end.

Definition color_size_ok (c : color_attr) (n : nat) : Prop :=
  match c with
  | ColorName _ => True
  | ColorArray l => size l = n
  end.

(** The sizes agree: [y] with [x], the per-point attributes of [Points]
    and [Arrows] with the number of points; [Straight] and [Text] hold one
    point. *)
Definition shape_ok (artist : Artist) : Prop :=
  size (get_ydata artist) = size (get_xdata artist) /\
  match artist with
  | Line _ _ => True
  | Straight b _ _ _ | Text b _ => size (_xdata b) = 1%nat
  | Points b a =>
      color_size_ok (pts_c a) (size (_xdata b)) /\
      attr_size_ok (pts_s a) (size (_xdata b))
  | Arrows b a =>
      size (fst (_uv a)) = size (_xdata b) /\
      size (snd (_uv a)) = size (_xdata b) /\
      attr_size_ok (arr_c a) (size (_xdata b))
  end.

(** The checked style attributes hold checked values. *)
Definition style_ok (COLOR_OPTIONS : list string) (artist : Artist) : Prop :=
  match artist with
  | Line _ a | Straight _ a _ _ =>
      In (_c a) COLOR_OPTIONS /\ In (_ls a) LS_OPTIONS
  | Points _ a =>
      match pts_c a with
      | ColorName c => In c COLOR_OPTIONS
      | ColorArray _ => True
      end
  | Arrows _ _ => True
  | Text _ a =>
      In (txt_c a) COLOR_OPTIONS /\
      In (_coord_type a) (Dict.keys COORD_OPTIONS)
  end.

(** The shape the six methods share: build the object, pass it on, return
    it.  An exception of the constructor leaves before the figure is
    touched. *)
Definition build_and_add {A : Type} (built : result A)
    (add : A -> Figure -> outcome) (self : Figure) : outcome * option A :=
  match built with
  | Err e => (Raise e self, None)
  | Ok a =>
      match add a self with
      | Return self' => (Return self', Some a)
      | Raise e self' => (Raise e self', None)
      end
  end.

(** [Figure.straight] *)
Definition Figure_straight (COLOR_OPTIONS : list string) (xy dir : pyfloat * pyfloat)
    (name c : string) (lw : pyfloat) (ls label : string) (overwrite : bool)
    (self : Figure) : outcome * option Artist :=
  build_and_add (Straight_init COLOR_OPTIONS xy dir name c lw ls)
                (fun straight => add_artist straight label overwrite) self.

(** [Figure.plot] *)
Definition Figure_plot (COLOR_OPTIONS : list string) (x y : ndarray)
    (name c : string) (lw : pyfloat) (ls label : string) (overwrite : bool)
    (self : Figure) : outcome * option Artist :=
  build_and_add (Line_init COLOR_OPTIONS x y name c lw ls)
                (fun line => add_artist line label overwrite) self.

(** [Figure.scatter]: the marker type is left to its default. *)
Definition Figure_scatter (COLOR_OPTIONS : list string) (x y : ndarray)
    (name : string) (c : color_arg) (s : num_arg) (label : string)
    (overwrite : bool) (self : Figure) : outcome * option Artist :=
  build_and_add (Points_init COLOR_OPTIONS x y name c s ".")
                (fun points => add_artist points label overwrite) self.

(** [Figure.arrows] *)
Definition Figure_arrows (x y u v : ndarray) (name : string) (c : num_arg)
    (pivot label : string) (overwrite : bool) (self : Figure)
  : outcome * option Artist :=
  build_and_add (Arrows_init x y u v name c pivot)
                (fun arrows => add_artist arrows label overwrite) self.

(** [Figure.text]: no label is passed on. *)
Definition Figure_text (COLOR_OPTIONS : list string) (x y : pyfloat)
    (text name c : string) (s : pyfloat) (coord_type : string) (offset : pyfloat * pyfloat)
    (overwrite : bool) (self : Figure) : outcome * option Artist :=
  build_and_add
    (Text_init COLOR_OPTIONS x y text name c s coord_type offset)
    (fun text_obj => add_artist text_obj EmptyString overwrite) self.

(** [Figure.color_mesh] *)
Definition Figure_color_mesh (X Y C : ndarray) (cmap : string)
    (overwrite : bool) (self : Figure) : outcome * option ColorMesh :=
  build_and_add (ColorMesh_init X Y C cmap)
                (fun color_mesh => add_color_mesh color_mesh overwrite) self.

(** What a convenience method leaves.  It returns the object it built, and
    [post] holds of it in the new state; or it raises, and the figure is as
    it was, unless [lost] holds of the exception and of the state left. *)
Definition built_or_raised {A : Type} (self : Figure)
    (r : outcome * option A) (post : A -> Figure -> Prop)
    (lost : exn -> Figure -> Prop) : Prop :=
  match r with
  | (Return self', Some a) => post a self'
  | (Raise e self', None) => self' = self \/ lost e self'
  | _ => False
  end.

(** The one way a convenience method changes the figure and raises: it was
    overwriting, [remove_artist] took the entry of [name] away, and the
    axes then refused, with [e], to draw the new artist. *)
Definition overwrite_lost (self : Figure) (name : string) (overwrite : bool)
    (e : exn) (self' : Figure) : Prop :=
  overwrite = true /\
  Dict.mem name (_artists self) = true /\
  remove_artist name self = Return self' /\
  Dict.mem name (_artists self') = false /\
  exists r, mpl_refuses (_mpl_ax self) r = Some e.

(** The same for the mesh: [remove_color_mesh] emptied the slot, and the
    axes then refused the new mesh. *)
Definition mesh_overwrite_lost (self : Figure) (overwrite : bool) (e : exn)
    (self' : Figure) : Prop :=
  overwrite = true /\
  _color_mesh self <> None /\
  remove_color_mesh self = Return self' /\
  _color_mesh self' = None /\
  exists r, mpl_refuses (_mpl_ax self) r = Some e.

(** The artist [a] was built by a constructor under [name], is what [name]
    maps to, and the figure is one its methods can reach. *)
Definition registered_as (COLOR_OPTIONS : list string) (name : string)
    (a : Artist) (self' : Figure) : Prop :=
  constructed COLOR_OPTIONS a /\ get_name a = name /\
  Dict.get name (_artists self') = Some a /\ reachable self'.

(* ------------------------------------------------------------------ *)
(** ** [Figure3D]: [pygraph/pygraph.py]                                *)

Module Figure3D.

(** What the 3D axes draw: [plot] a line, [scatter] a path collection,
    [annotate3D] an annotation, [plot_surface] a surface. *)
Inductive kind3 : Type :=
| Line3DArt | Path3DCollection | Annotation3D | Poly3DCollection.

Record Drawn : Type := mk_drawn {
  drawn_id : nat;
  drawn_kind : kind3;
  drawn_label : string
}.

(** A drawing call of [Figure3D] on its axes: [plot], [scatter] or
    [annotate3D] with the object whose attributes are its arguments and the
    label, or [plot_surface] with a mesh. *)
Inductive request : Type :=
| Draw (kind : kind3) (artist : Artist3) (label : string)
| DrawSurf (color_mesh : ColorMesh).

(** The 3D axes.  [refuses ax r] is the exception the drawing call [r]
    raises on [ax], [None] when matplotlib accepts its arguments.  A call
    that raises has added nothing. *)
Record Axes3D : Type := mk_axes3d {
  next_id : nat;
  children : list Drawn;
  refuses : request -> option exn
}.

(** What an accepted drawing call does: the new object goes on top, its
    identity is fresh. *)
Definition draw (kind : kind3) (label : string) (ax : Axes3D)
  : nat * Axes3D :=
  let id := next_id ax in
  (id, {| next_id := S id;
          children := children ax ++ [mk_drawn id kind label];
          refuses := refuses ax |}).

(** [mpl_artist.remove()] *)
Definition undraw (id : nat) (ax : Axes3D) : Axes3D :=
  {| next_id := next_id ax;
     children := filter (fun c => negb (Nat.eqb (drawn_id c) id))
                        (children ax);
     refuses := refuses ax |}.

(** What [add_artist] can be passed: Python checks no type, and the
    classes of [artists.py] have [get_name] too. *)
Inductive obj : Type :=
| Of2D (artist : Artist)
| Of3D (artist : Artist3).

(** [artist.get_name()] *)
Definition get_name (artist : obj) : string :=
  match artist with
  | Of2D a => _name (base a)
  | Of3D (Line3D b _ _) | Of3D (Points3D b _ _ _)
  | Of3D (Text3D b _ _ _ _ _) => _name b
  end.

(** The fields the methods below read or write; the legend is none of
    them. *)
Record t : Type := mk {
  _mpl_ax : Axes3D;
  _mpl_artists : Dict.t nat;
  _artists : Dict.t obj;
  _color_mesh : option ColorMesh;
  _mpl_surf : option nat
}.

Inductive outcome : Type :=
| Return (self : t)
| Raise (e : exn) (self : t).

Definition state_of (o : outcome) : t :=
  match o with
  | Return self | Raise _ self => self
  end.

(** [Figure3D.__init__] *)
Definition init (mpl_ax : Axes3D) : t :=
  {| _mpl_ax := mpl_ax;
     _mpl_artists := Dict.empty nat;
     _artists := Dict.empty obj;
     _color_mesh := None;
     _mpl_surf := None |}.

(** One of [Figure3D._add_mpl_line], [_add_mpl_scatter] and
    [_add_mpl_annotation] once its arguments are evaluated: the drawing
    call, which may raise, then
    [self._mpl_artists[artist.get_name()] = handle]. *)
Definition draw_and_store (kind : kind3) (artist : Artist3)
    (label : string) (self : t) : outcome :=
  match refuses (_mpl_ax self) (Draw kind artist label) with
  | Some e => Raise e self
  | None =>
      let '(h, ax) := draw kind label (_mpl_ax self) in
      Return (mk ax (Dict.set (get_name (Of3D artist)) h (_mpl_artists self))
                 (_artists self) (_color_mesh self) (_mpl_surf self))
  end.

(** [Figure3D._add_mpl_artist]: the [isinstance] chain [Line3D], [Points],
    [Text3D].  A [Points] of [artists.py] passes the second test and has no
    [get_zdata]. *)
Definition _add_mpl_artist (artist : obj) (label : string) (self : t)
  : outcome :=
  match artist with
  | Of3D (Line3D _ _ _ as line_3d) =>
      draw_and_store Line3DArt line_3d label self
  | Of3D (Points3D _ _ _ _ as points_3d) =>
      draw_and_store Path3DCollection points_3d label self
  | Of2D (Points _ _) => Raise (AttributeError "Points" "get_zdata") self
  | Of3D (Text3D b zdata _ _ _ _ as text) =>
      match item0 (_xdata b), item0 (_ydata b), item0 zdata with
      | Ok _, Ok _, Ok _ =>
          draw_and_store Annotation3D text EmptyString self
      | Err e, _, _ | Ok _, Err e, _ | Ok _, Ok _, Err e => Raise e self
      end
  | Of2D _ => Raise NotImplementedError self
  end.

(** [_Figure.remove_artist], which [Figure3D] inherits *)
Definition remove_artist (name : string) (self : t) : outcome :=
  if Dict.mem name (_artists self)
  then
    let artists := Dict.remove name (_artists self) in
    match Dict.pop name (_mpl_artists self) with
    | None =>
        Raise (KeyError name)
              (mk (_mpl_ax self) (_mpl_artists self) artists
                  (_color_mesh self) (_mpl_surf self))
    | Some (mpl_artist, rest) =>
        Return (mk (undraw mpl_artist (_mpl_ax self)) rest artists
                   (_color_mesh self) (_mpl_surf self))
    end
  else Raise (AssertionError
                (IndexError "Figure" "artist" "name"
                            (Some "remove Artist from Figure") false
                            EmptyString)) self.

(** [_Figure.add_artist], which [Figure3D] inherits *)
Definition add_artist (artist : obj) (label : string) (overwrite : bool)
    (self : t) : outcome :=
  let name := get_name artist in
  match (if Dict.mem name (_artists self)
         then if overwrite
              then remove_artist name self
              else Raise (AssertionError
                            (IndexError "Figure" "artist" "name" None true
                                        EmptyString)) self
         else Return self) with
  | Raise e self => Raise e self
  | Return self =>
      let label := if String.eqb label EmptyString then name else label in
      match _add_mpl_artist artist label self with
      | Raise e self => Raise e self
      | Return self =>
          Return (mk (_mpl_ax self) (_mpl_artists self)
                     (Dict.set name artist (_artists self))
                     (_color_mesh self) (_mpl_surf self))
      end
  end.

(** [Figure3D.remove_color_mesh] *)
Definition remove_color_mesh (self : t) : outcome :=
  match _color_mesh self with
  | None =>
      Raise (AssertionError
               (IndexError "Figure3D" "color_mesh" "color_mesh"
                  (Some "remove ColorMesh from Figure3D") false EmptyString))
            self
  | Some _ =>
      match _mpl_surf self with
      | None =>
          Raise (AttributeError "NoneType" "remove")
                (mk (_mpl_ax self) (_mpl_artists self) (_artists self) None
                    None)
      | Some h =>
          Return (mk (undraw h (_mpl_ax self)) (_mpl_artists self)
                     (_artists self) None None)
      end
  end.

(** [Figure3D.add_color_mesh], with [_add_mpl_surf] *)
Definition add_color_mesh (color_mesh : ColorMesh) (overwrite : bool)
    (self : t) : outcome :=
  match (match _color_mesh self with
         | Some _ =>
             if overwrite
             then remove_color_mesh self
             else Raise (AssertionError
                           (IndexError "Figure3D" "color_mesh" "color_mesh"
                                       None true EmptyString)) self
         | None => Return self
         end) with
  | Raise e self => Raise e self
  | Return self =>
      match refuses (_mpl_ax self) (DrawSurf color_mesh) with
      | Some e => Raise e self
      | None =>
          let '(h, ax) := draw Poly3DCollection EmptyString (_mpl_ax self) in
          Return (mk ax (_mpl_artists self) (_artists self)
                     (Some color_mesh) (Some h))
      end
  end.

(** The shape [plot3D], [scatter3D], [text3D] and [color_mesh] share:
    build the object, pass it on, return it. *)
Definition build_and_add {A : Type} (built : result A)
    (add : A -> t -> outcome) (self : t) : outcome * option A :=
  match built with
  | Err e => (Raise e self, None)
  | Ok a =>
      match add a self with
      | Return self' => (Return self', Some a)
      | Raise e self' => (Raise e self', None)
      end
  end.

(** [Figure3D.plot3D] *)
Definition plot3D (COLOR_OPTIONS : list string) (x y z : ndarray)
    (name c : string) (lw : pyfloat) (ls label : string) (overwrite : bool)
    (self : t) : outcome * option Artist3 :=
  build_and_add (Line3D_init COLOR_OPTIONS x y z name c lw ls)
                (fun line_3d => add_artist (Of3D line_3d) label overwrite)
                self.

(** [Figure3D.scatter3D] *)
Definition scatter3D (COLOR_OPTIONS : list string) (x y z : ndarray)
    (name : string) (c : color_arg) (s : num_arg) (label : string)
    (overwrite : bool) (self : t) : outcome * option Artist3 :=
  build_and_add (Points3D_init COLOR_OPTIONS x y z name c s)
                (fun points_3d => add_artist (Of3D points_3d) label overwrite)
                self.

(** [Figure3D.text3D]: [Text3D.__init__] does not look at the
    [coord_type] it is passed, and no label is passed on. *)
Definition text3D (COLOR_OPTIONS : list string) (x y z : pyfloat)
    (text name c : string) (s : pyfloat) (coord_type : string) (offset : pyfloat * pyfloat)
    (overwrite : bool) (self : t) : outcome * option Artist3 :=
  build_and_add (Text3D_init COLOR_OPTIONS x y z text name c s offset)
                (fun text_3d_obj =>
                   add_artist (Of3D text_3d_obj) EmptyString overwrite)
                self.

(** [Figure3D.color_mesh] *)
Definition color_mesh (X Y Z : ndarray) (cmap : string) (overwrite : bool)
    (self : t) : outcome * option ColorMesh :=
  build_and_add (ColorMesh_init X Y Z cmap)
                (fun color_mesh => add_color_mesh color_mesh overwrite) self.

(** The calls of a [Figure3D], with any arguments. *)
Inductive call : Type :=
| Call_add_artist (artist : obj) (label : string) (overwrite : bool)
| Call_remove_artist (name : string)
| Call_add_color_mesh (color_mesh : ColorMesh) (overwrite : bool)
| Call_remove_color_mesh.

Definition exec (c : call) (self : t) : outcome :=
  match c with
  | Call_add_artist artist label overwrite =>
      add_artist artist label overwrite self
  | Call_remove_artist name => remove_artist name self
  | Call_add_color_mesh color_mesh overwrite =>
      add_color_mesh color_mesh overwrite self
  | Call_remove_color_mesh => remove_color_mesh self
  end.

(** The states a [Figure3D] goes through, whether its calls return or
    raise. *)
Inductive reachable : t -> Prop :=
| reachable_init mpl_ax : reachable (init mpl_ax)
| reachable_call c self :
    reachable self -> reachable (state_of (exec c self)).

(** The two mappings have the same distinct keys, and the mesh and the
    surface drawn for it are set together. *)
Definition consistent (self : t) : Prop :=
  NoDup (Dict.keys (_artists self)) /\
  Dict.keys (_mpl_artists self) = Dict.keys (_artists self) /\
  (_color_mesh self = None <-> _mpl_surf self = None).

(** An object a constructor of [artists_3d.py] returned. *)
Definition constructed (COLOR_OPTIONS : list string) (artist : Artist3)
  : Prop :=
  (exists x y z name c lw ls,
      Line3D_init COLOR_OPTIONS x y z name c lw ls = Ok artist) \/
  (exists x y z name c s,
      Points3D_init COLOR_OPTIONS x y z name c s = Ok artist) \/
  (exists x y z text name c s offset,
      Text3D_init COLOR_OPTIONS x y z text name c s offset = Ok artist).

(** What [Figure3D._add_mpl_artist] raises on an object of [artists.py]. *)
Definition undrawable_error (artist : Artist) : exn :=
  match artist with
  | Points _ _ => AttributeError "Points" "get_zdata"
  | _ => NotImplementedError
  end.

(** The drawing call [_add_mpl_artist] makes for an object of
    [artists_3d.py], and the one [add_artist] makes once the name is free:
    an empty label stands for the object's name. *)
Definition request_for (artist : Artist3) (label : string) : request :=
  match artist with
  | Line3D _ _ _ => Draw Line3DArt artist label
  | Points3D _ _ _ _ => Draw Path3DCollection artist label
  | Text3D _ _ _ _ _ _ => Draw Annotation3D artist EmptyString
  end.

Definition draw_request (artist : Artist3) (label : string) : request :=
  request_for artist (if String.eqb label EmptyString
                      then get_name (Of3D artist) else label).

(** What a convenience method leaves.  It returns the object it built, and
    [post] holds of it in the new state; or it raises, and the figure is as
    it was, unless [lost] holds of the exception and of the state left. *)
Definition built_or_raised {A : Type} (self : t) (r : outcome * option A)
    (post : A -> t -> Prop) (lost : exn -> t -> Prop) : Prop :=
  match r with
  | (Return self', Some a) => post a self'
  | (Raise e self', None) => self' = self \/ lost e self'
  | _ => False
  end.

(** The one way a convenience method changes the figure and raises: it was
    overwriting, [remove_artist] took the entry of [name] away, and the
    axes then refused, with [e], to draw the new object. *)
Definition overwrite_lost (self : t) (name : string) (overwrite : bool)
    (e : exn) (self' : t) : Prop :=
  overwrite = true /\
  Dict.mem name (_artists self) = true /\
  remove_artist name self = Return self' /\
  Dict.mem name (_artists self') = false /\
  exists r, refuses (_mpl_ax self) r = Some e.

(** The same for the mesh: [remove_color_mesh] emptied the slot, and the
    axes then refused the new surface. *)
Definition mesh_overwrite_lost (self : t) (overwrite : bool) (e : exn)
    (self' : t) : Prop :=
  overwrite = true /\
  _color_mesh self <> None /\
  remove_color_mesh self = Return self' /\
  _color_mesh self' = None /\
  exists r, refuses (_mpl_ax self) r = Some e.

(** The object [a] was built by a constructor under [name], is what [name]
    maps to, and the figure is one its methods can reach. *)
Definition registered_as (COLOR_OPTIONS : list string) (name : string)
    (a : Artist3) (self' : t) : Prop :=
  constructed COLOR_OPTIONS a /\ get_name (Of3D a) = name /\
  Dict.get name (_artists self') = Some (Of3D a) /\ reachable self'.

(** A [Figure3D] holding one line, under the name [f]. *)
Definition line_3d_f : Artist3 :=
  Line3D (mk_base [0; 1]%Q [0; 1]%Q "f") [0; 1]%Q (mk_line "k" 1%Q "solid").

(** 3D axes that refuse a line whose linestyle matplotlib does not know. *)
Definition refuse_linestyle3 (r : request) : option exn :=
  match r with
  | Draw _ (Line3D _ _ a) _ =>
      if str_in (_ls a) MPL_LINESTYLES then None
      else Some (invalid_linestyle (_ls a))
  | _ => None
  end.

Definition figure_3d_f : t :=
  state_of (add_artist (Of3D line_3d_f) EmptyString false
                       (init (mk_axes3d 0 [] refuse_linestyle3))).

End Figure3D.

(* ------------------------------------------------------------------ *)
(** ** Dictionaries                                                    *)

Unset Implicit Arguments.

Section DictFacts.
Variable V : Type.
Implicit Types (d : Dict.t V) (k : string) (v : V).

Lemma mem_In k d : Dict.mem k d = true <-> In k (Dict.keys d).
Proof.
  induction d as [|[k' v'] r IH]; simpl.
  - split; [discriminate | tauto].
  - destruct (String.eqb_spec k k') as [->|Hne].
    + split; auto.
    + rewrite IH. split; [auto | intros [E|H]; congruence].
Qed.

Lemma mem_false_not_In k d : Dict.mem k d = false <-> ~ In k (Dict.keys d).
Proof.
  rewrite <- mem_In. destruct (Dict.mem k d); split; congruence.
Qed.

Lemma mem_get k d : Dict.mem k d = true <-> exists v, Dict.get k d = Some v.
Proof.
  induction d as [|[k' v'] r IH]; simpl.
  - split; [discriminate | intros [v H]; discriminate].
  - destruct (String.eqb k k'); [split; eauto | exact IH].
Qed.

Lemma mem_same_keys {W : Type} k d (d' : Dict.t W) :
  Dict.keys d = Dict.keys d' -> Dict.mem k d = Dict.mem k d'.
Proof.
  revert d'. induction d as [|[k1 v1] r IH]; intros [|[k2 v2] r'] E;
    simpl in *; try discriminate; auto.
  injection E as -> E. rewrite (IH _ E). reflexivity.
Qed.

Lemma get_set_same k v d : Dict.get k (Dict.set k v d) = Some v.
Proof.
  induction d as [|[k' v'] r IH]; simpl.
  - rewrite String.eqb_refl. reflexivity.
  - destruct (String.eqb k k') eqn:E; simpl; rewrite ?String.eqb_refl, ?E;
      auto.
Qed.

Lemma set_fresh k v d :
  Dict.mem k d = false -> Dict.set k v d = d ++ [(k, v)].
Proof.
  induction d as [|[k' v'] r IH]; simpl; auto.
  destruct (String.eqb k k'); [discriminate|].
  intros H. rewrite (IH H). reflexivity.
Qed.

Lemma keys_set_fresh k v d :
  Dict.mem k d = false -> Dict.keys (Dict.set k v d) = Dict.keys d ++ [k].
Proof.
  intros H. rewrite (set_fresh _ _ _ H). unfold Dict.keys.
  rewrite map_app. reflexivity.
Qed.

Lemma keys_set_present k v d :
  Dict.mem k d = true -> Dict.keys (Dict.set k v d) = Dict.keys d.
Proof.
  induction d as [|[k' v'] r IH]; simpl; [discriminate|].
  destruct (String.eqb_spec k k') as [->|Hne]; simpl; auto.
  intros H. rewrite (IH H). reflexivity.
Qed.

Lemma mem_set k k' v d :
  Dict.mem k (Dict.set k' v d) = (String.eqb k k' || Dict.mem k d)%bool.
Proof.
  induction d as [|[k1 v1] r IH]; simpl.
  - destruct (String.eqb k k'); reflexivity.
  - destruct (String.eqb_spec k' k1) as [->|Hne]; simpl.
    + destruct (String.eqb k k1); reflexivity.
    + rewrite IH. destruct (String.eqb k k1), (String.eqb k k'); reflexivity.
Qed.

Lemma remove_set_fresh k v d :
  Dict.mem k d = false -> Dict.remove k (Dict.set k v d) = d.
Proof.
  induction d as [|[k' v'] r IH]; simpl.
  - rewrite String.eqb_refl. reflexivity.
  - destruct (String.eqb k k') eqn:E; [discriminate|].
    intros H. simpl. rewrite E, (IH H). reflexivity.
Qed.

Lemma In_keys_remove k k' d :
  In k' (Dict.keys (Dict.remove k d)) -> In k' (Dict.keys d).
Proof.
  induction d as [|[k1 v1] r IH]; simpl; auto.
  destruct (String.eqb k k1); simpl; intuition.
Qed.

Lemma NoDup_keys_remove k d :
  NoDup (Dict.keys d) -> NoDup (Dict.keys (Dict.remove k d)).
Proof.
  induction d as [|[k1 v1] r IH]; simpl; auto.
  intros H. inversion H as [|? ? Hn Hr]; subst.
  destruct (String.eqb k k1); simpl; auto.
  constructor; auto. intros Hin. apply Hn. eapply In_keys_remove; eauto.
Qed.

Lemma mem_remove_same k d :
  NoDup (Dict.keys d) -> Dict.mem k (Dict.remove k d) = false.
Proof.
  induction d as [|[k1 v1] r IH]; simpl; auto.
  intros H. inversion H as [|? ? Hn Hr]; subst.
  destruct (String.eqb_spec k k1) as [->|Hne]; simpl.
  - apply mem_false_not_In. exact Hn.
  - destruct (String.eqb_spec k k1); [congruence | auto].
Qed.

Lemma mem_remove_other k k' d :
  k <> k' -> Dict.mem k (Dict.remove k' d) = Dict.mem k d.
Proof.
  intros Hne. induction d as [|[k1 v1] r IH]; simpl; auto.
  destruct (String.eqb_spec k' k1) as [->|Hne1]; simpl.
  - destruct (String.eqb_spec k k1); congruence.
  - rewrite IH. reflexivity.
Qed.

Lemma mem_remove_true k k' d :
  Dict.mem k (Dict.remove k' d) = true -> Dict.mem k d = true.
Proof.
  rewrite !mem_In. apply In_keys_remove.
Qed.

Lemma keys_remove_same_keys {W : Type} k d (d' : Dict.t W) :
  Dict.keys d = Dict.keys d' ->
  Dict.keys (Dict.remove k d) = Dict.keys (Dict.remove k d').
Proof.
  revert d'. induction d as [|[k1 v1] r IH]; intros [|[k2 v2] r'] E;
    simpl in *; try discriminate; auto.
  injection E as -> E. destruct (String.eqb k k2); simpl; auto.
  rewrite (IH _ E). reflexivity.
Qed.

Lemma NoDup_keys_set k v d :
  NoDup (Dict.keys d) -> NoDup (Dict.keys (Dict.set k v d)).
Proof.
  intros H. destruct (Dict.mem k d) eqn:E.
  - rewrite keys_set_present; auto.
  - rewrite keys_set_fresh; auto.
    apply NoDup_app; auto.
    + constructor; [intros []|constructor].
    + intros x Hx [<-|[]]. apply mem_false_not_In in E. auto.
Qed.

Lemma count_occ_NoDup_mem k d :
  NoDup (Dict.keys d) -> Dict.mem k d = true ->
  count_occ string_dec (Dict.keys d) k = 1%nat.
Proof.
  intros Hnd Hm. apply mem_In in Hm.
  pose proof (proj1 (NoDup_count_occ string_dec _) Hnd k) as Hle.
  pose proof (proj1 (count_occ_In string_dec _ k) Hm). lia.
Qed.
End DictFacts.

(* ------------------------------------------------------------------ *)
(** ** Messages                                                        *)

(** The two texts [errors.IndexError] renders: the one of the duplicate-name
    error and the one of the not-found errors. *)
Example IndexError_msg_taken :
  IndexError_msg "Figure" "artist" "name" None true EmptyString
  = "Tried to add `artist` to Figure, but `name` is already displayed or taken. If you wish to overwrite the current `artist`, set `overwrite` to True. ".
Proof. reflexivity. Qed.

Example IndexError_msg_not_found :
  IndexError_msg "Figure" "artist" "name" (Some "remove Artist from Figure")
                 false EmptyString
  = "Tried to remove Artist from Figure, but `name` wasn't found. ".
Proof. reflexivity. Qed.

(* ------------------------------------------------------------------ *)
(** ** The registry: [add_artist] and [remove_artist]                  *)

Lemma add_mpl_artist_drawable artist label self :
  drawable artist ->
  _add_mpl_artist artist label self
  = draw_and_store (mpl_kind_for artist) artist (mpl_label_for artist label)
                   self.
Proof.
  destruct artist as [b a|b a dx dy|b a|b a|b a]; try reflexivity;
    unfold drawable, _add_mpl_artist, mpl_kind_for, mpl_label_for, get_name,
      base, lift, item0.
  - intros [Hx Hy]. destruct (_xdata b); [congruence|].
    destruct (_ydata b); [congruence|]. reflexivity.
  - intros (Hx & Hy & Hc). destruct (_xdata b); [congruence|].
    destruct (_ydata b); [congruence|].
    apply mem_get in Hc. destruct Hc as [v Hv]. rewrite Hv. reflexivity.
Qed.

(** An accepted drawing call stores the new handle under the artist's name
    and touches nothing else of the figure but the axes; a refused one
    raises and touches nothing. *)
Lemma draw_and_store_returns kind artist label self :
  mpl_refuses (_mpl_ax self) (Draw kind artist label) = None ->
  draw_and_store kind artist label self
  = Return (with_mpl_artists
              (Dict.set (get_name artist) (next_id (_mpl_ax self))
                        (_mpl_artists self))
              (with_mpl_ax (snd (mpl_draw kind label (_mpl_ax self))) self)).
Proof. intros H. unfold draw_and_store. rewrite H. reflexivity. Qed.

Lemma draw_and_store_refused kind artist label self e :
  mpl_refuses (_mpl_ax self) (Draw kind artist label) = Some e ->
  draw_and_store kind artist label self = Raise e self.
Proof. intros H. unfold draw_and_store. rewrite H. reflexivity. Qed.

(** Whatever the artist: [_add_mpl_artist] returns only when the axes
    accepted the call, with the handle stored, and a raise leaves the
    figure as it was. *)
Lemma add_mpl_artist_inv artist label self :
  match _add_mpl_artist artist label self with
  | Return self' =>
      mpl_refuses (_mpl_ax self)
                  (Draw (mpl_kind_for artist) artist
                        (mpl_label_for artist label)) = None /\
      self' = with_mpl_artists
                (Dict.set (get_name artist) (next_id (_mpl_ax self))
                          (_mpl_artists self))
                (with_mpl_ax
                   (snd (mpl_draw (mpl_kind_for artist)
                                  (mpl_label_for artist label)
                                  (_mpl_ax self))) self)
  | Raise _ self' => self' = self
  end.
Proof.
  assert (Hd : forall kind lbl,
             match draw_and_store kind artist lbl self with
             | Return self' =>
                 mpl_refuses (_mpl_ax self) (Draw kind artist lbl) = None /\
                 self' = with_mpl_artists
                           (Dict.set (get_name artist) (next_id (_mpl_ax self))
                                     (_mpl_artists self))
                           (with_mpl_ax
                              (snd (mpl_draw kind lbl (_mpl_ax self))) self)
             | Raise _ self' => self' = self
             end).
  { intros kind lbl. unfold draw_and_store.
    destruct (mpl_refuses (_mpl_ax self) (Draw kind artist lbl));
      [reflexivity | split; reflexivity]. }
  destruct artist as [b a|b a dx dy|b a|b a|b a];
    cbn [_add_mpl_artist mpl_kind_for mpl_label_for]; try apply Hd.
  - unfold lift. destruct (item0 (_xdata b)); [|reflexivity].
    destruct (item0 (_ydata b)); [|reflexivity]. apply Hd.
  - unfold lift. destruct (item0 (_xdata b)); [|reflexivity].
    destruct (item0 (_ydata b)); [|reflexivity].
    destruct (Dict.get (_coord_type a) COORD_OPTIONS); [|reflexivity].
    apply Hd.
Qed.

(** [remove_artist] on a registered name: both entries go, the rest
    stays. *)
Lemma remove_artist_registered name self :
  registry_inv self ->
  Dict.mem name (_artists self) = true ->
  exists h,
    Dict.get name (_mpl_artists self) = Some h /\
    remove_artist name self
    = Return (with_mpl_ax (mpl_remove h (_mpl_ax self))
                (with_mpl_artists (Dict.remove name (_mpl_artists self))
                   (with_artists (Dict.remove name (_artists self)) self))).
Proof.
  intros [Hnd Hkeys] Hmem.
  assert (Hm : Dict.mem name (_mpl_artists self) = true)
    by (rewrite (mem_same_keys _ name _ _ Hkeys); exact Hmem).
  apply mem_get in Hm. destruct Hm as [h Hh]. exists h. split; [exact Hh|].
  unfold remove_artist, oassert. rewrite Hmem. simpl.
  unfold Dict.pop. rewrite Hh. reflexivity.
Qed.

Lemma remove_artist_unregistered name self :
  Dict.mem name (_artists self) = false ->
  remove_artist name self
  = Raise (NotFoundError "remove Artist from Figure") self.
Proof.
  intros H. unfold remove_artist, oassert. rewrite H. reflexivity.
Qed.

Lemma registry_inv_remove name self h :
  registry_inv self ->
  registry_inv (with_mpl_ax (mpl_remove h (_mpl_ax self))
                  (with_mpl_artists (Dict.remove name (_mpl_artists self))
                     (with_artists (Dict.remove name (_artists self)) self))).
Proof.
  intros [Hnd Hkeys]. split; simpl.
  - apply NoDup_keys_remove. exact Hnd.
  - apply keys_remove_same_keys. exact Hkeys.
Qed.

(** [add_artist] of a drawable artist under a name that is not taken, on
    axes that accept the call and on axes that refuse it. *)
Lemma add_artist_fresh artist label overwrite self :
  drawable artist ->
  Dict.mem (get_name artist) (_artists self) = false ->
  mpl_refuses (_mpl_ax self) (draw_request artist label) = None ->
  let label' :=
    if String.eqb label EmptyString then get_name artist else label in
  add_artist artist label overwrite self
  = Return
      (with_artists (Dict.set (get_name artist) artist (_artists self))
         (with_mpl_artists
            (Dict.set (get_name artist) (next_id (_mpl_ax self))
                      (_mpl_artists self))
            (with_mpl_ax
               (snd (mpl_draw (mpl_kind_for artist)
                              (mpl_label_for artist label') (_mpl_ax self)))
               self))).
Proof.
  intros Hd Hm Hacc label'. unfold add_artist. rewrite Hm. simpl.
  rewrite (add_mpl_artist_drawable _ _ _ Hd).
  rewrite draw_and_store_returns by exact Hacc.
  reflexivity.
Qed.

Lemma add_artist_fresh_refused artist label overwrite self e :
  drawable artist ->
  Dict.mem (get_name artist) (_artists self) = false ->
  mpl_refuses (_mpl_ax self) (draw_request artist label) = Some e ->
  add_artist artist label overwrite self = Raise e self.
Proof.
  intros Hd Hm Href. unfold add_artist. rewrite Hm. simpl.
  rewrite (add_mpl_artist_drawable _ _ _ Hd).
  rewrite (draw_and_store_refused _ _ _ _ e) by exact Href.
  reflexivity.
Qed.

(** Under a free name and whatever the artist, [add_artist] returns only
    when the axes accepted the call, and a raise leaves the figure as it
    was. *)
Lemma add_artist_fresh_inv artist label overwrite self :
  Dict.mem (get_name artist) (_artists self) = false ->
  match add_artist artist label overwrite self with
  | Return added =>
      mpl_refuses (_mpl_ax self) (draw_request artist label) = None /\
      added
      = with_artists (Dict.set (get_name artist) artist (_artists self))
          (with_mpl_artists
             (Dict.set (get_name artist) (next_id (_mpl_ax self))
                       (_mpl_artists self))
             (with_mpl_ax
                (snd (mpl_draw (mpl_kind_for artist)
                        (mpl_label_for artist
                           (if String.eqb label EmptyString
                            then get_name artist else label))
                        (_mpl_ax self)))
                self))
  | Raise _ self' => self' = self
  end.
Proof.
  intros Hm. unfold add_artist. rewrite Hm. cbn [obind].
  pose proof (add_mpl_artist_inv artist
                (if String.eqb label EmptyString then get_name artist
                 else label) self) as H.
  destruct (_add_mpl_artist artist _ self) as [self'|e self']; cbn [obind].
  - destruct H as [Hacc ->]. split; [exact Hacc | reflexivity].
  - exact H.
Qed.

Lemma registry_inv_add_fresh artist h ax self :
  registry_inv self ->
  Dict.mem (get_name artist) (_artists self) = false ->
  registry_inv
    (with_artists (Dict.set (get_name artist) artist (_artists self))
       (with_mpl_artists (Dict.set (get_name artist) h (_mpl_artists self))
          (with_mpl_ax ax self))).
Proof.
  intros [Hnd Hkeys] Hm. split; simpl.
  - apply NoDup_keys_set. exact Hnd.
  - rewrite !keys_set_fresh, Hkeys; auto.
    rewrite (mem_same_keys _ _ _ _ Hkeys). exact Hm.
Qed.

(** A new figure satisfies the invariants. *)
Lemma Figure_init_inv mpl_ax autoscale self :
  Figure_init mpl_ax autoscale = Return self ->
  registry_inv self /\ legend_subset self.
Proof.
  unfold Figure_init, set_autoscale, oassert, Legend_update, lift, obind.
  cbn [Dict.get_all Dict.keys map LegendState._artists legend Dict.empty].
  cbn [Nat.ltb Nat.leb length].
  destruct (str_in autoscale AUTOSCALE_OPTIONS); [|discriminate].
  intros E. injection E as <-. split.
  - split; simpl; [constructor | reflexivity].
  - intros name H. discriminate H.
Qed.

(** [add_artist] with [overwrite] under a taken name is [add_artist] on the
    figure [remove_artist] leaves, where the name is free and the axes
    judge drawing calls as before. *)
Lemma add_artist_overwrite_taken self p label :
  registry_inv self ->
  Dict.mem (get_name p) (_artists self) = true ->
  exists h,
    let removed :=
      with_mpl_ax (mpl_remove h (_mpl_ax self))
        (with_mpl_artists (Dict.remove (get_name p) (_mpl_artists self))
           (with_artists (Dict.remove (get_name p) (_artists self)) self)) in
    Dict.get (get_name p) (_mpl_artists self) = Some h /\
    remove_artist (get_name p) self = Return removed /\
    registry_inv removed /\
    Dict.mem (get_name p) (_artists removed) = false /\
    add_artist p label true self = add_artist p label false removed.
Proof.
  intros Hinv Hmem.
  destruct (remove_artist_registered _ _ Hinv Hmem) as (h & Hh & Hrm).
  exists h. cbv zeta.
  pose proof (registry_inv_remove (get_name p) self h Hinv) as Hinv'.
  set (removed := with_mpl_ax _ _) in *.
  assert (Hfresh : Dict.mem (get_name p) (_artists removed) = false)
    by (apply mem_remove_same, Hinv).
  repeat (split; [assumption|]).
  unfold add_artist at 1. rewrite Hmem, Hrm. simpl obind at 1.
  unfold add_artist. rewrite Hfresh. reflexivity.
Qed.

(** [add_artist] with [overwrite] under a taken name, on axes that accept
    the call: it returns, and the invariant holds afterwards. *)
Lemma add_artist_taken_name_aux self p label :
  registry_inv self -> drawable p ->
  Dict.mem (get_name p) (_artists self) = true ->
  mpl_refuses (_mpl_ax self) (draw_request p label) = None ->
  exists added,
    add_artist p label true self = Return added /\ registry_inv added.
Proof.
  intros Hinv Hd Hmem Hacc.
  destruct (add_artist_overwrite_taken self p label Hinv Hmem)
    as (h & _ & _ & Hinv' & Hfresh & ->).
  eexists. split.
  - apply add_artist_fresh; [exact Hd | exact Hfresh | exact Hacc].
  - apply registry_inv_add_fresh; assumption.
Qed.

(** C1.  When the name of [p] is taken, [add_artist] without [overwrite]
    raises the duplicate-name error and leaves the figure as it was.  With
    [overwrite] it is [remove_artist] of that name followed by the plain
    insertion.  If the axes accept the drawing call for [p], it returns,
    and afterwards the name occurs once among the keys and maps to [p].
    If they refuse it, the call raises what the axes raise and leaves the
    figure [remove_artist] left: no entry of that name. *)
Theorem add_artist_taken_name (self : Figure) (p : Artist) (label : string) :
  registry_inv self ->
  drawable p ->
  Dict.mem (get_name p) (_artists self) = true ->
  add_artist p label false self = Raise DuplicateNameError self /\
  exists removed,
    remove_artist (get_name p) self = Return removed /\
    Dict.mem (get_name p) (_artists removed) = false /\
    Dict.mem (get_name p) (_mpl_artists removed) = false /\
    add_artist p label true self = add_artist p label false removed /\
    (mpl_refuses (_mpl_ax self) (draw_request p label) = None ->
     exists added,
       add_artist p label true self = Return added /\
       Dict.get (get_name p) (_artists added) = Some p /\
       count_occ string_dec (Dict.keys (_artists added)) (get_name p)
       = 1%nat /\
       Dict.mem (get_name p) (_mpl_artists added) = true /\
       registry_inv added) /\
    (forall e,
        mpl_refuses (_mpl_ax self) (draw_request p label) = Some e ->
        add_artist p label true self = Raise e removed).
Proof.
  intros Hinv Hd Hmem. split.
  - unfold add_artist. rewrite Hmem. reflexivity.
  - destruct (add_artist_overwrite_taken self p label Hinv Hmem)
      as (h & Hh & Hrm & Hinv' & Hfresh & Hsame).
    cbv zeta in Hrm, Hinv', Hfresh, Hsame.
    set (removed := with_mpl_ax _ _) in *.
    exists removed. split; [exact Hrm|]. split; [exact Hfresh|].
    split.
    { rewrite (mem_same_keys _ _ _ _ (proj2 Hinv')). exact Hfresh. }
    split; [exact Hsame|]. split.
    + intros Hacc.
      pose proof (add_artist_fresh p label false removed Hd Hfresh Hacc)
        as Hadd.
      cbv zeta in Hadd.
      eexists. split; [rewrite Hsame; exact Hadd|].
      pose proof (registry_inv_add_fresh p (next_id (_mpl_ax removed))
                    (snd (mpl_draw (mpl_kind_for p)
                            (mpl_label_for p
                               (if String.eqb label EmptyString
                                then get_name p else label))
                            (_mpl_ax removed)))
                    removed Hinv' Hfresh) as Hinv''.
      split; [apply get_set_same|].
      split; [|split; [|exact Hinv'']].
      * apply count_occ_NoDup_mem; [apply Hinv''|].
        simpl. rewrite mem_set, String.eqb_refl. reflexivity.
      * simpl. rewrite mem_set, String.eqb_refl. reflexivity.
    + intros e Href. rewrite Hsame.
      apply add_artist_fresh_refused; assumption.
Qed.

Lemma add_artist_taken_name_witness :
  registry_inv figure_f /\
  drawable second_f /\
  Dict.mem "f" (_artists figure_f) = true /\
  add_artist second_f EmptyString false figure_f
  = Raise DuplicateNameError figure_f /\
  exists added,
    add_artist second_f EmptyString true figure_f = Return added /\
    _artists added = [("f", second_f)].
Proof.
  assert (H1 : registry_inv figure_f).
  { split; [|reflexivity]. constructor; [simpl; tauto | constructor]. }
  assert (H2 : drawable second_f) by exact I.
  assert (H3 : Dict.mem (get_name second_f) (_artists figure_f) = true)
    by reflexivity.
  destruct (add_artist_taken_name figure_f second_f EmptyString H1 H2 H3)
    as (Hraise & removed & _ & _ & _ & _ & Hacc & _).
  destruct (Hacc eq_refl) as (added & Hadd & _).
  repeat (split; [assumption|]).
  exists added. split; [exact Hadd|].
  assert (E : Return added
              = add_artist second_f EmptyString true figure_f)
    by (symmetry; exact Hadd).
  vm_compute in E. injection E as ->. reflexivity.
Defined.

(** The claim as the specification has it fails where the axes refuse the
    new artist.  [Line.__init__] accepts the linestyle ['--:'], which
    matplotlib does not know: on the figure that holds the line [f],
    [add_artist] of such a line named [f] with [overwrite] raises the
    [ValueError] of the drawing call after [f] has been removed, and no
    entry of that name is left. *)
Lemma add_artist_overwrite_refused_loses_entry :
  exists p self',
    Line_init BASE_COLORS (np_array [0; 1; 2]%Q) (np_array [0; 2; 8]%Q) "f"
              "k" 1%Q "--:" = Ok p /\
    Dict.mem "f" (_artists figure_f) = true /\
    add_artist p EmptyString true figure_f
    = Raise (invalid_linestyle "--:") self' /\
    Dict.mem "f" (_artists self') = false /\
    Dict.mem "f" (_mpl_artists self') = false /\
    children (_mpl_ax self') = [].
Proof.
  eexists. eexists. split; [reflexivity|]. split; [reflexivity|].
  split; [reflexivity|]. repeat split.
Qed.

(** C9.  Under a name that is not taken, whenever [add_artist] returns,
    removing that name gives back both name-keyed mappings, entry for entry
    and in the same order; the mesh slot, the legend and the autoscale
    policy are not touched.  Whenever it raises, the figure is as it was.
    It returns when the artist is one [_add_mpl_artist] can read and the
    axes accept the drawing call for it. *)
Theorem add_then_remove_restores (self : Figure) (p : Artist)
    (label : string) (overwrite : bool) :
  registry_inv self ->
  Dict.mem (get_name p) (_artists self) = false ->
  (forall added,
      add_artist p label overwrite self = Return added ->
      Dict.get (get_name p) (_artists added) = Some p /\
      exists final,
        remove_artist (get_name p) added = Return final /\
        _artists final = _artists self /\
        _mpl_artists final = _mpl_artists self /\
        _color_mesh final = _color_mesh self /\
        _mpl_quad_mesh final = _mpl_quad_mesh self /\
        _autoscale final = _autoscale self /\
        legend final = legend self) /\
  (forall e raised,
      add_artist p label overwrite self = Raise e raised -> raised = self) /\
  (drawable p ->
   mpl_refuses (_mpl_ax self) (draw_request p label) = None ->
   exists added, add_artist p label overwrite self = Return added).
Proof.
  intros Hinv Hfresh.
  pose proof (add_artist_fresh_inv p label overwrite self Hfresh) as H.
  split; [|split].
  - intros added0 Hadd.
    rewrite Hadd in H. destruct H as [_ ->].
    set (added := with_artists _ _).
    assert (Hinv' : registry_inv added)
      by (apply registry_inv_add_fresh; assumption).
    assert (Hmem : Dict.mem (get_name p) (_artists added) = true)
      by (simpl; rewrite mem_set, String.eqb_refl; reflexivity).
    destruct (remove_artist_registered _ _ Hinv' Hmem) as (h & _ & Hrm).
    split; [apply get_set_same|].
    eexists. split; [exact Hrm|].
    assert (Hfresh' : Dict.mem (get_name p) (_mpl_artists self) = false)
      by (rewrite (mem_same_keys _ _ _ _ (proj2 Hinv)); exact Hfresh).
    simpl. rewrite !remove_set_fresh by assumption.
    repeat split; reflexivity.
  - intros e raised Hadd. rewrite Hadd in H. exact H.
  - intros Hd Hacc. eexists.
    apply add_artist_fresh; [exact Hd | exact Hfresh | exact Hacc].
Qed.

Lemma add_then_remove_restores_witness :
  let added := state_of (add_artist (text "t") EmptyString false figure_f) in
  registry_inv figure_f /\
  Dict.mem "t" (_artists figure_f) = false /\
  add_artist (text "t") EmptyString false figure_f = Return added /\
  Dict.keys (_artists added) = ["f"; "t"] /\
  exists final,
    remove_artist "t" added = Return final /\
    _artists final = _artists figure_f /\
    _mpl_artists final = _mpl_artists figure_f.
Proof.
  intros added.
  assert (H1 : registry_inv figure_f).
  { split; [|reflexivity]. constructor; [simpl; tauto | constructor]. }
  assert (H3 : Dict.mem (get_name (text "t")) (_artists figure_f) = false)
    by reflexivity.
  assert (H4 : add_artist (text "t") EmptyString false figure_f
               = Return added) by reflexivity.
  destruct (add_then_remove_restores figure_f (text "t") EmptyString false
              H1 H3)
    as (Hround & _ & _).
  destruct (Hround added H4) as (_ & final & Hrm & Ha & Hm & _).
  split; [exact H1|]. split; [exact H3|]. split; [exact H4|].
  split; [reflexivity|].
  exists final. split; [exact Hrm | split; assumption].
Defined.

(* ------------------------------------------------------------------ *)
(** ** The legend                                                      *)

(** [remove_artist] never touches the legend, whether it returns or
    raises. *)
Lemma remove_artist_leaves_legend name self :
  legend (state_of (remove_artist name self)) = legend self.
Proof.
  unfold remove_artist, oassert.
  destruct (Dict.mem name (_artists self)); [|reflexivity].
  unfold obind. cbv zeta.
  destruct (Dict.pop name _) as [[h rest]|]; reflexivity.
Qed.

(** [add_artist] never touches the legend either. *)
Lemma add_artist_leaves_legend artist label overwrite self :
  legend (state_of (add_artist artist label overwrite self)) = legend self.
Proof.
  unfold add_artist.
  assert (Hmpl : forall lbl s,
             legend (state_of (_add_mpl_artist artist lbl s)) = legend s).
  { intros lbl s. pose proof (add_mpl_artist_inv artist lbl s) as H.
    destruct (_add_mpl_artist artist lbl s) as [s'|e s']; cbn [state_of].
    - destruct H as [_ ->]. reflexivity.
    - rewrite H. reflexivity. }
  assert (Hfin : forall lbl s,
             legend (state_of
                       (obind (_add_mpl_artist artist lbl s)
                          (fun s' => Return
                             (with_artists
                                (Dict.set (get_name artist) artist
                                          (_artists s')) s'))))
             = legend s).
  { intros lbl s. specialize (Hmpl lbl s).
    destruct (_add_mpl_artist artist lbl s); exact Hmpl. }
  cbv zeta.
  destruct (Dict.mem (get_name artist) (_artists self)).
  - destruct overwrite.
    + pose proof (remove_artist_leaves_legend (get_name artist) self) as Hr.
      destruct (remove_artist (get_name artist) self) as [s|e s];
        simpl in Hr |- *; [|exact Hr].
      rewrite <- Hr. apply Hfin.
    + reflexivity.
  - apply Hfin.
Qed.

(** [Legend.add] with a sequence checks every name before it stores
    anything: one name that is not registered, or that names a [Text],
    rejects the call and the figure and its legend are as before. *)
Lemma Legend_add_rejects names self :
  forallb (fun name => selectable name self) names = false ->
  Legend_add (NamesSeq names) self = Raise (InvalidSelectionError None) self.
Proof.
  intros H. unfold Legend_add, oassert. rewrite H. reflexivity.
Qed.

(** When every name passes, the call stores exactly these names on top of
    the subset; every key of the subset afterwards was one before or is a
    registered name. *)
Lemma get_all_selectable names self :
  forallb (fun name => selectable name self) names = true ->
  exists artists,
    Dict.get_all names (_artists self) = Ok artists /\
    length artists = length names.
Proof.
  induction names as [|name r IH]; simpl.
  - exists []. split; reflexivity.
  - intros H. apply andb_prop in H. destruct H as [Hs Hr].
    unfold selectable in Hs. apply andb_prop in Hs. destruct Hs as [Hm _].
    apply mem_get in Hm. destruct Hm as [a Ha]. rewrite Ha.
    destruct (IH Hr) as (l & -> & Hl). exists (a :: l).
    split; [reflexivity | simpl; congruence].
Qed.

(** C2.  The figure holds the line [f] and the legend shows it.  After
    [remove_artist] of [f] has returned, [f] is still a key of the legend's
    subset and no longer one of the registry, so the subset is not within
    the registry's keys; the next recompute of the legend then fails on the
    handle of [f]. *)
Theorem remove_artist_keeps_legend_entry :
  Legend_add (NamesSeq ["f"]) figure_f = Return figure_f_legend /\
  legend_subset figure_f_legend /\
  exists removed,
    remove_artist "f" figure_f_legend = Return removed /\
    Dict.keys (_artists removed) = [] /\
    Dict.keys (LegendState._artists (legend removed)) = ["f"] /\
    ~ legend_subset removed /\
    Legend_add (NamesSeq []) removed = Raise (KeyError "f") removed.
Proof.
  split; [reflexivity|]. split.
  - intros name. change (_artists figure_f_legend) with [("f", line_f)].
    change (LegendState._artists (legend figure_f_legend))
      with [("f", line_f)].
    auto.
  - eexists. split; [reflexivity|]. split; [reflexivity|].
    split; [reflexivity|]. split; [|reflexivity].
    intros H. specialize (H "f" eq_refl). discriminate H.
Qed.

(** C3.  The figure holds the line [f] and the legend shows it.
    [Legend.remove] of the names [f] and [zzz] raises the selection error
    for [zzz], which is not registered, after it has popped [f]: the subset
    is empty afterwards, and the panel, which was not recomputed, still
    shows the handle of [f]. *)
Theorem Legend_remove_partial :
  Dict.keys (LegendState._artists (legend figure_f_legend)) = ["f"] /\
  selectable "zzz" figure_f_legend = false /\
  exists after,
    Legend_remove (NamesSeq ["f"; "zzz"]) figure_f_legend
    = Raise (InvalidSelectionError (Some "remove Artist from Legend")) after /\
    Dict.keys (LegendState._artists (legend after)) = [] /\
    LegendState._mpl_legend (legend after)
    = LegendState._mpl_legend (legend figure_f_legend) /\
    legend_visible (LegendState._mpl_legend (legend after)) = true /\
    Legend_add (NamesSeq ["f"; "zzz"]) figure_f_legend
    = Raise (InvalidSelectionError None) figure_f_legend.
Proof.
  split; [reflexivity|]. split; [reflexivity|].
  eexists. repeat split; reflexivity.
Qed.

(* ------------------------------------------------------------------ *)
(** ** The scale pass                                                  *)












(** [np.min] and [np.max] return on a non-empty array; when no element is
    nan or infinite, what they return is a least and a greatest element. *)
Lemma np_min_nonempty a : a <> [] -> exists m, np_min a = Ok m.
Proof. destruct a as [|x r]; [congruence|]. intros _. eexists. reflexivity. Qed.

Lemma np_max_nonempty a : a <> [] -> exists m, np_max a = Ok m.
Proof. destruct a as [|x r]; [congruence|]. intros _. eexists. reflexivity. Qed.



(** The arrays the source builds are the ones the specification
    describes. *)
Lemma gather_gathered self :
  gather self
  = match _artists self, _color_mesh self with
    | [], None => None
    | _, _ => Some (gathered_x self, gathered_y self)
    end.
Proof.
  unfold gather, gathered_x, gathered_y, mesh_x, mesh_y, Dict.values.
  destruct (_artists self) as [|kv r]; destruct (_color_mesh self);
    simpl; rewrite ?app_nil_r; reflexivity.
Qed.

Lemma gather_nonempty self :
  gathered_x self <> [] ->
  gather self = Some (gathered_x self, gathered_y self).
Proof.
  intros H. rewrite gather_gathered.
  destruct (_artists self) eqn:Ea; [|reflexivity].
  destruct (_color_mesh self) eqn:Em; [reflexivity|].
  exfalso. apply H. unfold gathered_x, mesh_x. rewrite Ea, Em. reflexivity.
Qed.

(** With nothing registered the pass returns at once. *)
Lemma update_scale_nothing_registered self :
  _artists self = [] -> _color_mesh self = None ->
  update_scale self = Return self.
Proof.
  intros Ha Hm. unfold update_scale, gather. rewrite Ha, Hm. reflexivity.
Qed.

(** With policy [none] the pass changes nothing as long as both reductions
    have something to reduce. *)
Lemma update_scale_none self :
  _autoscale self = "none" ->
  gathered_x self <> [] -> gathered_y self <> [] ->
  update_scale self = Return self.
Proof.
  intros Hp Hx Hy. unfold update_scale. rewrite (gather_nonempty _ Hx).
  destruct (np_min_nonempty _ Hx) as (x0 & ->).
  destruct (np_max_nonempty _ Hx) as (x1 & ->).
  destruct (np_min_nonempty _ Hy) as (y0 & ->).
  destruct (np_max_nonempty _ Hy) as (y1 & ->).
  unfold lift. rewrite Hp. reflexivity.
Qed.

Lemma with_limits_self self :
  with_limits (xlim (_mpl_ax self)) (ylim (_mpl_ax self)) self = self.
Proof. destruct self as [[n c lx ly cb rf] ma a cm qm au l]. reflexivity. Qed.

(** matplotlib sets a pair of limits when both are finite and refuses them
    otherwise. *)
Lemma set_xlim_cases lo hi ax :
  (exists l h : Q,
      lo = Finite l /\ hi = Finite h /\
      set_xlim lo hi ax
      = Ok (mk_axes (next_id ax) (children ax) (l, h) (ylim ax)
                    (colorbars ax) (mpl_refuses ax))) \/
  set_xlim lo hi ax = Err limits_error.
Proof.
  destruct lo as [l| | |], hi as [h| | |];
    try (right; reflexivity).
  left. exists l, h. repeat split.
Qed.

Lemma set_ylim_cases lo hi ax :
  (exists l h : Q,
      lo = Finite l /\ hi = Finite h /\
      set_ylim lo hi ax
      = Ok (mk_axes (next_id ax) (children ax) (xlim ax) (l, h)
                    (colorbars ax) (mpl_refuses ax))) \/
  set_ylim lo hi ax = Err limits_error.
Proof.
  destruct lo as [l| | |], hi as [h| | |];
    try (right; reflexivity).
  left. exists l, h. repeat split.
Qed.

(** Whether it returns or raises, the pass leaves the figure it was given
    up to the two pairs of limits. *)
Lemma update_scale_limits self :
  exists x_limits y_limits,
    state_of (update_scale self) = with_limits x_limits y_limits self.
Proof.
  assert (Hself : exists lx ly, self = with_limits lx ly self).
  { eexists _, _. symmetry. apply with_limits_self. }
  unfold update_scale.
  destruct (gather self) as [[xdata ydata]|]; [|exact Hself].
  unfold lift.
  destruct (np_min xdata) as [x0|]; [|exact Hself].
  destruct (np_max xdata) as [x1|]; [|exact Hself].
  destruct (np_min ydata) as [y0|]; [|exact Hself].
  destruct (np_max ydata) as [y1|]; [|exact Hself].
  destruct (String.eqb (_autoscale self) "all").
  { destruct (set_xlim_cases x0 x1 (_mpl_ax self))
      as [(l & h & -> & -> & ->)| ->]; [|exact Hself].
    cbv zeta.
    destruct (set_ylim_cases y0 y1 (_mpl_ax (with_mpl_ax
                (mk_axes (next_id (_mpl_ax self)) (children (_mpl_ax self))
                   (l, h) (ylim (_mpl_ax self)) (colorbars (_mpl_ax self))
                   (mpl_refuses (_mpl_ax self))) self)))
      as [(l' & h' & -> & -> & ->)| ->];
      eexists _, _; reflexivity. }
  destruct (String.eqb (_autoscale self) "width").
  { destruct (set_xlim_cases x0 x1 (_mpl_ax self))
      as [(l & h & -> & -> & ->)| ->]; [|exact Hself].
    eexists _, _; reflexivity. }
  destruct (String.eqb (_autoscale self) "height"); [|exact Hself].
  destruct (set_ylim_cases y0 y1 (_mpl_ax self))
    as [(l & h & -> & -> & ->)| ->]; [|exact Hself].
  eexists _, _; reflexivity.
Qed.

Lemma same_frame_with_limits lx ly self :
  same_frame self (with_limits lx ly self).
Proof. repeat split. Qed.




(** C5.  Under policy [none], on the figure whose one artist is a line
    without points, the pass does not return: the reductions run before the
    policy is looked at, and the first one raises. *)
Theorem update_scale_none_empty_line_raises :
  Line_init BASE_COLORS (np_array []) (np_array []) "a" "k" 1%Q "solid"
  = Ok (line [] [] "a") /\
  Figure_init (new_axes refuse_linestyle) "none"
  = Return (new_figure "none") /\
  add_artist (line [] [] "a") EmptyString false (new_figure "none")
  = Return (figure_empty_line "none") /\
  _autoscale (figure_empty_line "none") = "none" /\
  update_scale (figure_empty_line "none")
  = Raise (zero_size "minimum") (figure_empty_line "none").
Proof.
  repeat split; reflexivity.
Qed.

(* ------------------------------------------------------------------ *)
(** ** Construction and setters of the artists                         *)

Lemma str_in_In x l : str_in x l = true <-> In x l.
Proof.
  unfold str_in. rewrite existsb_exists. split.
  - intros (y & Hy & E). apply String.eqb_eq in E. congruence.
  - intros H. exists x. split; [exact H | apply String.eqb_refl].
Qed.

Lemma str_in_not_In x l : str_in x l = false <-> ~ In x l.
Proof.
  rewrite <- str_in_In. destruct (str_in x l); split; congruence.
Qed.

Lemma Artist_init_equal x y name :
  size (flatten y) = size (flatten x) ->
  Artist_init x y name
  = Ok {| _xdata := flatten x; _ydata := flatten y; _name := name |}.
Proof.
  intros H. unfold Artist_init, py_assert. rewrite H, Nat.eqb_refl.
  reflexivity.
Qed.

Lemma Artist_init_mismatch x y name :
  size (flatten y) <> size (flatten x) ->
  Artist_init x y name = Err (AssertionError size_msg_Artist).
Proof.
  intros H. unfold Artist_init, py_assert.
  destruct (Nat.eqb_spec (size (flatten x)) (size (flatten y)));
    [congruence | reflexivity].
Qed.

Lemma Points_check_color_ok COLOR_OPTIONS c xdata :
  Points_color_ok COLOR_OPTIONS c (size xdata) ->
  exists c', Points_check_color COLOR_OPTIONS c xdata = Ok c'.
Proof.
  destruct c as [c|a]; simpl; unfold py_assert.
  - intros ->. eexists. reflexivity.
  - intros ->. rewrite Nat.eqb_refl. eexists. reflexivity.
Qed.

Lemma Points_check_size_ok s xdata :
  per_point_ok s (size xdata) -> exists s', Points_check_size s xdata = Ok s'.
Proof.
  destruct s as [q|a]; simpl; unfold py_assert.
  - eexists. reflexivity.
  - intros ->. rewrite Nat.eqb_refl. eexists. reflexivity.
Qed.

Lemma Arrows_check_color_ok c xdata :
  per_point_ok c (size xdata) -> exists c', Arrows_check_color c xdata = Ok c'.
Proof.
  destruct c as [q|a]; simpl; unfold py_assert.
  - eexists. reflexivity.
  - intros ->. rewrite Nat.eqb_refl. eexists. reflexivity.
Qed.

Lemma Line_attrs_init_ok COLOR_OPTIONS c lw ls :
  Line_style_ok COLOR_OPTIONS c ls ->
  Line_attrs_init COLOR_OPTIONS c lw ls
  = Ok {| _c := c; _lw := lw; _ls := ls |}.
Proof.
  intros [Hc Hls]. unfold Line_attrs_init, check_color, check_linestyle,
    py_assert. rewrite Hc, Hls. reflexivity.
Qed.

(** C6.  Each constructor first compares the sizes of the flattened
    coordinate arrays.  When they agree, and the style arguments are ones
    the class accepts, it returns the artist with these coordinates; when
    two of them differ it raises the size assertion, whatever the style
    arguments are, and no artist results. *)
Theorem construction_checks_sizes (COLOR_OPTIONS : list string)
    (x y z u v : ndarray) (name c ls t pivot : string) (lw : pyfloat)
    (pc : color_arg) (ps ac : num_arg) :
  let n := size (flatten x) in
  (size (flatten y) = n ->
   (Line_style_ok COLOR_OPTIONS c ls ->
    Line_init COLOR_OPTIONS x y name c lw ls
    = Ok (Line (mk_base (flatten x) (flatten y) name) (mk_line c lw ls))) /\
   (Points_color_ok COLOR_OPTIONS pc n -> per_point_ok ps n ->
    exists a, Points_init COLOR_OPTIONS x y name pc ps t
              = Ok (Points (mk_base (flatten x) (flatten y) name) a)) /\
   (size (flatten u) = n -> size (flatten v) = n -> per_point_ok ac n ->
    exists c', Arrows_init x y u v name ac pivot
               = Ok (Arrows (mk_base (flatten x) (flatten y) name)
                            (mk_arrows (flatten u, flatten v) c' pivot))) /\
   (size (flatten z) = n -> Line_style_ok COLOR_OPTIONS c ls ->
    Line3D_init COLOR_OPTIONS x y z name c lw ls
    = Ok (Line3D (mk_base (flatten x) (flatten y) name) (flatten z)
                 (mk_line c lw ls))) /\
   (size (flatten z) = n ->
    Points_color_ok COLOR_OPTIONS pc n -> per_point_ok ps n ->
    exists c' s', Points3D_init COLOR_OPTIONS x y z name pc ps
                  = Ok (Points3D (mk_base (flatten x) (flatten y) name)
                                 (flatten z) c' s'))) /\
  (size (flatten y) <> n ->
   ShapeMismatchError (AssertionError size_msg_Artist) /\
   Line_init COLOR_OPTIONS x y name c lw ls
   = Err (AssertionError size_msg_Artist) /\
   Points_init COLOR_OPTIONS x y name pc ps t
   = Err (AssertionError size_msg_Artist) /\
   Arrows_init x y u v name ac pivot = Err (AssertionError size_msg_Artist) /\
   Line3D_init COLOR_OPTIONS x y z name c lw ls
   = Err (AssertionError size_msg_Artist) /\
   Points3D_init COLOR_OPTIONS x y z name pc ps
   = Err (AssertionError size_msg_Artist)) /\
  (size (flatten y) = n ->
   size (flatten u) <> n \/ size (flatten v) <> n ->
   ShapeMismatchError (AssertionError size_msg_Arrows) /\
   Arrows_init x y u v name ac pivot = Err (AssertionError size_msg_Arrows)) /\
  (size (flatten y) = n -> size (flatten z) <> n ->
   ShapeMismatchError (AssertionError size_msg_Artist3D) /\
   Line3D_init COLOR_OPTIONS x y z name c lw ls
   = Err (AssertionError size_msg_Artist3D) /\
   Points3D_init COLOR_OPTIONS x y z name pc ps
   = Err (AssertionError size_msg_Artist3D)).
Proof.
  intros n. subst n. split; [|split; [|split]].
  - intros Hy. pose proof (Artist_init_equal x y name Hy) as Hb.
    split; [|split; [|split; [|split]]].
    + intros Hs. unfold Line_init. rewrite Hb. simpl.
      rewrite (Line_attrs_init_ok _ _ lw _ Hs). reflexivity.
    + intros Hc Hs. unfold Points_init. rewrite Hb. simpl.
      destruct (Points_check_color_ok COLOR_OPTIONS pc (flatten x) Hc)
        as [c' ->].
      destruct (Points_check_size_ok ps (flatten x) Hs) as [s' ->].
      simpl. eexists. reflexivity.
    + intros Hu Hv Hc. unfold Arrows_init. rewrite Hb. simpl.
      unfold py_assert. rewrite Hu, Hv, Nat.eqb_refl. simpl.
      destruct (Arrows_check_color_ok ac (flatten x) Hc) as [c' ->].
      simpl. eexists. reflexivity.
    + intros Hz Hs. unfold Line3D_init, Artist3D_init. rewrite Hb. simpl.
      unfold py_assert. rewrite Hz, Nat.eqb_refl. simpl.
      rewrite (Line_attrs_init_ok _ _ lw _ Hs). reflexivity.
    + intros Hz Hc Hs. unfold Points3D_init, Artist3D_init. rewrite Hb.
      simpl. unfold py_assert. rewrite Hz, Nat.eqb_refl. simpl.
      destruct (Points_check_color_ok COLOR_OPTIONS pc (flatten x) Hc)
        as [c' ->].
      destruct (Points_check_size_ok ps (flatten x) Hs) as [s' ->].
      simpl. eexists _, _. reflexivity.
  - intros Hy. pose proof (Artist_init_mismatch x y name Hy) as Hb.
    split; [left; reflexivity|].
    unfold Line_init, Points_init, Arrows_init, Line3D_init, Points3D_init,
      Artist3D_init.
    rewrite Hb. repeat split; reflexivity.
  - intros Hy Huv. split; [right; right; left; reflexivity|].
    unfold Arrows_init. rewrite (Artist_init_equal x y name Hy). simpl.
    unfold py_assert.
    destruct (Nat.eqb_spec (size (flatten u)) (size (flatten v))) as [E|E];
      [|reflexivity].
    destruct (Nat.eqb_spec (size (flatten v)) (size (flatten x))) as [E'|E'];
      [|reflexivity].
    exfalso. destruct Huv; congruence.
  - intros Hy Hz. split; [right; left; reflexivity|].
    unfold Line3D_init, Points3D_init, Artist3D_init.
    rewrite (Artist_init_equal x y name Hy). simpl. unfold py_assert.
    destruct (Nat.eqb_spec (size (flatten x)) (size (flatten z))) as [E|E];
      [congruence|]. split; reflexivity.
Qed.

Lemma construction_checks_sizes_witness :
  Line_init BASE_COLORS (np_array [0; 1; 2]%Q) (np_array [0; 1; 4]%Q) "f"
            "k" 1%Q "solid"
  = Ok line_f /\
  Line_init BASE_COLORS (np_array [0; 1; 2]%Q) (np_array [0; 1]%Q) "f"
            "k" 1%Q "solid"
  = Err (AssertionError size_msg_Artist) /\
  Arrows_init (np_array [0; 1; 2]%Q) (np_array [0; 1; 4]%Q)
              (np_array [1; 1]%Q) (np_array [1; 1; 1]%Q) "g" (Num 0%Q) "mid"
  = Err (AssertionError size_msg_Arrows).
Proof.
  pose proof (construction_checks_sizes BASE_COLORS
                (np_array [0; 1; 2]%Q) (np_array [0; 1; 4]%Q)
                (np_array []) (np_array []) (np_array [])
                "f" "k" "solid" "." "mid" 1%Q (CStr "k") (Num 1%Q) (Num 0%Q))
    as (Hok & _).
  pose proof (construction_checks_sizes BASE_COLORS
                (np_array [0; 1; 2]%Q) (np_array [0; 1]%Q)
                (np_array []) (np_array []) (np_array [])
                "f" "k" "solid" "." "mid" 1%Q (CStr "k") (Num 1%Q) (Num 0%Q))
    as (_ & Hbad & _).
  pose proof (construction_checks_sizes BASE_COLORS
                (np_array [0; 1; 2]%Q) (np_array [0; 1; 4]%Q)
                (np_array []) (np_array [1; 1]%Q) (np_array [1; 1; 1]%Q)
                "g" "k" "solid" "." "mid" 1%Q (CStr "k") (Num 1%Q) (Num 0%Q))
    as (_ & _ & Huv & _).
  split; [|split].
  - apply (proj1 (Hok eq_refl)). split; reflexivity.
  - apply Hbad. simpl. discriminate.
  - apply Huv; [reflexivity | left; simpl; discriminate].
Defined.

(** [Straight] and [Text] take one point: their two coordinate arrays
    always agree in size, and construction depends on the style arguments
    only. *)
Lemma Straight_init_ok COLOR_OPTIONS xy dir name c lw ls :
  Line_style_ok COLOR_OPTIONS c ls ->
  Straight_init COLOR_OPTIONS xy dir name c lw ls
  = Ok (Straight (mk_base [fst xy] [snd xy] name) (mk_line c lw ls)
                 (fst dir) (snd dir)).
Proof.
  intros Hs. unfold Straight_init. destruct dir as [dx dy].
  rewrite Artist_init_equal by reflexivity. simpl.
  rewrite (Line_attrs_init_ok _ _ lw _ Hs). reflexivity.
Qed.

Lemma Text_init_ok COLOR_OPTIONS x y txt name c s coord_type offset :
  str_in c COLOR_OPTIONS = true ->
  Dict.mem coord_type COORD_OPTIONS = true ->
  Text_init COLOR_OPTIONS x y txt name c s coord_type offset
  = Ok (Text (mk_base [x] [y] name)
             (mk_text txt c s coord_type offset)).
Proof.
  intros Hc Ht. unfold Text_init, check_color, check_coord_type, py_assert.
  rewrite Artist_init_equal by reflexivity. cbn [rbind].
  rewrite Hc. cbn [rbind]. rewrite Ht. reflexivity.
Qed.

(** The constructors of the classes that [Figure._add_mpl_artist] indexes
    build artists it can draw. *)
Lemma Straight_init_drawable COLOR_OPTIONS xy dir name c lw ls a :
  Straight_init COLOR_OPTIONS xy dir name c lw ls = Ok a -> drawable a.
Proof.
  unfold Straight_init. destruct dir as [dx dy].
  rewrite Artist_init_equal by reflexivity. simpl.
  destruct (Line_attrs_init COLOR_OPTIONS c lw ls); simpl; [|discriminate].
  intros E. injection E as <-. split; discriminate.
Qed.

Lemma Text_init_drawable COLOR_OPTIONS x y txt name c s coord_type offset a :
  Text_init COLOR_OPTIONS x y txt name c s coord_type offset = Ok a ->
  drawable a.
Proof.
  unfold Text_init. rewrite Artist_init_equal by reflexivity. simpl.
  destruct (check_color COLOR_OPTIONS "Text" c); simpl; [|discriminate].
  unfold check_coord_type, py_assert.
  destruct (Dict.mem coord_type COORD_OPTIONS) eqn:E; simpl; [|discriminate].
  intros H. injection H as <-. repeat split; try discriminate. exact E.
Qed.

(** C7.  [Points.set_color] checks its argument on every call, whatever the
    object holds: an array whose flattened size is not the number of points
    raises the size assertion and the object is as before; a name among
    [COLOR_OPTIONS] is stored, whatever the number of points; any other
    string raises the options error and the object is as before.  A call
    that follows a successful one is checked in the same way. *)
Theorem Points_set_color_checks (COLOR_OPTIONS : list string)
    (b : ArtistBase) (self : PointsAttrs) :
  (forall a,
      size (flatten a) <> size (_xdata b) ->
      ShapeMismatchError (AssertionError size_msg_Points_color) /\
      Points_set_color COLOR_OPTIONS (CArr a) b self
      = (Some (AssertionError size_msg_Points_color), self)) /\
  (forall a,
      size (flatten a) = size (_xdata b) ->
      Points_set_color COLOR_OPTIONS (CArr a) b self
      = (None, mk_points (ColorArray (flatten a)) (pts_s self) (pts_t self))) /\
  (forall c,
      str_in c COLOR_OPTIONS = true ->
      Points_set_color COLOR_OPTIONS (CStr c) b self
      = (None, mk_points (ColorName c) (pts_s self) (pts_t self))) /\
  (forall c,
      str_in c COLOR_OPTIONS = false ->
      InvalidOptionError
        (AssertionError (OptionsError "Points" "c" None EmptyString)) /\
      Points_set_color COLOR_OPTIONS (CStr c) b self
      = (Some (AssertionError (OptionsError "Points" "c" None EmptyString)),
         self)) /\
  (forall c1 self1 a,
      Points_set_color COLOR_OPTIONS c1 b self = (None, self1) ->
      size (flatten a) <> size (_xdata b) ->
      Points_set_color COLOR_OPTIONS (CArr a) b self1
      = (Some (AssertionError size_msg_Points_color), self1)).
Proof.
  assert (Hbad : forall s a,
             size (flatten a) <> size (_xdata b) ->
             Points_set_color COLOR_OPTIONS (CArr a) b s
             = (Some (AssertionError size_msg_Points_color), s)).
  { intros s a H. unfold Points_set_color, Points_check_color, py_assert.
    destruct (Nat.eqb_spec (size (flatten a)) (size (_xdata b)));
      [congruence | reflexivity]. }
  split; [|split; [|split; [|split]]].
  - intros a H. split; [|apply Hbad; exact H].
    right; right; right; left; reflexivity.
  - intros a H. unfold Points_set_color, Points_check_color, py_assert.
    rewrite H, Nat.eqb_refl. reflexivity.
  - intros c H. unfold Points_set_color, Points_check_color, py_assert.
    rewrite H. reflexivity.
  - intros c H. split; [do 4 eexists; reflexivity|].
    unfold Points_set_color, Points_check_color, py_assert.
    rewrite H. reflexivity.
  - intros c1 self1 a _ H. apply Hbad. exact H.
Qed.

Lemma Points_set_color_checks_witness :
  let b := mk_base [0; 1; 2]%Q [0; 1; 4]%Q "p" in
  let self := mk_points (ColorName "k") (NumScalar 1%Q) "." in
  Points_init BASE_COLORS (np_array [0; 1; 2]%Q) (np_array [0; 1; 4]%Q) "p"
              (CStr "k") (Num 1%Q) "."
  = Ok (Points b self) /\
  Points_set_color BASE_COLORS (CArr (np_array [1; 2]%Q)) b self
  = (Some (AssertionError size_msg_Points_color), self) /\
  Points_set_color BASE_COLORS (CStr "r") b self
  = (None, mk_points (ColorName "r") (NumScalar 1%Q) ".") /\
  Points_set_color BASE_COLORS (CStr "reddish") b self
  = (Some (AssertionError (OptionsError "Points" "c" None EmptyString)),
     self).
Proof.
  intros b self.
  destruct (Points_set_color_checks BASE_COLORS b self)
    as (Hsize & _ & Hname & Hother & _).
  split; [reflexivity|]. split; [|split].
  - apply Hsize. simpl. discriminate.
  - apply (Hname "r"). reflexivity.
  - apply (Hother "reddish"). reflexivity.
Defined.

(* ------------------------------------------------------------------ *)
(** ** Line styles                                                     *)

(** C10.  The display of [Line.LS_OPTIONS] has no comma between ['--'] and
    [':'], so the set holds their concatenation and seven tokens in all.
    [Line.set_linestyle] stores exactly these and raises the options error
    on any other string, leaving the object as it was; so do the
    constructors of [Line], [Straight] and [Line3D], which run the same
    check.  In particular ['--'] and [':'] are refused and ['--:'] is
    accepted. *)
Theorem linestyle_tokens (COLOR_OPTIONS : list string) (ls : string) :
  LS_OPTIONS = accepted_linestyles /\
  (forall self,
      (In ls accepted_linestyles ->
       Line_set_linestyle ls self
       = (None, mk_line (_c self) (_lw self) ls)) /\
      (~ In ls accepted_linestyles ->
       InvalidOptionError
         (AssertionError
            (OptionsError "Line" "ls" (Some LS_OPTIONS) EmptyString)) /\
       Line_set_linestyle ls self
       = (Some (AssertionError
                  (OptionsError "Line" "ls" (Some LS_OPTIONS) EmptyString)),
          self))) /\
  (forall x y z xy dir name c lw,
      size (flatten y) = size (flatten x) ->
      size (flatten z) = size (flatten x) ->
      str_in c COLOR_OPTIONS = true ->
      ((exists a, Line_init COLOR_OPTIONS x y name c lw ls = Ok a)
       <-> In ls accepted_linestyles) /\
      ((exists a, Straight_init COLOR_OPTIONS xy dir name c lw ls = Ok a)
       <-> In ls accepted_linestyles) /\
      ((exists a, Line3D_init COLOR_OPTIONS x y z name c lw ls = Ok a)
       <-> In ls accepted_linestyles)) /\
  ~ In "--" accepted_linestyles /\
  ~ In ":" accepted_linestyles /\
  In "--:" accepted_linestyles.
Proof.
  assert (Hattrs : forall c lw,
             str_in c COLOR_OPTIONS = true ->
             (exists a, Line_attrs_init COLOR_OPTIONS c lw ls = Ok a)
             <-> In ls accepted_linestyles).
  { intros c lw Hc. change accepted_linestyles with LS_OPTIONS.
    rewrite <- str_in_In.
    unfold Line_attrs_init, check_color, check_linestyle, py_assert.
    rewrite Hc. destruct (str_in ls LS_OPTIONS); simpl; split; eauto.
    - intros [a H]. discriminate H.
    - discriminate. }
  split; [reflexivity|]. split; [|split].
  - intros self. change accepted_linestyles with LS_OPTIONS. split.
    + intros H. apply str_in_In in H.
      unfold Line_set_linestyle, check_linestyle, py_assert.
      rewrite H. reflexivity.
    + intros H. apply str_in_not_In in H.
      split; [do 4 eexists; reflexivity|].
      unfold Line_set_linestyle, check_linestyle, py_assert.
      rewrite H. reflexivity.
  - intros x y z xy dir name c lw Hy Hz Hc.
    specialize (Hattrs c lw Hc). split; [|split].
    + rewrite <- Hattrs. unfold Line_init.
      rewrite (Artist_init_equal x y name Hy). simpl.
      destruct (Line_attrs_init COLOR_OPTIONS c lw ls); simpl;
        split; eauto; intros [a H]; discriminate H.
    + rewrite <- Hattrs. unfold Straight_init. destruct dir as [dx dy].
      rewrite Artist_init_equal by reflexivity. simpl.
      destruct (Line_attrs_init COLOR_OPTIONS c lw ls); simpl;
        split; eauto; intros [a H]; discriminate H.
    + rewrite <- Hattrs. unfold Line3D_init, Artist3D_init.
      rewrite (Artist_init_equal x y name Hy). simpl. unfold py_assert.
      rewrite Hz, Nat.eqb_refl. simpl.
      destruct (Line_attrs_init COLOR_OPTIONS c lw ls); simpl;
        split; eauto; intros [a H]; discriminate H.
  - repeat split.
    + intros H. simpl in H. intuition discriminate.
    + intros H. simpl in H. intuition discriminate.
    + simpl. tauto.
Qed.

Lemma linestyle_tokens_witness :
  Line_set_linestyle "--:" default_line = (None, mk_line "k" 1%Q "--:") /\
  fst (Line_set_linestyle "--" default_line)
  = Some (AssertionError
            (OptionsError "Line" "ls" (Some accepted_linestyles) EmptyString))
  /\
  snd (Line_set_linestyle ":" default_line) = default_line /\
  (exists a, Line_init BASE_COLORS (np_array [0; 1]%Q) (np_array [0; 1]%Q)
                       "f" "k" 1%Q "--:" = Ok a).
Proof.
  destruct (linestyle_tokens BASE_COLORS "--:") as (_ & Hset & Hinit & _).
  destruct (linestyle_tokens BASE_COLORS "--") as (_ & Hdash & _ & Hno & _).
  destruct (linestyle_tokens BASE_COLORS ":") as (_ & Hcolon & _ & _ & Hno' & _).
  split; [|split; [|split]].
  - apply (proj1 (Hset default_line)). simpl. tauto.
  - rewrite (proj2 (proj2 (Hdash default_line) Hno)). reflexivity.
  - rewrite (proj2 (proj2 (Hcolon default_line) Hno')). reflexivity.
  - apply (proj1 (Hinit (np_array [0; 1]%Q) (np_array [0; 1]%Q)
                        (np_array [0; 1]%Q) (0%Q, 0%Q) (1%Q, 1%Q) "f" "k" 1%Q
                        eq_refl eq_refl eq_refl)).
    simpl. tauto.
Defined.

(* ------------------------------------------------------------------ *)
(** ** The colorbar                                                    *)


(** Without a name and without a mesh, the call fails on the attribute
    lookup [None.get_color]. *)
Lemma add_colorbar_no_mesh self :
  _color_mesh self = None ->
  add_colorbar None self = Raise (AttributeError "NoneType" "get_color") self.
Proof.
  intros H. unfold add_colorbar. rewrite H. reflexivity.
Qed.



(** C8.  On a new figure, which has no mesh, [add_colorbar()] raises an
    attribute error, not the not-found error that [add_colorbar] with an
    unregistered name raises.  With the name of a registered [Points]
    colored by number, the range is computed and the call then raises an
    attribute error on [get_cmap], so no colorbar is attached; with a mesh
    and no name it attaches one. *)
Theorem add_colorbar_without_mesh_raises :
  _color_mesh (new_figure "none") = None /\
  add_colorbar None (new_figure "none")
  = Raise (AttributeError "NoneType" "get_color") (new_figure "none") /\
  add_colorbar (Some "zzz") (new_figure "none")
  = Raise (NotFoundError "add Figure colorbar") (new_figure "none") /\
  Dict.get "p" (_artists figure_p) = Some points_p /\
  add_colorbar (Some "p") figure_p
  = Raise (AttributeError "Points" "get_cmap") figure_p /\
  exists with_mesh with_bar,
    add_color_mesh mesh_12 false (new_figure "none") = Return with_mesh /\
    add_colorbar None with_mesh = Return with_bar /\
    colorbars (_mpl_ax with_bar) = [mk_sm 3%Q 5%Q "plasma"].
Proof.
  repeat (split; [reflexivity|]).
  eexists _, _. repeat split; reflexivity.
Qed.

(* ------------------------------------------------------------------ *)
(** ** Reachable states                                                *)

Ltac break_match :=
  repeat first
    [ progress simpl
    | match goal with
      | |- context [match ?x with _ => _ end] => destruct x eqn:?
      end ].

Lemma same_registry_refl self : same_registry self self.
Proof. split; reflexivity. Qed.

Lemma Legend_update_same_registry self :
  same_registry self (state_of (Legend_update self)).
Proof.
  unfold Legend_update, lift.
  destruct (Dict.get_all _ _) as [handles|e]; [|split; reflexivity].
  destruct (Nat.ltb 0 (length handles)); split; reflexivity.
Qed.

Lemma Legend_remove_loop_same_registry names self :
  same_registry self (state_of (Legend_remove_loop names self)).
Proof.
  revert self. induction names as [|name r IH]; intros self;
    cbn [Legend_remove_loop].
  - split; reflexivity.
  - unfold oassert. destruct (selectable name self); cbn [obind state_of];
      [|split; reflexivity].
    destruct (Dict.pop name _) as [[a d]|]; [|split; reflexivity].
    apply (IH (with_legend_artists d self)).
Qed.

Lemma exec_same_registry c self :
  match c with
  | Call_add_artist _ _ _ | Call_remove_artist _ => True
  | _ => same_registry self (state_of (exec c self))
  end.
Proof.
  destruct c as [artist label ow|name|name v|name| |a|m ow| |names|names];
    try exact I; cbn [exec].
  - unfold set_visible, oassert. break_match; split; reflexivity.
  - unfold add_colorbar, oassert, lift. break_match; split; reflexivity.
  - unfold update_scale, lift. break_match; split; reflexivity.
  - unfold set_autoscale, oassert.
    destruct (str_in a AUTOSCALE_OPTIONS); split; reflexivity.
  - unfold add_color_mesh, remove_color_mesh.
    break_match; split; reflexivity.
  - unfold remove_color_mesh. break_match; split; reflexivity.
  - unfold Legend_add, oassert, lift.
    destruct names as [s|names].
    + destruct (String.eqb s "all"); cbn [obind state_of];
        [|split; reflexivity].
      apply (Legend_update_same_registry (with_legend_artists _ self)).
    + destruct (forallb _ names); cbn [obind state_of];
        [|split; reflexivity].
      destruct (Dict.get_all names (_artists self)); cbn [obind state_of];
        [|split; reflexivity].
      apply (Legend_update_same_registry (with_legend_artists _ self)).
  - unfold Legend_remove, oassert. destruct names as [s|names].
    + destruct (String.eqb s "all"); cbn [obind state_of];
        [|split; reflexivity].
      apply (Legend_update_same_registry (with_legend_artists _ self)).
    + pose proof (Legend_remove_loop_same_registry names self) as H.
      destruct (Legend_remove_loop names self) as [s'|e s'];
        cbn [obind state_of] in *; [|exact H].
      destruct (Legend_update_same_registry s') as [H1 H2].
      destruct H as [H3 H4]. split; congruence.
Qed.

Lemma registry_inv_same self self' :
  same_registry self self' -> registry_inv self -> registry_inv self'.
Proof.
  intros [Ha Hm] [Hnd Hk]. unfold registry_inv. rewrite Ha, Hm. auto.
Qed.

Lemma registry_inv_remove_artist name self :
  registry_inv self -> registry_inv (state_of (remove_artist name self)).
Proof.
  intros Hinv. destruct (Dict.mem name (_artists self)) eqn:E.
  - destruct (remove_artist_registered _ _ Hinv E) as (h & _ & ->).
    apply registry_inv_remove. exact Hinv.
  - rewrite (remove_artist_unregistered _ _ E). exact Hinv.
Qed.

Lemma registry_inv_add_artist_fresh artist label overwrite self :
  registry_inv self ->
  Dict.mem (get_name artist) (_artists self) = false ->
  registry_inv (state_of (add_artist artist label overwrite self)).
Proof.
  intros Hinv E.
  pose proof (add_artist_fresh_inv artist label overwrite self E) as H.
  destruct (add_artist artist label overwrite self) as [added|e self'];
    cbn [state_of].
  - destruct H as [_ ->]. apply registry_inv_add_fresh; assumption.
  - rewrite H. exact Hinv.
Qed.

Lemma registry_inv_add_artist artist label overwrite self :
  drawable artist -> registry_inv self ->
  registry_inv (state_of (add_artist artist label overwrite self)).
Proof.
  intros Hd Hinv. destruct (Dict.mem (get_name artist) (_artists self)) eqn:E.
  - destruct overwrite.
    + destruct (add_artist_overwrite_taken self artist label Hinv E)
        as (h & _ & _ & Hinv' & Hfresh & ->).
      apply registry_inv_add_artist_fresh; assumption.
    + unfold add_artist. rewrite E. exact Hinv.
  - apply registry_inv_add_artist_fresh; assumption.
Qed.

(** The registry invariant holds in every reachable state. *)
Lemma reachable_registry_inv self : reachable self -> registry_inv self.
Proof.
  induction 1 as [refuses autoscale self Hinit|c self Hreach IH Hwf].
  - apply (Figure_init_inv (new_axes refuses) autoscale self Hinit).
  - pose proof (exec_same_registry c self) as Hsame.
    destruct c; try (eapply registry_inv_same; eassumption).
    + apply registry_inv_add_artist; assumption.
    + apply registry_inv_remove_artist; assumption.
Qed.

(* ------------------------------------------------------------------ *)
(** ** Where the legend stays within the registry                      *)

Section DictFolds.
Variable V : Type.
Implicit Types (d : Dict.t V) (k : string).

Lemma mem_fold_set k (items : list (string * V)) d :
  Dict.mem k (fold_left (fun acc kv => Dict.set (fst kv) (snd kv) acc)
                        items d)
  = (Dict.mem k d || Dict.mem k items)%bool.
Proof.
  revert d. induction items as [|[k' v'] r IH]; intros d; simpl.
  - rewrite orb_false_r. reflexivity.
  - rewrite IH, mem_set.
    destruct (String.eqb k k'), (Dict.mem k d); reflexivity.
Qed.

Lemma mem_update k d d' :
  Dict.mem k (Dict.update d d') = (Dict.mem k d || Dict.mem k d')%bool.
Proof. apply mem_fold_set. Qed.

Lemma mem_of_items k (items : list (string * V)) :
  Dict.mem k (Dict.of_items items) = Dict.mem k items.
Proof. unfold Dict.of_items. rewrite mem_fold_set. reflexivity. Qed.

Lemma mem_filter k (p : string * V -> bool) d :
  Dict.mem k (filter p d) = true -> Dict.mem k d = true.
Proof.
  induction d as [|[k' v'] r IH]; simpl; auto.
  destruct (p (k', v')); simpl; destruct (String.eqb k k'); auto.
Qed.

Lemma mem_combine k (names : list string) (values : list V) :
  Dict.mem k (combine names values) = true -> In k names.
Proof.
  revert values. induction names as [|n r IH]; intros [|v vs]; simpl;
    try discriminate.
  destruct (String.eqb_spec k n) as [->|Hne]; [auto|].
  intros H. right. eapply IH; eauto.
Qed.
End DictFolds.

Lemma Legend_update_leaves_subset self :
  LegendState._artists (legend (state_of (Legend_update self)))
  = LegendState._artists (legend self).
Proof.
  unfold Legend_update, lift.
  destruct (Dict.get_all _ _) as [handles|e]; [|reflexivity].
  destruct (Nat.ltb 0 (length handles)); reflexivity.
Qed.

Lemma selectable_registered name self :
  selectable name self = true -> Dict.mem name (_artists self) = true.
Proof. unfold selectable. intros H. apply andb_prop in H. tauto. Qed.

(** [Legend.add] keeps the subset within the registry, and so does a call
    that it rejects. *)
Lemma Legend_add_subset names self :
  legend_subset self -> legend_subset (state_of (Legend_add names self)).
Proof.
  intros Hsub. unfold Legend_add, oassert, lift.
  destruct names as [s|names].
  - destruct (String.eqb s "all"); cbn [obind state_of]; [|exact Hsub].
    intros name. rewrite Legend_update_leaves_subset.
    destruct (Legend_update_same_registry (with_legend_artists
      (Dict.of_items (filter (fun kv => negb (isinstance_Text (snd kv)))
                             (_artists self))) self)) as [-> _].
    cbn. rewrite mem_of_items. apply mem_filter.
  - destruct (forallb _ names) eqn:Hall; cbn [obind state_of]; [|exact Hsub].
    destruct (Dict.get_all names (_artists self)) as [artists|e];
      cbn [obind state_of]; [|exact Hsub].
    intros name. rewrite Legend_update_leaves_subset.
    destruct (Legend_update_same_registry (with_legend_artists
      (Dict.update (LegendState._artists (legend self))
                   (Dict.of_items (combine names artists))) self)) as [-> _].
    cbn. rewrite mem_update, mem_of_items. intros H.
    apply orb_prop in H. destruct H as [H|H]; [apply Hsub; exact H|].
    apply mem_combine in H. rewrite forallb_forall in Hall.
    apply selectable_registered. apply Hall. exact H.
Qed.

Lemma Legend_remove_loop_subset names self :
  legend_subset self ->
  legend_subset (state_of (Legend_remove_loop names self)).
Proof.
  revert self. induction names as [|name r IH]; intros self Hsub;
    cbn [Legend_remove_loop]; [exact Hsub|].
  unfold oassert. destruct (selectable name self); cbn [obind state_of];
    [|exact Hsub].
  unfold Dict.pop. destruct (Dict.get name _); [|exact Hsub].
  apply IH. intros k H. cbn in H. apply mem_remove_true in H.
  apply Hsub. exact H.
Qed.

(** [Legend.remove] keeps the subset within the registry, also when it
    raises half way. *)
Lemma Legend_remove_subset names self :
  legend_subset self -> legend_subset (state_of (Legend_remove names self)).
Proof.
  intros Hsub. unfold Legend_remove, oassert. destruct names as [s|names].
  - destruct (String.eqb s "all"); cbn [obind state_of]; [|exact Hsub].
    intros name. rewrite Legend_update_leaves_subset. discriminate.
  - pose proof (Legend_remove_loop_subset names self Hsub) as H.
    destruct (Legend_remove_loop names self) as [s'|e s'];
      cbn [obind state_of] in *; [|exact H].
    intros name. rewrite Legend_update_leaves_subset.
    destruct (Legend_update_same_registry s') as [-> _]. apply H.
Qed.

(** [remove_artist] keeps the subset within the registry when the name
    removed is not in the legend. *)
Lemma remove_artist_subset name self :
  legend_subset self ->
  Dict.mem name (LegendState._artists (legend self)) = false ->
  legend_subset (state_of (remove_artist name self)).
Proof.
  intros Hsub Hout k. rewrite remove_artist_leaves_legend. intros Hk.
  assert (Hne : k <> name) by congruence.
  specialize (Hsub k Hk).
  unfold remove_artist, oassert.
  destruct (Dict.mem name (_artists self)); cbn [obind state_of];
    [|exact Hsub].
  destruct (Dict.pop name _) as [[h rest]|]; cbn;
    rewrite mem_remove_other by exact Hne; exact Hsub.
Qed.

(** [add_artist] keeps the subset within the registry whenever it
    returns. *)
Lemma add_artist_subset artist label overwrite self added :
  registry_inv self ->
  legend_subset self ->
  add_artist artist label overwrite self = Return added ->
  legend_subset added.
Proof.
  intros Hinv Hsub Hadd k.
  pose proof (add_artist_leaves_legend artist label overwrite self) as Hl.
  rewrite Hadd in Hl. cbn [state_of] in Hl. rewrite Hl. intros Hk.
  specialize (Hsub k Hk).
  destruct (Dict.mem (get_name artist) (_artists self)) eqn:E.
  - destruct overwrite.
    + destruct (add_artist_overwrite_taken self artist label Hinv E)
        as (h & _ & _ & _ & Hfresh & Hsame).
      cbv zeta in Hfresh, Hsame. rewrite Hsame in Hadd.
      pose proof (add_artist_fresh_inv artist label false _ Hfresh) as H.
      rewrite Hadd in H. destruct H as [_ ->].
      cbn. rewrite mem_set.
      destruct (String.eqb_spec k (get_name artist)) as [->|Hne];
        [reflexivity|].
      rewrite mem_remove_other by exact Hne. exact Hsub.
    + unfold add_artist in Hadd. rewrite E in Hadd. discriminate Hadd.
  - pose proof (add_artist_fresh_inv artist label overwrite self E) as H.
    rewrite Hadd in H. destruct H as [_ ->].
    cbn. rewrite mem_set. rewrite Hsub. apply orb_true_r.
Qed.

Lemma get_all_registered {V : Type} (ks : list string) (d : Dict.t V) :
  (forall k, In k ks -> Dict.mem k d = true) ->
  exists vs, Dict.get_all ks d = Ok vs.
Proof.
  induction ks as [|k r IH]; intros H; simpl.
  - exists []. reflexivity.
  - destruct (proj1 (mem_get _ k d) (H k (or_introl eq_refl))) as [v ->].
    destruct IH as [vs ->]; [intros k' Hk'; apply H; right; exact Hk'|].
    exists (v :: vs). reflexivity.
Qed.

(** The recompute returns when the subset is within the registry. *)
Lemma Legend_update_returns self :
  registry_inv self -> legend_subset self ->
  exists self', Legend_update self = Return self'.
Proof.
  intros [_ Hkeys] Hsub. unfold Legend_update, lift.
  destruct (get_all_registered
              (Dict.keys (LegendState._artists (legend self)))
              (_mpl_artists self)) as [handles ->].
  - intros k Hk. rewrite (mem_same_keys _ k _ _ Hkeys).
    apply Hsub. apply mem_In. exact Hk.
  - destruct (Nat.ltb 0 (length handles)); eexists; reflexivity.
Qed.

(** [Legend.add] of names that are all registered and not [Text] returns,
    in a state where the subset is within the registry. *)
Lemma Legend_add_returns names self :
  registry_inv self -> legend_subset self ->
  forallb (fun name => selectable name self) names = true ->
  exists self', Legend_add (NamesSeq names) self = Return self'.
Proof.
  intros Hinv Hsub Hall.
  pose proof (Legend_add_subset (NamesSeq names) self Hsub) as Hsub'.
  pose proof (exec_same_registry (Call_Legend_add (NamesSeq names)) self)
    as Hsame. cbn [exec] in Hsame.
  unfold Legend_add, oassert, lift in *. rewrite Hall in *.
  cbn [obind] in *.
  destruct (get_all_selectable names self Hall) as (artists & Hget & _).
  rewrite Hget in *.
  set (stored := with_legend_artists _ self) in *.
  assert (Hinv' : registry_inv stored) by exact Hinv.
  assert (Hstored : legend_subset stored).
  { intros k Hk. rewrite <- Legend_update_leaves_subset in Hk.
    specialize (Hsub' k Hk). destruct Hsame as [Ha _].
    rewrite Ha in Hsub'. exact Hsub'. }
  apply Legend_update_returns; assumption.
Qed.

(* ------------------------------------------------------------------ *)
(** ** More on the registry                                            *)

Section DictLookups.
Variable V : Type.
Implicit Types (d : Dict.t V) (k : string) (v : V).

Lemma get_set_other k k' v d :
  k <> k' -> Dict.get k (Dict.set k' v d) = Dict.get k d.
Proof.
  intros Hne. induction d as [|[k1 v1] r IH]; simpl.
  - destruct (String.eqb_spec k k'); congruence.
  - destruct (String.eqb_spec k' k1) as [->|Hne1]; simpl.
    + destruct (String.eqb_spec k k1); congruence.
    + rewrite IH. reflexivity.
Qed.

Lemma get_remove_other k k' d :
  k <> k' -> Dict.get k (Dict.remove k' d) = Dict.get k d.
Proof.
  intros Hne. induction d as [|[k1 v1] r IH]; simpl; auto.
  destruct (String.eqb_spec k' k1) as [->|Hne1]; simpl.
  - destruct (String.eqb_spec k k1); congruence.
  - rewrite IH. reflexivity.
Qed.

Lemma get_None_mem k d : Dict.get k d = None <-> Dict.mem k d = false.
Proof.
  induction d as [|[k1 v1] r IH]; simpl; [tauto|].
  destruct (String.eqb k k1); [split; discriminate | exact IH].
Qed.

End DictLookups.

(** The state [add_artist] draws into: the figure itself when the name is
    free, the figure without the old entry when it overwrites. *)
Lemma add_artist_returns self p label overwrite :
  registry_inv self -> drawable p ->
  Dict.mem (get_name p) (_artists self) = false \/ overwrite = true ->
  mpl_refuses (_mpl_ax self) (draw_request p label) = None ->
  let pre := if Dict.mem (get_name p) (_artists self)
             then state_of (remove_artist (get_name p) self) else self in
  let label' := if String.eqb label EmptyString then get_name p else label in
  registry_inv pre /\
  Dict.mem (get_name p) (_artists pre) = false /\
  add_artist p label overwrite self
  = Return
      (with_artists (Dict.set (get_name p) p (_artists pre))
         (with_mpl_artists
            (Dict.set (get_name p) (next_id (_mpl_ax pre)) (_mpl_artists pre))
            (with_mpl_ax
               (snd (mpl_draw (mpl_kind_for p) (mpl_label_for p label')
                              (_mpl_ax pre)))
               pre))).
Proof.
  intros Hinv Hd Hcase Hacc pre label'. subst pre.
  destruct (Dict.mem (get_name p) (_artists self)) eqn:E.
  - destruct Hcase as [Hcase| ->]; [discriminate|].
    destruct (add_artist_overwrite_taken self p label Hinv E)
      as (h & _ & Hrm & Hinv' & Hfresh & Hsame).
    cbv zeta in Hrm, Hinv', Hfresh, Hsame.
    rewrite Hrm. cbn [state_of].
    split; [exact Hinv'|]. split; [exact Hfresh|].
    rewrite Hsame.
    apply (add_artist_fresh p label false _ Hd Hfresh). exact Hacc.
  - split; [exact Hinv|]. split; [exact E|].
    apply (add_artist_fresh p label overwrite self Hd E Hacc).
Qed.

(** What [add_artist] leaves, whatever the artist.  It returns only when
    the name is free or [overwrite] is set and the axes accepted the call,
    with the artist and its handle stored in the state it drew into.  When
    it raises, the figure is as it was, unless it was overwriting: then
    the old entry is gone. *)
Lemma add_artist_inv self p label overwrite :
  registry_inv self ->
  let pre := if Dict.mem (get_name p) (_artists self)
             then state_of (remove_artist (get_name p) self) else self in
  let label' := if String.eqb label EmptyString then get_name p else label in
  match add_artist p label overwrite self with
  | Return added =>
      (Dict.mem (get_name p) (_artists self) = false \/ overwrite = true) /\
      registry_inv pre /\
      Dict.mem (get_name p) (_artists pre) = false /\
      mpl_refuses (_mpl_ax self) (draw_request p label) = None /\
      added
      = with_artists (Dict.set (get_name p) p (_artists pre))
          (with_mpl_artists
             (Dict.set (get_name p) (next_id (_mpl_ax pre))
                       (_mpl_artists pre))
             (with_mpl_ax
                (snd (mpl_draw (mpl_kind_for p) (mpl_label_for p label')
                               (_mpl_ax pre)))
                pre))
  | Raise _ self' =>
      self' = self \/
      (Dict.mem (get_name p) (_artists self) = true /\ overwrite = true /\
       self' = pre /\ registry_inv pre /\
       Dict.mem (get_name p) (_artists pre) = false)
  end.
Proof.
  intros Hinv pre label'. subst pre label'.
  destruct (Dict.mem (get_name p) (_artists self)) eqn:E.
  - destruct overwrite.
    + destruct (add_artist_overwrite_taken self p label Hinv E)
        as (h & _ & Hrm & Hinv' & Hfresh & Hsame).
      cbv zeta in Hrm, Hinv', Hfresh, Hsame.
      rewrite Hrm, Hsame. cbn [state_of].
      pose proof (add_artist_fresh_inv p label false _ Hfresh) as H.
      destruct (add_artist p label false _) as [added|e self'].
      * destruct H as [Hacc ->].
        split; [right; reflexivity|]. split; [exact Hinv'|].
        split; [exact Hfresh|]. split; [exact Hacc | reflexivity].
      * right. rewrite H. do 3 (split; [reflexivity|]).
        split; [exact Hinv' | exact Hfresh].
    + unfold add_artist. rewrite E. left. reflexivity.
  - pose proof (add_artist_fresh_inv p label overwrite self E) as H.
    destruct (add_artist p label overwrite self) as [added|e self'].
    + destruct H as [Hacc ->].
      split; [left; reflexivity|]. split; [exact Hinv|].
      split; [exact E|]. split; [exact Hacc | reflexivity].
    + left. exact H.
Qed.

(** X1.  [remove_artist] of a name that is not registered raises the
    not-found error and changes nothing.  Of a registered name it returns:
    the name is gone from both mappings, every other name maps to what it
    mapped to, and the handle of the removed artist is no longer on the
    axes. *)
Theorem remove_artist_effect (name : string) (self : Figure) :
  registry_inv self ->
  (Dict.mem name (_artists self) = false ->
   remove_artist name self
   = Raise (NotFoundError "remove Artist from Figure") self) /\
  (Dict.mem name (_artists self) = true ->
   exists h removed,
     Dict.get name (_mpl_artists self) = Some h /\
     remove_artist name self = Return removed /\
     Dict.get name (_artists removed) = None /\
     Dict.get name (_mpl_artists removed) = None /\
     (forall k, k <> name ->
        Dict.get k (_artists removed) = Dict.get k (_artists self) /\
        Dict.get k (_mpl_artists removed) = Dict.get k (_mpl_artists self)) /\
     (forall c, In c (children (_mpl_ax removed)) ->
        In c (children (_mpl_ax self)) /\ mpl_id c <> h) /\
     legend removed = legend self /\
     registry_inv removed).
Proof.
  intros Hinv. split; [apply remove_artist_unregistered|].
  intros Hmem.
  destruct (remove_artist_registered _ _ Hinv Hmem) as (h & Hh & Hrm).
  eexists h, _. split; [exact Hh|]. split; [exact Hrm|].
  pose proof (registry_inv_remove name self h Hinv) as Hinv'.
  cbn. split; [|split; [|split; [|split; [|split]]]].
  - apply get_None_mem, mem_remove_same, Hinv.
  - apply get_None_mem.
    rewrite (mem_same_keys _ name _ (Dict.remove name (_artists self))).
    + apply mem_remove_same, Hinv.
    + apply keys_remove_same_keys, Hinv.
  - intros k Hne. split; apply get_remove_other; exact Hne.
  - intros c Hc. apply filter_In in Hc. destruct Hc as [Hin Hid].
    split; [exact Hin|]. apply negb_true_iff in Hid.
    apply Nat.eqb_neq. exact Hid.
  - reflexivity.
  - exact Hinv'.
Qed.

Lemma remove_artist_effect_witness :
  registry_inv figure_f /\
  Dict.mem "f" (_artists figure_f) = true /\
  Dict.mem "g" (_artists figure_f) = false /\
  remove_artist "g" figure_f
  = Raise (NotFoundError "remove Artist from Figure") figure_f /\
  exists removed,
    remove_artist "f" figure_f = Return removed /\
    Dict.get "f" (_artists removed) = None /\
    children (_mpl_ax removed) = [].
Proof.
  assert (H1 : registry_inv figure_f).
  { split; [|reflexivity]. constructor; [simpl; tauto | constructor]. }
  destruct (remove_artist_effect "g" figure_f H1) as [Hg _].
  destruct (remove_artist_effect "f" figure_f H1) as [_ Hf].
  destruct (Hf eq_refl) as (h & removed & _ & Hrm & Hnone & _).
  split; [exact H1|]. split; [reflexivity|]. split; [reflexivity|].
  split; [exact (Hg eq_refl)|].
  exists removed. split; [exact Hrm|]. split; [exact Hnone|].
  assert (E : Return removed = remove_artist "f" figure_f)
    by (symmetry; exact Hrm).
  vm_compute in E. injection E as ->. reflexivity.
Defined.

(** X2.  In every state a figure can reach, whether its calls returned or
    raised, the keys of [_artists] are pairwise distinct and [_mpl_artists]
    has the same keys in the same order: each registered artist has a
    handle and each handle an artist. *)
Theorem reachable_keys_agree (self : Figure) :
  reachable self ->
  NoDup (Dict.keys (_artists self)) /\
  Dict.keys (_mpl_artists self) = Dict.keys (_artists self) /\
  forall name,
    Dict.mem name (_artists self) = Dict.mem name (_mpl_artists self).
Proof.
  intros H. destruct (reachable_registry_inv self H) as [Hnd Hk].
  split; [exact Hnd|]. split; [exact Hk|].
  intros name. symmetry. apply mem_same_keys. exact Hk.
Qed.

Lemma reachable_figure_f : reachable figure_f.
Proof.
  apply (@reachable_call (Call_add_artist line_f EmptyString false)
                         (new_figure "none")).
  - apply (@reachable_init refuse_linestyle "none"). reflexivity.
  - exact I.
Qed.

Lemma reachable_keys_agree_witness :
  reachable figure_f /\
  Dict.keys (_mpl_artists figure_f) = Dict.keys (_artists figure_f) /\
  Dict.keys (_artists figure_f) = ["f"].
Proof.
  split; [exact reachable_figure_f|].
  split; [|reflexivity].
  apply (reachable_keys_agree figure_f reachable_figure_f).
Defined.

(** X3.  [set_visible] of a name that is not registered raises the
    not-found error and changes nothing.  Of a registered name it returns
    and only sets the flag of that artist's handle: the mappings, the
    legend and the handles on the axes with their order are as before, and
    so is every other handle's flag. *)
Theorem set_visible_effect (name : string) (visibility : bool)
    (self : Figure) :
  registry_inv self ->
  (Dict.mem name (_artists self) = false ->
   set_visible name visibility self
   = Raise (NotFoundError "set Artist visibility") self) /\
  (Dict.mem name (_artists self) = true ->
   exists h after,
     Dict.get name (_mpl_artists self) = Some h /\
     set_visible name visibility self = Return after /\
     _artists after = _artists self /\
     _mpl_artists after = _mpl_artists self /\
     legend after = legend self /\
     map mpl_id (children (_mpl_ax after))
     = map mpl_id (children (_mpl_ax self)) /\
     (forall c, In c (children (_mpl_ax after)) ->
        mpl_id c = h -> mpl_visible c = visibility) /\
     (forall c, In c (children (_mpl_ax self)) ->
        mpl_id c <> h -> In c (children (_mpl_ax after)))).
Proof.
  intros [Hnd Hkeys]. split.
  - intros H. unfold set_visible, oassert. rewrite H. reflexivity.
  - intros Hmem.
    assert (Hm : Dict.mem name (_mpl_artists self) = true)
      by (rewrite (mem_same_keys _ name _ _ Hkeys); exact Hmem).
    apply mem_get in Hm. destruct Hm as [h Hh].
    eexists h, _. split; [exact Hh|]. split.
    { unfold set_visible, oassert. rewrite Hmem. cbn [obind].
      rewrite Hh. reflexivity. }
    cbn. repeat (split; [reflexivity|]). split; [|split].
    + rewrite map_map. apply map_ext. intros c.
      destruct (Nat.eqb (mpl_id c) h); reflexivity.
    + intros c Hc Hid. apply in_map_iff in Hc.
      destruct Hc as (c0 & Hc0 & _).
      destruct (Nat.eqb_spec (mpl_id c0) h) as [E|E]; subst c.
      * reflexivity.
      * cbn in Hid. congruence.
    + intros c Hc Hid. apply in_map_iff. exists c. split; [|exact Hc].
      destruct (Nat.eqb_spec (mpl_id c) h); [congruence | reflexivity].
Qed.

Lemma set_visible_effect_witness :
  registry_inv figure_f /\
  Dict.mem "f" (_artists figure_f) = true /\
  exists after,
    set_visible "f" false figure_f = Return after /\
    _artists after = _artists figure_f /\
    children (_mpl_ax after) = [mk_mpl 0 Line2D "f" false].
Proof.
  assert (H1 : registry_inv figure_f).
  { split; [|reflexivity]. constructor; [simpl; tauto | constructor]. }
  destruct (set_visible_effect "f" false figure_f H1) as [_ Hf].
  destruct (Hf eq_refl) as (h & after & _ & Hset & Ha & _).
  split; [exact H1|]. split; [reflexivity|].
  exists after. split; [exact Hset|]. split; [exact Ha|].
  assert (E : Return after = set_visible "f" false figure_f)
    by (symmetry; exact Hset).
  vm_compute in E. injection E as ->. reflexivity.
Defined.

(** The state [add_artist] draws into keeps every other name. *)
Lemma add_artist_pre_others self p :
  registry_inv self ->
  let pre := if Dict.mem (get_name p) (_artists self)
             then state_of (remove_artist (get_name p) self) else self in
  forall k, k <> get_name p ->
    Dict.get k (_artists pre) = Dict.get k (_artists self) /\
    Dict.mem k (_mpl_artists pre) = Dict.mem k (_mpl_artists self).
Proof.
  intros Hinv pre k Hne. subst pre.
  destruct (Dict.mem (get_name p) (_artists self)) eqn:E;
    [|split; reflexivity].
  destruct (remove_artist_registered _ _ Hinv E) as (h & _ & ->).
  cbn. split; [apply get_remove_other | apply mem_remove_other]; exact Hne.
Qed.

(** X4.  Lookup after [add_artist]: whenever the call returns, the name
    maps to the artist passed while every other name maps to what it
    mapped to; a name has a handle afterwards exactly when it had one
    before or is the new name.  The call returns exactly when the name is
    free or [overwrite] is set, [_add_mpl_artist] reaches its drawing call
    and the axes accept it. *)
Theorem add_artist_lookup (self : Figure) (p : Artist) (label : string)
    (overwrite : bool) :
  registry_inv self ->
  (forall added,
      add_artist p label overwrite self = Return added ->
      Dict.get (get_name p) (_artists added) = Some p /\
      (forall k, k <> get_name p ->
         Dict.get k (_artists added) = Dict.get k (_artists self)) /\
      (forall k, Dict.mem k (_mpl_artists added)
                 = (String.eqb k (get_name p)
                    || Dict.mem k (_mpl_artists self))%bool) /\
      registry_inv added) /\
  (drawable p ->
   ((exists added, add_artist p label overwrite self = Return added) <->
    (Dict.mem (get_name p) (_artists self) = false \/ overwrite = true) /\
    mpl_refuses (_mpl_ax self) (draw_request p label) = None)).
Proof.
  intros Hinv. split.
  - intros added Hadd.
    pose proof (add_artist_inv self p label overwrite Hinv) as H.
    cbv zeta in H. rewrite Hadd in H.
    destruct H as (_ & Hinv' & Hfresh & _ & ->).
    pose proof (add_artist_pre_others self p Hinv) as Hpre.
    cbv zeta in Hpre.
    cbn. split; [apply get_set_same|]. split; [|split].
    + intros k Hne. rewrite get_set_other by exact Hne. apply Hpre, Hne.
    + intros k. rewrite mem_set.
      destruct (String.eqb_spec k (get_name p)) as [->|Hne]; [reflexivity|].
      cbn. apply Hpre, Hne.
    + apply registry_inv_add_fresh; assumption.
  - intros Hd. split.
    + intros [added Hadd].
      pose proof (add_artist_inv self p label overwrite Hinv) as H.
      cbv zeta in H. rewrite Hadd in H.
      destruct H as (Hcase & _ & _ & Hacc & _). split; assumption.
    + intros [Hcase Hacc].
      destruct (add_artist_returns self p label overwrite Hinv Hd Hcase Hacc)
        as (_ & _ & Hadd).
      eexists. exact Hadd.
Qed.

Lemma add_artist_lookup_witness :
  let added := state_of (add_artist (text "t") EmptyString false figure_f) in
  registry_inv figure_f /\
  add_artist (text "t") EmptyString false figure_f = Return added /\
  Dict.get "t" (_artists added) = Some (text "t") /\
  Dict.get "f" (_artists added) = Some line_f.
Proof.
  intros added.
  assert (H1 : registry_inv figure_f).
  { split; [|reflexivity]. constructor; [simpl; tauto | constructor]. }
  assert (H2 : add_artist (text "t") EmptyString false figure_f
               = Return added) by reflexivity.
  destruct (add_artist_lookup figure_f (text "t") EmptyString false H1)
    as [Hret _].
  destruct (Hret added H2) as (Hnew & Hold & _).
  split; [exact H1|]. split; [exact H2|]. split; [exact Hnew|].
  rewrite (Hold "f"); [reflexivity | discriminate].
Defined.

(** X5.  Order after [add_artist]: whenever the call returns, the name is
    at the end of the iteration order of [_artists], an overwritten name
    having left its old place; the new handle is the last object on the
    axes, so it is drawn on top; it is visible, and its label is the label
    passed, or the artist's name when the label is empty, except for a
    [Text], whose annotation has no label. *)
Theorem add_artist_goes_last (self : Figure) (p : Artist) (label : string)
    (overwrite : bool) (added : Figure) :
  registry_inv self ->
  add_artist p label overwrite self = Return added ->
  exists h below,
    Dict.keys (_artists added)
    = Dict.keys (Dict.remove (get_name p) (_artists self)) ++ [get_name p] /\
    Dict.get (get_name p) (_mpl_artists added) = Some h /\
    children (_mpl_ax added)
    = below ++ [mk_mpl h (mpl_kind_for p)
                  (if isinstance_Text p then EmptyString
                   else if String.eqb label EmptyString then get_name p
                        else label)
                  true] /\
    (forall c, In c below -> In c (children (_mpl_ax self))).
Proof.
  intros Hinv Hadd.
  pose proof (add_artist_inv self p label overwrite Hinv) as H.
  cbv zeta in H. rewrite Hadd in H.
  destruct H as (_ & Hinv' & Hfresh & _ & ->).
  set (pre := if Dict.mem (get_name p) (_artists self)
              then state_of (remove_artist (get_name p) self) else self) in *.
  exists (next_id (_mpl_ax pre)), (children (_mpl_ax pre)).
  cbn. split; [|split; [|split]].
  - change (map fst (Dict.set (get_name p) p (_artists pre)))
      with (Dict.keys (Dict.set (get_name p) p (_artists pre))).
    rewrite keys_set_fresh by exact Hfresh. f_equal.
    subst pre. destruct (Dict.mem (get_name p) (_artists self)) eqn:E.
    + destruct (remove_artist_registered _ _ Hinv E) as (h & _ & ->).
      reflexivity.
    + clear -E. induction (_artists self) as [|[k v] r IH]; simpl in *; auto.
      destruct (String.eqb (get_name p) k); [discriminate|].
      simpl. rewrite <- IH; auto.
  - apply get_set_same.
  - f_equal. f_equal. destruct p; reflexivity.
  - intros c Hc. subst pre.
    destruct (Dict.mem (get_name p) (_artists self)) eqn:E; [|exact Hc].
    destruct (remove_artist_registered _ _ Hinv E) as (h & _ & Hrm).
    rewrite Hrm in Hc. cbn in Hc. apply filter_In in Hc. tauto.
Qed.

Lemma add_artist_goes_last_witness :
  let figure_ft :=
    state_of (add_artist (text "t") EmptyString false figure_f) in
  let added := state_of (add_artist second_f EmptyString true figure_ft) in
  registry_inv figure_ft /\
  Dict.keys (_artists figure_ft) = ["f"; "t"] /\
  add_artist second_f EmptyString true figure_ft = Return added /\
  Dict.keys (_artists added) = ["t"; "f"] /\
  children (_mpl_ax added)
  = [mk_mpl 1 Annotation EmptyString true; mk_mpl 2 Line2D "f" true].
Proof.
  intros figure_ft added.
  assert (H1 : registry_inv figure_ft).
  { split; [|reflexivity].
    constructor; [simpl; intuition discriminate|].
    constructor; [simpl; tauto | constructor]. }
  assert (H2 : add_artist second_f EmptyString true figure_ft = Return added)
    by reflexivity.
  destruct (add_artist_goes_last figure_ft second_f EmptyString true added
              H1 H2)
    as (h & below & Hkeys & _).
  split; [exact H1|]. split; [reflexivity|]. split; [exact H2|].
  split; [exact Hkeys | reflexivity].
Defined.

(* ------------------------------------------------------------------ *)
(** ** Handles and the mesh slot                                       *)

Section DictValues.
Variable V : Type.
Implicit Types (d : Dict.t V) (k : string) (v : V).

Lemma values_set_fresh k v d :
  Dict.mem k d = false -> Dict.values (Dict.set k v d) = Dict.values d ++ [v].
Proof.
  intros H. rewrite (set_fresh _ _ _ _ H). unfold Dict.values.
  rewrite map_app. reflexivity.
Qed.

Lemma In_values_remove k v d :
  In v (Dict.values (Dict.remove k d)) -> In v (Dict.values d).
Proof.
  induction d as [|[k1 v1] r IH]; simpl; auto.
  destruct (String.eqb k k1); simpl; intuition.
Qed.

Lemma NoDup_values_remove k d :
  NoDup (Dict.values d) -> NoDup (Dict.values (Dict.remove k d)).
Proof.
  induction d as [|[k1 v1] r IH]; simpl; auto.
  intros H. inversion H as [|? ? Hn Hr]; subst.
  destruct (String.eqb k k1); simpl; auto.
  constructor; auto. intros Hin. apply Hn. eapply In_values_remove; eauto.
Qed.

Lemma get_In_values k v d : Dict.get k d = Some v -> In v (Dict.values d).
Proof.
  induction d as [|[k1 v1] r IH]; simpl; [discriminate|].
  destruct (String.eqb k k1); [intros E; injection E; auto | auto].
Qed.

Lemma In_values_remove_iff k v x d :
  NoDup (Dict.values d) -> Dict.get k d = Some v ->
  (In x (Dict.values (Dict.remove k d)) <-> In x (Dict.values d) /\ x <> v).
Proof.
  induction d as [|[k1 v1] r IH]; simpl; [discriminate|].
  intros H. inversion H as [|? ? Hn Hr]; subst.
  destruct (String.eqb k k1).
  - intros E. injection E as <-. split.
    + intros Hx. split; [auto | congruence].
    + intros [[E|Hx] Hne]; [congruence | exact Hx].
  - intros E. simpl. rewrite (IH Hr E). split.
    + intros [<-|[Hx Hne]]; [|tauto]. split; [auto|].
      intros ->. apply Hn. eapply get_In_values; eauto.
    + intros [[<-|Hx] Hne]; tauto.
Qed.
End DictValues.

Lemma NoDup_app_disjoint {A : Type} (l q : list A) x :
  NoDup (l ++ q) -> In x l -> ~ In x q.
Proof.
  induction l as [|a l IH]; simpl; [tauto|].
  intros H. inversion H as [|? ? Hn Hr]; subst.
  intros [<-|Hx] Hq; [|exact (IH Hr Hx Hq)].
  apply Hn. apply in_or_app. right. exact Hq.
Qed.

Lemma child_ids_remove h ax :
  map mpl_id (children (mpl_remove h ax))
  = filter (fun i => negb (Nat.eqb i h)) (map mpl_id (children ax)).
Proof.
  cbn. induction (children ax) as [|c r IH]; simpl; auto.
  destruct (Nat.eqb (mpl_id c) h); simpl; rewrite IH; reflexivity.
Qed.

Lemma In_filter_ne h x (l : list nat) :
  In x (filter (fun i => negb (Nat.eqb i h)) l) <-> In x l /\ x <> h.
Proof.
  rewrite filter_In, negb_true_iff, Nat.eqb_neq. tauto.
Qed.

Lemma figure_inv_same_frame self self' :
  same_frame self self' -> figure_inv self -> figure_inv self'.
Proof.
  intros (Ha & Hm & Hc & Hq & Hi & Hn) (Hreg & Hmesh & Hh).
  unfold figure_inv, registry_inv, mesh_inv, handles_inv, owned_ids in *.
  rewrite Ha, Hm, Hc, Hq, Hi, Hn. auto.
Qed.

(** Drawing one more object and keeping its handle, under a new name or in
    the empty mesh slot. *)
Lemma handles_inv_draw_artist name kind label self :
  handles_inv self ->
  Dict.mem name (_mpl_artists self) = false ->
  handles_inv
    (with_mpl_artists
       (Dict.set name (next_id (_mpl_ax self)) (_mpl_artists self))
       (with_mpl_ax (snd (mpl_draw kind label (_mpl_ax self))) self)).
Proof.
  intros (Hnd & Hlt & Hown & Hiff) Hfresh.
  unfold handles_inv, child_ids, owned_ids in *.
  cbn [_mpl_ax _mpl_artists _mpl_quad_mesh with_mpl_ax with_mpl_artists
       children mpl_draw snd next_id].
  rewrite values_set_fresh by exact Hfresh. rewrite map_app.
  cbn [map mpl_id].
  set (n := next_id (_mpl_ax self)) in *.
  set (ids := map mpl_id (children (_mpl_ax self))) in *.
  set (vals := Dict.values (_mpl_artists self)) in *.
  set (quad := match _mpl_quad_mesh self with
               | Some h => [h] | None => [] end) in *.
  assert (Hnew : ~ In n ids) by (intros H; apply Hlt in H; lia).
  assert (Hnew' : ~ In n (vals ++ quad)) by (rewrite Hiff; exact Hnew).
  split; [|split; [|split]].
  - apply NoDup_app; auto.
    + constructor; [intros []|constructor].
    + intros x Hx [<-|[]]. auto.
  - intros h Hh. apply in_app_or in Hh. destruct Hh as [Hh|[<-|[]]];
      [apply Hlt in Hh|]; lia.
  - rewrite <- app_assoc. apply NoDup_app.
    + eapply NoDup_app_remove_r; eauto.
    + constructor.
      * intros H. apply Hnew'. apply in_or_app. right. exact H.
      * eapply NoDup_app_remove_l; eauto.
    + intros x Hx [<-|Hq].
      * apply Hnew'. apply in_or_app. left. exact Hx.
      * eapply NoDup_app_disjoint; eauto.
  - intros h. rewrite !in_app_iff. cbn. rewrite <- Hiff, in_app_iff. tauto.
Qed.

Lemma handles_inv_remove_artist name h self :
  handles_inv self ->
  Dict.get name (_mpl_artists self) = Some h ->
  handles_inv
    (with_mpl_ax (mpl_remove h (_mpl_ax self))
       (with_mpl_artists (Dict.remove name (_mpl_artists self)) self)).
Proof.
  intros (Hnd & Hlt & Hown & Hiff) Hget.
  unfold handles_inv, child_ids, owned_ids in *. cbn [_mpl_ax _mpl_artists
    _mpl_quad_mesh with_mpl_ax with_mpl_artists].
  rewrite child_ids_remove. cbn [next_id mpl_remove].
  set (ids := map mpl_id (children (_mpl_ax self))) in *.
  set (vals := Dict.values (_mpl_artists self)) in *.
  set (quad := match _mpl_quad_mesh self with
               | Some h => [h] | None => [] end) in *.
  assert (Hvals : NoDup vals) by (eapply NoDup_app_remove_r; eauto).
  assert (Hquad : ~ In h quad).
  { eapply NoDup_app_disjoint; eauto. eapply get_In_values; eauto. }
  split; [|split; [|split]].
  - apply NoDup_filter. exact Hnd.
  - intros x Hx. apply In_filter_ne in Hx. apply Hlt. tauto.
  - apply NoDup_app.
    + apply NoDup_values_remove. exact Hvals.
    + eapply NoDup_app_remove_l; eauto.
    + intros x Hx. eapply NoDup_app_disjoint; eauto.
      eapply In_values_remove; eauto.
  - intros x. rewrite In_filter_ne, <- Hiff, !in_app_iff.
    rewrite (In_values_remove_iff _ name h x _ Hvals Hget).
    split; [intros [[Hx Hne]|Hq]|intros [[Hx|Hq] Hne]]; try tauto.
    split; [tauto|]. intros ->. exact (Hquad Hq).
Qed.

Lemma handles_inv_draw_mesh kind label self :
  handles_inv self -> _mpl_quad_mesh self = None ->
  handles_inv
    (with_mpl_quad_mesh (Some (next_id (_mpl_ax self)))
       (with_mpl_ax (snd (mpl_draw kind label (_mpl_ax self))) self)).
Proof.
  intros (Hnd & Hlt & Hown & Hiff) Hq.
  unfold handles_inv, child_ids, owned_ids in *.
  cbn [_mpl_ax _mpl_artists _mpl_quad_mesh with_mpl_ax with_mpl_quad_mesh
       children mpl_draw snd next_id].
  rewrite Hq in *. rewrite app_nil_r in *. rewrite map_app.
  cbn [map mpl_id].
  set (n := next_id (_mpl_ax self)) in *.
  assert (Hnew : ~ In n (map mpl_id (children (_mpl_ax self))))
    by (intros H; apply Hlt in H; lia).
  split; [|split; [|split]].
  - apply NoDup_app; auto.
    + constructor; [intros []|constructor].
    + intros x Hx [<-|[]]. auto.
  - intros h Hh. apply in_app_or in Hh. destruct Hh as [Hh|[<-|[]]];
      [apply Hlt in Hh|]; lia.
  - apply NoDup_app; auto.
    + constructor; [intros []|constructor].
    + intros x Hx [<-|[]]. apply Hnew. apply Hiff. exact Hx.
  - intros h. rewrite !in_app_iff, Hiff. tauto.
Qed.

Lemma handles_inv_remove_mesh h self :
  handles_inv self -> _mpl_quad_mesh self = Some h ->
  handles_inv
    (with_mpl_quad_mesh None
       (with_mpl_ax (mpl_remove h (_mpl_ax self)) self)).
Proof.
  intros (Hnd & Hlt & Hown & Hiff) Hq.
  unfold handles_inv, child_ids, owned_ids in *.
  cbn [_mpl_ax _mpl_artists _mpl_quad_mesh with_mpl_ax with_mpl_quad_mesh].
  rewrite child_ids_remove. cbn [next_id mpl_remove]. rewrite Hq in *.
  rewrite app_nil_r.
  split; [|split; [|split]].
  - apply NoDup_filter. exact Hnd.
  - intros x Hx. apply In_filter_ne in Hx. apply Hlt. tauto.
  - eapply NoDup_app_remove_r; eauto.
  - intros x. rewrite In_filter_ne, <- Hiff, in_app_iff. cbn. split.
    + intros Hx. split; [tauto|]. intros ->.
      eapply NoDup_app_disjoint; eauto. left. reflexivity.
    + intros [[Hx|[<-|[]]] Hne]; [exact Hx | congruence].
Qed.

(** The methods of the legend change the legend and nothing else of the
    figure, whether they return or raise. *)
Lemma with_legend_self self : with_legend (legend self) self = self.
Proof. destruct self. reflexivity. Qed.

Lemma Legend_update_only_legend self :
  exists l, state_of (Legend_update self) = with_legend l self.
Proof.
  unfold Legend_update, lift.
  destruct (Dict.get_all _ _) as [handles|e];
    [destruct (Nat.ltb 0 (length handles)); eexists; reflexivity|].
  exists (legend self). symmetry. apply with_legend_self.
Qed.

Lemma Legend_remove_loop_only_legend names self :
  exists l, state_of (Legend_remove_loop names self) = with_legend l self.
Proof.
  revert self. induction names as [|name r IH]; intros self;
    cbn [Legend_remove_loop].
  - exists (legend self). symmetry. apply with_legend_self.
  - unfold oassert. destruct (selectable name self); cbn [obind state_of];
      [|exists (legend self); symmetry; apply with_legend_self].
    destruct (Dict.pop name _) as [[a d]|];
      [|exists (legend self); symmetry; apply with_legend_self].
    destruct (IH (with_legend_artists d self)) as [l ->].
    exists l. reflexivity.
Qed.

Lemma Legend_add_only_legend names self :
  exists l, state_of (Legend_add names self) = with_legend l self.
Proof.
  assert (Hup : forall d,
             exists l, state_of (Legend_update (with_legend_artists d self))
                       = with_legend l self).
  { intros d. destruct (Legend_update_only_legend
                          (with_legend_artists d self)) as [l ->].
    exists l. reflexivity. }
  unfold Legend_add, oassert, lift. destruct names as [s|names].
  - destruct (String.eqb s "all"); cbn [obind state_of]; [apply Hup|].
    exists (legend self). symmetry. apply with_legend_self.
  - destruct (forallb _ names); cbn [obind state_of];
      [|exists (legend self); symmetry; apply with_legend_self].
    destruct (Dict.get_all names (_artists self)); cbn [obind state_of];
      [apply Hup|exists (legend self); symmetry; apply with_legend_self].
Qed.

Lemma Legend_remove_only_legend names self :
  exists l, state_of (Legend_remove names self) = with_legend l self.
Proof.
  unfold Legend_remove, oassert. destruct names as [s|names].
  - destruct (String.eqb s "all"); cbn [obind state_of].
    + destruct (Legend_update_only_legend
                  (with_legend_artists (Dict.empty Artist) self)) as [l ->].
      exists l. reflexivity.
    + exists (legend self). symmetry. apply with_legend_self.
  - destruct (Legend_remove_loop_only_legend names self) as [l Hl].
    destruct (Legend_remove_loop names self) as [s'|e s'];
      cbn [obind state_of] in *; subst s'.
    + destruct (Legend_update_only_legend (with_legend l self)) as [l' ->].
      exists l'. reflexivity.
    + exists l. reflexivity.
Qed.

Lemma same_frame_with_legend l self : same_frame self (with_legend l self).
Proof. repeat split. Qed.

Lemma child_ids_set_visible h v ax :
  map mpl_id (children (mpl_set_visible h v ax)) = map mpl_id (children ax).
Proof.
  cbn. rewrite map_map. apply map_ext. intros c.
  destruct (Nat.eqb (mpl_id c) h); reflexivity.
Qed.

(** The calls that leave the mappings, the mesh slot and the set of objects
    on the axes alone. *)
Lemma exec_same_frame c self :
  match c with
  | Call_add_artist _ _ _ | Call_remove_artist _
  | Call_add_color_mesh _ _ | Call_remove_color_mesh => True
  | _ => same_frame self (state_of (exec c self))
  end.
Proof.
  destruct c as [artist label ow|name|name v|name| |a|m ow| |names|names];
    try exact I; cbn [exec].
  - unfold set_visible, oassert.
    destruct (Dict.mem name (_artists self)); cbn [obind state_of];
      [|repeat split].
    destruct (Dict.get name (_mpl_artists self)); [|repeat split].
    unfold same_frame, child_ids. cbn [state_of _artists _mpl_artists
      _color_mesh _mpl_quad_mesh _mpl_ax with_mpl_ax].
    rewrite child_ids_set_visible. repeat split.
  - unfold add_colorbar, oassert, lift. break_match; repeat split.
  - destruct (update_scale_limits self) as (lx & ly & ->).
    apply same_frame_with_limits.
  - unfold set_autoscale, oassert.
    destruct (str_in a AUTOSCALE_OPTIONS); repeat split.
  - destruct (Legend_add_only_legend names self) as [l ->].
    apply same_frame_with_legend.
  - destruct (Legend_remove_only_legend names self) as [l ->].
    apply same_frame_with_legend.
Qed.

(** [remove_color_mesh] and [add_color_mesh] when the slot and its handle
    agree. *)
Lemma remove_color_mesh_empty self :
  _color_mesh self = None -> remove_color_mesh self = Raise NoMeshError self.
Proof. intros H. unfold remove_color_mesh. rewrite H. reflexivity. Qed.

Lemma remove_color_mesh_occupied self :
  mesh_inv self -> _color_mesh self <> None ->
  exists h,
    _mpl_quad_mesh self = Some h /\
    remove_color_mesh self
    = Return (with_mpl_quad_mesh None
                (with_mpl_ax (mpl_remove h (_mpl_ax self))
                   (with_color_mesh None self))).
Proof.
  intros Hinv Hm. unfold remove_color_mesh.
  destruct (_color_mesh self) as [m|] eqn:E; [|congruence].
  destruct (_mpl_quad_mesh self) as [h|] eqn:Eq.
  - exists h. split; [reflexivity|]. cbn. rewrite Eq. reflexivity.
  - exfalso. unfold mesh_inv in Hinv. rewrite E, Eq in Hinv.
    apply Hm, Hinv. reflexivity.
Qed.

Lemma add_color_mesh_empty color_mesh overwrite self :
  _color_mesh self = None ->
  mpl_refuses (_mpl_ax self) (DrawMesh color_mesh) = None ->
  add_color_mesh color_mesh overwrite self
  = Return (with_color_mesh (Some color_mesh)
              (with_mpl_quad_mesh (Some (next_id (_mpl_ax self)))
                 (with_mpl_ax
                    (snd (mpl_draw QuadMesh EmptyString (_mpl_ax self)))
                    self))).
Proof.
  intros H Hacc. unfold add_color_mesh. rewrite H. cbn [obind].
  rewrite Hacc. reflexivity.
Qed.

Lemma add_color_mesh_empty_refused color_mesh overwrite self e :
  _color_mesh self = None ->
  mpl_refuses (_mpl_ax self) (DrawMesh color_mesh) = Some e ->
  add_color_mesh color_mesh overwrite self = Raise e self.
Proof.
  intros H Href. unfold add_color_mesh. rewrite H. cbn [obind].
  rewrite Href. reflexivity.
Qed.

(** [add_color_mesh] on an occupied slot with [overwrite] is
    [add_color_mesh] on the figure [remove_color_mesh] leaves, where the
    slot is empty and the axes judge drawing calls as before. *)
Lemma add_color_mesh_overwrite color_mesh self :
  mesh_inv self -> _color_mesh self <> None ->
  exists h,
    let removed :=
      with_mpl_quad_mesh None
        (with_mpl_ax (mpl_remove h (_mpl_ax self))
           (with_color_mesh None self)) in
    _mpl_quad_mesh self = Some h /\
    remove_color_mesh self = Return removed /\
    add_color_mesh color_mesh true self
    = add_color_mesh color_mesh false removed.
Proof.
  intros Hinv Hm.
  destruct (remove_color_mesh_occupied self Hinv Hm) as (h & Hq & Hrm).
  exists h. cbv zeta. split; [exact Hq|]. split; [exact Hrm|].
  unfold add_color_mesh at 1.
  destruct (_color_mesh self) as [m|] eqn:E; [|congruence].
  rewrite Hrm. reflexivity.
Qed.

(** What [add_color_mesh] leaves.  It returns only when the slot is empty
    or [overwrite] is set and the axes accepted the call.  When it raises,
    the figure is as it was, unless it was overwriting: then the old mesh
    is gone. *)
Lemma add_color_mesh_inv color_mesh overwrite self :
  mesh_inv self ->
  let pre := match _color_mesh self with
             | Some _ => state_of (remove_color_mesh self)
             | None => self
             end in
  match add_color_mesh color_mesh overwrite self with
  | Return added =>
      (_color_mesh self = None \/ overwrite = true) /\
      _color_mesh pre = None /\
      mpl_refuses (_mpl_ax self) (DrawMesh color_mesh) = None /\
      added = with_color_mesh (Some color_mesh)
                (with_mpl_quad_mesh (Some (next_id (_mpl_ax pre)))
                   (with_mpl_ax
                      (snd (mpl_draw QuadMesh EmptyString (_mpl_ax pre)))
                      pre))
  | Raise e self' =>
      self' = self \/
      (_color_mesh self <> None /\ overwrite = true /\ self' = pre /\
       mpl_refuses (_mpl_ax self) (DrawMesh color_mesh) = Some e)
  end.
Proof.
  intros Hinv pre. subst pre.
  assert (Hfree : forall ow s,
             _color_mesh s = None ->
             match add_color_mesh color_mesh ow s with
             | Return added =>
                 mpl_refuses (_mpl_ax s) (DrawMesh color_mesh) = None /\
                 added = with_color_mesh (Some color_mesh)
                           (with_mpl_quad_mesh (Some (next_id (_mpl_ax s)))
                              (with_mpl_ax
                                 (snd (mpl_draw QuadMesh EmptyString
                                                (_mpl_ax s))) s))
             | Raise e s' =>
                 s' = s /\
                 mpl_refuses (_mpl_ax s) (DrawMesh color_mesh) = Some e
             end).
  { intros ow s Hs.
    destruct (mpl_refuses (_mpl_ax s) (DrawMesh color_mesh)) as [e|] eqn:Er.
    - rewrite (add_color_mesh_empty_refused _ ow _ e Hs Er).
      split; reflexivity.
    - rewrite (add_color_mesh_empty _ ow _ Hs Er). split; reflexivity. }
  destruct (_color_mesh self) as [m|] eqn:E.
  - destruct overwrite.
    + destruct (add_color_mesh_overwrite color_mesh self Hinv)
        as (h & Hq & Hrm & Hsame); [congruence|].
      cbv zeta in Hrm, Hsame. rewrite Hsame, Hrm. cbn [state_of].
      match goal with
      | |- context [add_color_mesh color_mesh false ?r] =>
          pose proof (Hfree false r eq_refl) as H;
          destruct (add_color_mesh color_mesh false r) as [added|e self']
      end.
      * destruct H as [Hacc ->]. split; [right; reflexivity|].
        split; [reflexivity|]. split; [exact Hacc | reflexivity].
      * destruct H as [-> Href]. right.
        split; [discriminate|]. split; [reflexivity|].
        split; [reflexivity | exact Href].
    + unfold add_color_mesh. rewrite E. left. reflexivity.
  - pose proof (Hfree overwrite self E) as H.
    destruct (add_color_mesh color_mesh overwrite self) as [added|e self'].
    + destruct H as [Hacc ->]. split; [left; reflexivity|].
      split; [exact E|]. split; [exact Hacc | reflexivity].
    + left. apply H.
Qed.

Lemma figure_inv_remove_color_mesh self :
  figure_inv self -> figure_inv (state_of (remove_color_mesh self)).
Proof.
  intros (Hreg & Hmesh & Hh).
  destruct (_color_mesh self) as [m|] eqn:E.
  - destruct (remove_color_mesh_occupied self Hmesh) as (h & Hq & ->);
      [congruence|]. cbn [state_of]. split; [exact Hreg|]. split.
    + split; reflexivity.
    + apply (handles_inv_remove_mesh h (with_color_mesh None self)).
      * exact Hh.
      * exact Hq.
  - rewrite (remove_color_mesh_empty _ E). exact (conj Hreg (conj Hmesh Hh)).
Qed.

Lemma figure_inv_draw_mesh color_mesh self :
  figure_inv self -> _color_mesh self = None ->
  figure_inv (with_color_mesh (Some color_mesh)
                (with_mpl_quad_mesh (Some (next_id (_mpl_ax self)))
                   (with_mpl_ax
                      (snd (mpl_draw QuadMesh EmptyString (_mpl_ax self)))
                      self))).
Proof.
  intros (Hreg & Hmesh & Hh) E. split; [exact Hreg|]. split.
  - split; discriminate.
  - apply (handles_inv_draw_mesh QuadMesh EmptyString self Hh).
    apply Hmesh. exact E.
Qed.

Lemma figure_inv_add_color_mesh color_mesh overwrite self :
  figure_inv self ->
  figure_inv (state_of (add_color_mesh color_mesh overwrite self)).
Proof.
  intros Hinv.
  pose proof (add_color_mesh_inv color_mesh overwrite self
                (proj1 (proj2 Hinv))) as H.
  cbv zeta in H.
  assert (Hpre : figure_inv
                   match _color_mesh self with
                   | Some _ => state_of (remove_color_mesh self)
                   | None => self
                   end).
  { destruct (_color_mesh self);
      [apply figure_inv_remove_color_mesh|]; exact Hinv. }
  destruct (add_color_mesh color_mesh overwrite self) as [added|e self'];
    cbn [state_of].
  - destruct H as (_ & Hnone & _ & ->).
    apply figure_inv_draw_mesh; assumption.
  - destruct H as [->|(_ & _ & -> & _)]; assumption.
Qed.

Lemma figure_inv_remove_artist name self :
  figure_inv self -> figure_inv (state_of (remove_artist name self)).
Proof.
  intros (Hreg & Hmesh & Hh).
  destruct (Dict.mem name (_artists self)) eqn:E.
  - destruct (remove_artist_registered _ _ Hreg E) as (h & Hget & ->).
    cbn [state_of]. split; [apply registry_inv_remove; exact Hreg|].
    split; [exact Hmesh|].
    apply (handles_inv_remove_artist name h
             (with_artists (Dict.remove name (_artists self)) self)).
    + exact Hh.
    + exact Hget.
  - rewrite (remove_artist_unregistered _ _ E).
    exact (conj Hreg (conj Hmesh Hh)).
Qed.

Lemma figure_inv_add_artist artist label overwrite self :
  drawable artist -> figure_inv self ->
  figure_inv (state_of (add_artist artist label overwrite self)).
Proof.
  intros Hd Hinv.
  pose proof (add_artist_inv self artist label overwrite (proj1 Hinv)) as H.
  cbv zeta in H.
  assert (Hpre : figure_inv
                   (if Dict.mem (get_name artist) (_artists self)
                    then state_of (remove_artist (get_name artist) self)
                    else self)).
  { destruct (Dict.mem (get_name artist) (_artists self));
      [apply figure_inv_remove_artist|]; exact Hinv. }
  set (pre := if Dict.mem (get_name artist) (_artists self)
              then state_of (remove_artist (get_name artist) self)
              else self) in *.
  destruct (add_artist artist label overwrite self) as [added|e self'];
    cbn [state_of].
  - destruct H as (_ & Hreg' & Hfresh & _ & ->).
    destruct Hpre as (_ & Hmesh' & Hh').
    split; [apply registry_inv_add_fresh; assumption|].
    split; [exact Hmesh'|].
    apply (handles_inv_draw_artist (get_name artist) _ _ pre Hh').
    rewrite (mem_same_keys _ _ _ _ (proj2 Hreg')). exact Hfresh.
  - destruct H as [->|(_ & _ & -> & _)]; assumption.
Qed.

Lemma exec_figure_inv c self :
  well_formed_call c -> figure_inv self ->
  figure_inv (state_of (exec c self)).
Proof.
  intros Hwf Hinv. pose proof (exec_same_frame c self) as Hframe.
  destruct c; try (eapply figure_inv_same_frame; eassumption); cbn [exec].
  - apply figure_inv_add_artist; assumption.
  - apply figure_inv_remove_artist; assumption.
  - apply figure_inv_add_color_mesh; assumption.
  - apply figure_inv_remove_color_mesh; assumption.
Qed.

Lemma reachable_figure_inv self : reachable self -> figure_inv self.
Proof.
  induction 1 as [refuses autoscale self Hinit|c self Hreach IH Hwf].
  - split; [apply (Figure_init_inv (new_axes refuses) autoscale self Hinit)|].
    unfold Figure_init, set_autoscale, oassert, Legend_update, lift, obind
      in Hinit.
    cbn [Dict.get_all Dict.keys map LegendState._artists legend Dict.empty]
      in Hinit.
    cbn [Nat.ltb Nat.leb length] in Hinit.
    destruct (str_in autoscale AUTOSCALE_OPTIONS); [|discriminate].
    injection Hinit as <-. split; [split; reflexivity|].
    repeat split; try constructor; cbn; try tauto.
  - apply exec_figure_inv; assumption.
Qed.

Section DictInjective.
Variable V : Type.
Implicit Types (d : Dict.t V) (k : string) (v : V).

Lemma In_values_get v d :
  NoDup (Dict.keys d) -> In v (Dict.values d) ->
  exists k, Dict.get k d = Some v.
Proof.
  induction d as [|[k1 v1] r IH]; simpl; [tauto|].
  intros H. inversion H as [|? ? Hn Hr]; subst.
  intros [<-|Hv].
  - exists k1. rewrite String.eqb_refl. reflexivity.
  - destruct (IH Hr Hv) as [k Hk]. exists k.
    destruct (String.eqb_spec k k1) as [->|Hne]; [|exact Hk].
    exfalso. apply Hn. apply mem_In. apply mem_get. eauto.
Qed.

Lemma get_injective k1 k2 v d :
  NoDup (Dict.values d) ->
  Dict.get k1 d = Some v -> Dict.get k2 d = Some v -> k1 = k2.
Proof.
  induction d as [|[k v0] r IH]; simpl; [discriminate|].
  intros H. inversion H as [|? ? Hn Hr]; subst.
  destruct (String.eqb_spec k1 k) as [->|Hne1];
    destruct (String.eqb_spec k2 k) as [->|Hne2]; auto.
  - intros E1 E2. injection E1 as <-. exfalso. apply Hn.
    eapply get_In_values; eauto.
  - intros E1 E2. injection E2 as <-. exfalso. apply Hn.
    eapply get_In_values; eauto.
Qed.
End DictInjective.

(** X6.  In every state a figure can reach, each registered name's handle
    is the identity of an object on the axes, two names never share a
    handle, no two objects on the axes share an identity, and every object
    on the axes is the one of a registered name or of the mesh: nothing
    drawn is left behind by a removal or an overwrite. *)
Theorem reachable_handles_live (self : Figure) :
  reachable self ->
  (forall name h,
      Dict.get name (_mpl_artists self) = Some h ->
      exists c, In c (children (_mpl_ax self)) /\ mpl_id c = h) /\
  (forall name1 name2 h,
      Dict.get name1 (_mpl_artists self) = Some h ->
      Dict.get name2 (_mpl_artists self) = Some h -> name1 = name2) /\
  NoDup (map mpl_id (children (_mpl_ax self))) /\
  (forall c, In c (children (_mpl_ax self)) ->
      (exists name, Dict.get name (_mpl_artists self) = Some (mpl_id c)) \/
      _mpl_quad_mesh self = Some (mpl_id c)).
Proof.
  intros Hreach.
  destruct (reachable_figure_inv self Hreach)
    as ([Hnd Hkeys] & Hmesh & Hids & Hlt & Hown & Hiff).
  unfold child_ids, owned_ids in *.
  split; [|split; [|split]].
  - intros name h Hget.
    assert (Hin : In h (map mpl_id (children (_mpl_ax self)))).
    { apply Hiff. apply in_or_app. left. eapply get_In_values; eauto. }
    apply in_map_iff in Hin. destruct Hin as (c & Hc & Hin). eauto.
  - intros n1 n2 h H1 H2. eapply get_injective; eauto.
    eapply NoDup_app_remove_r; eauto.
  - exact Hids.
  - intros c Hc.
    assert (Hin : In (mpl_id c) (map mpl_id (children (_mpl_ax self))))
      by (apply in_map; exact Hc).
    apply Hiff in Hin. apply in_app_or in Hin. destruct Hin as [Hv|Hq].
    + left. apply In_values_get; [|exact Hv]. rewrite Hkeys. exact Hnd.
    + right. destruct (_mpl_quad_mesh self) as [h|]; [|destruct Hq].
      destruct Hq as [<-|[]]. reflexivity.
Qed.

Lemma reachable_handles_live_witness :
  reachable figure_f /\
  Dict.get "f" (_mpl_artists figure_f) = Some 0%nat /\
  exists c, In c (children (_mpl_ax figure_f)) /\ mpl_id c = 0%nat.
Proof.
  split; [exact reachable_figure_f|]. split; [reflexivity|].
  apply (proj1 (reachable_handles_live figure_f reachable_figure_f) "f").
  reflexivity.
Defined.

(** X7.  In every state a figure can reach, the mesh and its handle are
    both there or both absent, and a mesh handle is the identity of an
    object on the axes that no registered name has as its handle. *)
Theorem reachable_mesh_slot (self : Figure) :
  reachable self ->
  (_color_mesh self = None <-> _mpl_quad_mesh self = None) /\
  (forall h,
      _mpl_quad_mesh self = Some h ->
      (exists c, In c (children (_mpl_ax self)) /\ mpl_id c = h) /\
      forall name, Dict.get name (_mpl_artists self) <> Some h).
Proof.
  intros Hreach.
  destruct (reachable_figure_inv self Hreach)
    as (_ & Hmesh & Hids & Hlt & Hown & Hiff).
  unfold child_ids, owned_ids in *. split; [exact Hmesh|].
  intros h Hq. rewrite Hq in *. split.
  - assert (Hin : In h (map mpl_id (children (_mpl_ax self)))).
    { apply Hiff. apply in_or_app. right. left. reflexivity. }
    apply in_map_iff in Hin. destruct Hin as (c & Hc & Hin). eauto.
  - intros name Hget.
    eapply (NoDup_app_disjoint _ _ h Hown).
    + eapply get_In_values; eauto.
    + left. reflexivity.
Qed.

Lemma reachable_figure_f_mesh :
  reachable (state_of (add_color_mesh mesh_12 false figure_f)).
Proof.
  apply (@reachable_call (Call_add_color_mesh mesh_12 false) figure_f).
  - exact reachable_figure_f.
  - exact I.
Qed.

Lemma reachable_mesh_slot_witness :
  let self := state_of (add_color_mesh mesh_12 false figure_f) in
  reachable self /\
  _color_mesh self = Some mesh_12 /\
  _mpl_quad_mesh self = Some 1%nat /\
  forall name, Dict.get name (_mpl_artists self) <> Some 1%nat.
Proof.
  intros self. split; [exact reachable_figure_f_mesh|].
  split; [reflexivity|]. split; [reflexivity|].
  apply (proj2 (reachable_mesh_slot self reachable_figure_f_mesh) 1%nat).
  reflexivity.
Defined.

(** The three ways [add_color_mesh] goes: it draws into [pre], the figure
    itself or the figure [remove_color_mesh] left, and the axes accept or
    refuse; or the slot is occupied and [overwrite] is not set. *)
Lemma add_color_mesh_cases color_mesh overwrite self :
  mesh_inv self ->
  exists pre,
    _color_mesh pre = None /\ _mpl_quad_mesh pre = None /\
    _artists pre = _artists self /\
    _mpl_artists pre = _mpl_artists self /\
    legend pre = legend self /\
    (forall c, In c (children (_mpl_ax pre)) ->
               In c (children (_mpl_ax self))) /\
    (_color_mesh self <> None -> remove_color_mesh self = Return pre) /\
    (((_color_mesh self = None /\ pre = self \/
       _color_mesh self <> None /\ overwrite = true) /\
      mpl_refuses (_mpl_ax self) (DrawMesh color_mesh) = None /\
      add_color_mesh color_mesh overwrite self
      = Return (with_color_mesh (Some color_mesh)
                  (with_mpl_quad_mesh (Some (next_id (_mpl_ax pre)))
                     (with_mpl_ax
                        (snd (mpl_draw QuadMesh EmptyString (_mpl_ax pre)))
                        pre)))) \/
     ((_color_mesh self = None /\ pre = self \/
       _color_mesh self <> None /\ overwrite = true) /\
      exists e,
        mpl_refuses (_mpl_ax self) (DrawMesh color_mesh) = Some e /\
        add_color_mesh color_mesh overwrite self = Raise e pre) \/
     (_color_mesh self <> None /\ overwrite = false /\
      add_color_mesh color_mesh overwrite self
      = Raise SlotOccupiedError self)).
Proof.
  intros Hinv.
  assert (Hfree : forall ow s,
             _color_mesh s = None ->
             (mpl_refuses (_mpl_ax s) (DrawMesh color_mesh) = None /\
              add_color_mesh color_mesh ow s
              = Return (with_color_mesh (Some color_mesh)
                          (with_mpl_quad_mesh (Some (next_id (_mpl_ax s)))
                             (with_mpl_ax
                                (snd (mpl_draw QuadMesh EmptyString
                                               (_mpl_ax s))) s)))) \/
             (exists e,
                 mpl_refuses (_mpl_ax s) (DrawMesh color_mesh) = Some e /\
                 add_color_mesh color_mesh ow s = Raise e s)).
  { intros ow s Hs.
    destruct (mpl_refuses (_mpl_ax s) (DrawMesh color_mesh)) as [e|] eqn:Er.
    - right. exists e. split; [reflexivity|].
      apply add_color_mesh_empty_refused; assumption.
    - left. split; [reflexivity|]. apply add_color_mesh_empty; assumption. }
  destruct (_color_mesh self) as [m|] eqn:E.
  - destruct (add_color_mesh_overwrite color_mesh self Hinv)
      as (h & Hq & Hrm & Hsame); [congruence|].
    cbv zeta in Hrm, Hsame.
    exists (with_mpl_quad_mesh None
              (with_mpl_ax (mpl_remove h (_mpl_ax self))
                 (with_color_mesh None self))).
    split; [reflexivity|]. split; [reflexivity|].
    split; [reflexivity|]. split; [reflexivity|]. split; [reflexivity|].
    split; [cbn; intros c Hc; apply filter_In in Hc; tauto|].
    split; [intros _; exact Hrm|].
    destruct overwrite.
    + rewrite Hsame.
      destruct (Hfree false _ (eq_refl : _color_mesh
                  (with_mpl_quad_mesh None
                     (with_mpl_ax (mpl_remove h (_mpl_ax self))
                        (with_color_mesh None self))) = None))
        as [[Hacc Hadd]|(e & Href & Hadd)].
      * left. split; [right; split; [discriminate | reflexivity]|].
        split; [exact Hacc | exact Hadd].
      * right; left.
        split; [right; split; [discriminate | reflexivity]|].
        exists e. split; [exact Href | exact Hadd].
    + right; right. split; [discriminate|]. split; [reflexivity|].
      unfold add_color_mesh. rewrite E. reflexivity.
  - exists self. split; [exact E|]. split; [apply Hinv; exact E|].
    repeat (split; [reflexivity|]). split; [auto|].
    split; [congruence|].
    destruct (Hfree overwrite self E) as [[Hacc Hadd]|(e & Href & Hadd)].
    + left. split; [left; split; reflexivity|].
      split; [exact Hacc | exact Hadd].
    + right; left. split; [left; split; reflexivity|].
      exists e. split; [exact Href | exact Hadd].
Qed.

(** X8.  [add_color_mesh] on an occupied slot without [overwrite] raises
    the slot error and changes nothing.  Whenever it returns, the slot
    holds the mesh passed, its handle is that of a new object drawn last on
    the axes, and the artists, their handles and the legend are as before.
    It returns exactly when the slot is empty or [overwrite] is set, and
    the axes accept the [pcolormesh] call.  When they refuse it, the call
    raises what the axes raise and the slot is empty: a mesh that was to
    be overwritten is gone. *)
Theorem add_color_mesh_effect (color_mesh : ColorMesh) (overwrite : bool)
    (self : Figure) :
  mesh_inv self ->
  (_color_mesh self <> None -> overwrite = false ->
   add_color_mesh color_mesh overwrite self = Raise SlotOccupiedError self) /\
  (forall added,
     add_color_mesh color_mesh overwrite self = Return added ->
     exists h below,
       _color_mesh added = Some color_mesh /\
       _mpl_quad_mesh added = Some h /\
       children (_mpl_ax added)
       = below ++ [mk_mpl h QuadMesh EmptyString true] /\
       (forall c, In c below -> In c (children (_mpl_ax self))) /\
       _artists added = _artists self /\
       _mpl_artists added = _mpl_artists self /\
       legend added = legend self) /\
  ((exists added, add_color_mesh color_mesh overwrite self = Return added)
   <-> (_color_mesh self = None \/ overwrite = true) /\
       mpl_refuses (_mpl_ax self) (DrawMesh color_mesh) = None) /\
  (forall e,
     _color_mesh self = None \/ overwrite = true ->
     mpl_refuses (_mpl_ax self) (DrawMesh color_mesh) = Some e ->
     exists self',
       add_color_mesh color_mesh overwrite self = Raise e self' /\
       _color_mesh self' = None /\ _mpl_quad_mesh self' = None /\
       _artists self' = _artists self /\
       _mpl_artists self' = _mpl_artists self).
Proof.
  intros Hinv.
  destruct (add_color_mesh_cases color_mesh overwrite self Hinv)
    as (pre & Hnone & Hq & Ha & Hm & Hl & Hin & _ & Hcases).
  assert (Hcase_of :
            _color_mesh self = None /\ pre = self \/
            _color_mesh self <> None /\ overwrite = true ->
            _color_mesh self = None \/ overwrite = true) by tauto.
  split; [|split; [|split]].
  - intros Hocc ->.
    destruct Hcases as [([[Hn _]|[_ Hf]] & _)|[([[Hn _]|[_ Hf]] & _)
                                              |(_ & _ & Hadd)]];
      try congruence; try discriminate.
  - intros added Hadd.
    destruct Hcases as [(_ & _ & E)|[(_ & e & _ & E)|(_ & _ & E)]];
      rewrite E in Hadd; try discriminate Hadd.
    injection Hadd as <-.
    exists (next_id (_mpl_ax pre)), (children (_mpl_ax pre)).
    cbn. repeat (split; [reflexivity|]). split; [exact Hin|].
    split; [exact Ha|]. split; [exact Hm | exact Hl].
  - split.
    + intros [added Hadd].
      destruct Hcases as [(Hc & Hacc & E)|[(_ & e & _ & E)|(_ & _ & E)]];
        rewrite E in Hadd; try discriminate Hadd.
      split; [apply Hcase_of; exact Hc | exact Hacc].
    + intros [Hcase Hacc].
      destruct Hcases as [(_ & _ & E)|[(_ & e & Href & _)|(Hocc & -> & _)]].
      * eexists. exact E.
      * congruence.
      * destruct Hcase; [contradiction | discriminate].
  - intros e Hcase Href.
    destruct Hcases as [(_ & Hacc & _)|[(_ & e' & Href' & E)|(Hocc & -> & _)]].
    + congruence.
    + assert (e' = e) by congruence. subst e'.
      exists pre. split; [exact E|]. repeat split; assumption.
    + destruct Hcase; [contradiction | discriminate].
Qed.

Lemma add_color_mesh_effect_witness :
  let self := state_of (add_color_mesh mesh_12 false figure_f) in
  let added := state_of (add_color_mesh mesh_12 true self) in
  mesh_inv self /\
  add_color_mesh mesh_12 false self = Raise SlotOccupiedError self /\
  add_color_mesh mesh_12 true self = Return added /\
  _mpl_quad_mesh added = Some 2%nat /\
  map mpl_id (children (_mpl_ax added)) = [0; 2]%nat.
Proof.
  intros self added.
  assert (H1 : mesh_inv self) by (split; discriminate).
  assert (H2 : add_color_mesh mesh_12 true self = Return added)
    by reflexivity.
  destruct (add_color_mesh_effect mesh_12 false self H1) as [Hocc _].
  destruct (add_color_mesh_effect mesh_12 true self H1) as (_ & Hret & _).
  destruct (Hret added H2) as (h & below & _ & Hq & Hch & _).
  split; [exact H1|]. split; [apply Hocc; [discriminate | reflexivity]|].
  split; [exact H2|]. split; reflexivity.
Defined.






(* ------------------------------------------------------------------ *)
(** ** More on the legend                                              *)

Section DictBuild.
Variable V : Type.
Implicit Types (d : Dict.t V) (k : string) (v : V).

Lemma fold_set_distinct (items : list (string * V)) d :
  NoDup (Dict.keys (d ++ items)) ->
  fold_left (fun acc kv => Dict.set (fst kv) (snd kv) acc) items d
  = d ++ items.
Proof.
  revert d. induction items as [|[k v] r IH]; intros d H; simpl.
  - rewrite app_nil_r. reflexivity.
  - assert (Hfresh : Dict.mem k d = false).
    { apply mem_false_not_In. intros Hin. unfold Dict.keys in H.
      rewrite map_app in H. simpl in H. apply NoDup_remove_2 in H.
      apply H. apply in_or_app. left. exact Hin. }
    rewrite (set_fresh _ _ _ _ Hfresh), IH.
    + rewrite <- app_assoc. reflexivity.
    + rewrite <- app_assoc. exact H.
Qed.

Lemma of_items_distinct (items : list (string * V)) :
  NoDup (Dict.keys items) -> Dict.of_items items = items.
Proof. intros H. apply (fold_set_distinct items []). exact H. Qed.

Lemma NoDup_keys_filter (p : string * V -> bool) d :
  NoDup (Dict.keys d) -> NoDup (Dict.keys (filter p d)).
Proof.
  induction d as [|[k v] r IH]; simpl; auto.
  intros H. inversion H as [|? ? Hn Hr]; subst.
  destruct (p (k, v)); simpl; auto. constructor; auto.
  intros Hin. apply Hn. apply mem_In. apply mem_filter with (p := p).
  apply mem_In. exact Hin.
Qed.

Lemma fold_set_prefix (items : list (string * V)) d :
  exists suffix,
    Dict.keys (fold_left (fun acc kv => Dict.set (fst kv) (snd kv) acc)
                         items d)
    = Dict.keys d ++ suffix.
Proof.
  revert d. induction items as [|[k v] r IH]; intros d; simpl.
  - exists []. rewrite app_nil_r. reflexivity.
  - destruct (IH (Dict.set k v d)) as [suffix ->].
    destruct (Dict.mem k d) eqn:E.
    + rewrite keys_set_present by exact E. eauto.
    + rewrite keys_set_fresh by exact E. rewrite <- app_assoc. eauto.
Qed.

Lemma get_fold_set (reg : Dict.t V) (items : list (string * V)) d k :
  (forall kv, In kv items -> Dict.get (fst kv) reg = Some (snd kv)) ->
  Dict.get k (fold_left (fun acc kv => Dict.set (fst kv) (snd kv) acc)
                        items d)
  = if Dict.mem k items then Dict.get k reg else Dict.get k d.
Proof.
  revert d. induction items as [|[k1 v1] r IH]; intros d H; simpl; auto.
  rewrite IH by (intros kv Hkv; apply H; right; exact Hkv).
  destruct (Dict.mem k r) eqn:Er.
  - destruct (String.eqb k k1); reflexivity.
  - destruct (String.eqb_spec k k1) as [->|Hne].
    + rewrite get_set_same. symmetry. apply (H (k1, v1)). left. reflexivity.
    + apply get_set_other. exact Hne.
Qed.

Lemma get_all_combine (names : list string) reg (vs : list V) :
  Dict.get_all names reg = Ok vs ->
  length vs = length names /\
  forall kv, In kv (combine names vs) ->
             Dict.get (fst kv) reg = Some (snd kv).
Proof.
  revert vs. induction names as [|n r IH]; intros vs; simpl.
  - intros E. injection E as <-. split; [reflexivity | intros kv []].
  - destruct (Dict.get n reg) as [v|] eqn:En; [|discriminate].
    destruct (Dict.get_all r reg) as [l|] eqn:Er; simpl; [|discriminate].
    intros E. injection E as <-. destruct (IH l eq_refl) as [Hlen Hin].
    split; [simpl; congruence|].
    intros kv [<-|Hkv]; [exact En | apply Hin; exact Hkv].
Qed.

Lemma mem_combine_same_length k (names : list string) (vs : list V) :
  length vs = length names ->
  Dict.mem k (combine names vs) = str_in k names.
Proof.
  revert vs. induction names as [|n r IH]; intros [|v vs] H; simpl in *;
    try discriminate; auto.
  rewrite IH by congruence. destruct (String.eqb k n); reflexivity.
Qed.
End DictBuild.

(** What [Legend._update] does: it raises when a name of the subset has no
    handle; otherwise the panel lists the handles of the subset's names in
    the subset's order and is shown, or, when the subset is empty, the
    panel is hidden and keeps its handles. *)
Lemma Legend_update_returns_spec self after :
  Legend_update self = Return after ->
  after = with_mpl_legend (LegendState._mpl_legend (legend after)) self /\
  legend_visible (LegendState._mpl_legend (legend after))
  = negb (Nat.eqb (length (LegendState._artists (legend self))) 0) /\
  (LegendState._artists (legend self) <> [] ->
   Dict.get_all (Dict.keys (LegendState._artists (legend self)))
                (_mpl_artists self)
   = Ok (legend_handles (LegendState._mpl_legend (legend after)))).
Proof.
  unfold Legend_update, lift.
  destruct (Dict.get_all _ _) as [handles|e] eqn:E; [|discriminate].
  assert (Hlen : length handles
                 = length (LegendState._artists (legend self))).
  { clear -E. unfold Dict.keys in E.
    revert handles E.
    induction (LegendState._artists (legend self)) as [|[k v] r IH];
      intros handles E; simpl in E.
    - injection E as <-. reflexivity.
    - destruct (Dict.get k (_mpl_artists self)); [|discriminate].
      destruct (Dict.get_all _ _) as [l|]; simpl in E; [|discriminate].
      injection E as <-. simpl. f_equal. apply IH. reflexivity. }
  destruct handles as [|h r]; cbn [Nat.ltb Nat.leb length];
    intros H; injection H as <-; cbn.
  - split; [reflexivity|]. rewrite <- Hlen. split; [reflexivity|].
    intros Hne. destruct (LegendState._artists (legend self));
      [congruence | discriminate].
  - split; [reflexivity|]. rewrite <- Hlen. split; reflexivity.
Qed.

(** X11.  [Legend.add('all')] on a figure whose two mappings have the same
    distinct keys returns; the subset it leaves is the registry without its
    [Text] artists, in registry order; the panel is shown exactly when that
    is not empty and then lists the handles of these names in that order;
    nothing but the legend changes. *)
Theorem Legend_add_all (self : Figure) :
  registry_inv self ->
  exists after,
    Legend_add (NamesStr "all") self = Return after /\
    LegendState._artists (legend after)
    = filter (fun kv => negb (isinstance_Text (snd kv))) (_artists self) /\
    legend_visible (LegendState._mpl_legend (legend after))
    = existsb (fun kv => negb (isinstance_Text (snd kv))) (_artists self) /\
    (LegendState._artists (legend after) <> [] ->
     Dict.get_all (Dict.keys (LegendState._artists (legend after)))
                  (_mpl_artists self)
     = Ok (legend_handles (LegendState._mpl_legend (legend after)))) /\
    after = with_legend (legend after) self.
Proof.
  intros Hinv. pose proof Hinv as [Hnd Hkeys].
  set (p := fun kv : string * Artist => negb (isinstance_Text (snd kv))).
  assert (Hof : Dict.of_items (filter p (_artists self))
                = filter p (_artists self))
    by (apply of_items_distinct, NoDup_keys_filter, Hnd).
  set (stored := with_legend_artists (filter p (_artists self)) self).
  assert (Hsub : legend_subset stored).
  { intros name H. cbn in H. apply mem_filter in H. exact H. }
  destruct (Legend_update_returns stored Hinv Hsub) as [after Hup].
  exists after.
  assert (Hadd : Legend_add (NamesStr "all") self = Return after).
  { unfold Legend_add, oassert. cbn [String.eqb Ascii.eqb Bool.eqb obind].
    fold p. rewrite Hof. exact Hup. }
  split; [exact Hadd|].
  destruct (Legend_update_returns_spec stored after Hup)
    as (Hafter & Hvis & Hhandles).
  assert (Hart : LegendState._artists (legend after)
                 = filter p (_artists self)) by (rewrite Hafter; reflexivity).
  split; [exact Hart|]. split; [|split].
  - rewrite Hvis. cbn. clear. induction (_artists self) as [|kv r IH];
      cbn; auto. destruct (p kv); cbn; auto.
  - rewrite Hart. exact Hhandles.
  - rewrite Hafter. destruct self. reflexivity.
Qed.

Lemma Legend_add_all_witness :
  let self := state_of (add_artist (text "t") EmptyString false figure_f) in
  registry_inv self /\
  exists after,
    Legend_add (NamesStr "all") self = Return after /\
    Dict.keys (LegendState._artists (legend after)) = ["f"] /\
    LegendState._mpl_legend (legend after) = mk_legend [0%nat] true.
Proof.
  intros self.
  assert (H1 : registry_inv self).
  { split; [|reflexivity].
    constructor; [simpl; intuition discriminate|].
    constructor; [simpl; tauto | constructor]. }
  destruct (Legend_add_all self H1) as (after & Hadd & _).
  split; [exact H1|]. exists after. split; [exact Hadd|].
  assert (E : Return after = Legend_add (NamesStr "all") self)
    by (symmetry; exact Hadd).
  vm_compute in E. injection E as ->. split; reflexivity.
Defined.

(** [Legend.remove('all')] returns from every state, also one in which the
    legend holds names that are no longer registered: the subset is empty
    and the panel hidden afterwards. *)
Lemma Legend_remove_all_returns self :
  Legend_remove (NamesStr "all") self
  = Return (with_legend
              (LegendState.mk
                 (mk_legend
                    (legend_handles (LegendState._mpl_legend (legend self)))
                    false)
                 (Dict.empty Artist))
              self).
Proof. reflexivity. Qed.

(** X12.  [Legend.add('all')] followed by [Legend.remove('all')] leaves an
    empty subset and a hidden panel, and the rest of the figure as it was
    before the two calls. *)
Theorem Legend_add_all_remove_all (self : Figure) :
  registry_inv self ->
  exists shown panel,
    Legend_add (NamesStr "all") self = Return shown /\
    Legend_remove (NamesStr "all") shown
    = Return (with_legend (LegendState.mk panel (Dict.empty Artist)) self) /\
    legend_visible panel = false.
Proof.
  intros Hinv. destruct (Legend_add_all self Hinv)
    as (shown & Hadd & _ & _ & _ & Hshown).
  exists shown,
    (mk_legend (legend_handles (LegendState._mpl_legend (legend shown)))
               false).
  split; [exact Hadd|]. split; [|reflexivity].
  rewrite Legend_remove_all_returns.
  set (l := LegendState.mk _ _). f_equal.
  transitivity (with_legend l (with_legend (legend shown) self));
    [f_equal; exact Hshown | reflexivity].
Qed.

Lemma Legend_add_all_remove_all_witness :
  registry_inv figure_f /\
  exists shown hidden,
    Legend_add (NamesStr "all") figure_f = Return shown /\
    legend_visible (LegendState._mpl_legend (legend shown)) = true /\
    Legend_remove (NamesStr "all") shown = Return hidden /\
    legend hidden = LegendState.mk (mk_legend [0%nat] false) [].
Proof.
  assert (H1 : registry_inv figure_f).
  { split; [|reflexivity]. constructor; [simpl; tauto | constructor]. }
  destruct (Legend_add_all_remove_all figure_f H1)
    as (shown & panel & Hadd & Hrm & _).
  split; [exact H1|].
  exists shown, (state_of (Legend_remove (NamesStr "all") shown)).
  split; [exact Hadd|].
  assert (E : Return shown = Legend_add (NamesStr "all") figure_f)
    by (symmetry; exact Hadd).
  vm_compute in E. injection E as ->.
  split; [reflexivity|]. split; reflexivity.
Defined.

(** X13.  [Legend.remove] of a sequence whose first name is registered and
    not a [Text] but is not in the legend's subset raises [KeyError] for
    that name, from the [pop]; nothing has changed then, and the names
    after it are not looked at. *)
Theorem Legend_remove_not_in_subset (name : string) (rest : list string)
    (self : Figure) :
  selectable name self = true ->
  Dict.mem name (LegendState._artists (legend self)) = false ->
  Legend_remove (NamesSeq (name :: rest)) self = Raise (KeyError name) self.
Proof.
  intros Hsel Hout. unfold Legend_remove. cbn [Legend_remove_loop].
  unfold oassert. rewrite Hsel. cbn [obind]. unfold Dict.pop.
  apply get_None_mem in Hout. rewrite Hout. reflexivity.
Qed.

Lemma Legend_remove_not_in_subset_witness :
  selectable "f" figure_f = true /\
  LegendState._artists (legend figure_f) = [] /\
  Legend_remove (NamesSeq ["f"; "zzz"]) figure_f
  = Raise (KeyError "f") figure_f.
Proof.
  split; [reflexivity|]. split; [reflexivity|].
  apply (Legend_remove_not_in_subset "f" ["zzz"] figure_f); reflexivity.
Defined.

(** X14.  Whenever [Legend.add] or [Legend.remove] returns, the panel is
    shown exactly when the subset is not empty, and a shown panel lists
    the handles of the subset's names, in the subset's order. *)
Theorem Legend_panel_after_call (names : names_arg) (self after : Figure) :
  Legend_add names self = Return after \/
  Legend_remove names self = Return after ->
  legend_visible (LegendState._mpl_legend (legend after))
  = negb (Nat.eqb (length (LegendState._artists (legend after))) 0) /\
  (LegendState._artists (legend after) <> [] ->
   Dict.get_all (Dict.keys (LegendState._artists (legend after)))
                (_mpl_artists after)
   = Ok (legend_handles (LegendState._mpl_legend (legend after)))).
Proof.
  assert (Hup : forall s,
             Legend_update s = Return after ->
             legend_visible (LegendState._mpl_legend (legend after))
             = negb (Nat.eqb
                       (length (LegendState._artists (legend after))) 0) /\
             (LegendState._artists (legend after) <> [] ->
              Dict.get_all
                (Dict.keys (LegendState._artists (legend after)))
                (_mpl_artists after)
              = Ok (legend_handles
                      (LegendState._mpl_legend (legend after))))).
  { intros s H. destruct (Legend_update_returns_spec s after H)
      as (Hafter & Hvis & Hh).
    assert (Ha : LegendState._artists (legend after)
                 = LegendState._artists (legend s))
      by (rewrite Hafter; reflexivity).
    assert (Hm : _mpl_artists after = _mpl_artists s)
      by (rewrite Hafter; reflexivity).
    rewrite Ha, Hm. split; assumption. }
  intros [H|H].
  - unfold Legend_add in H.
    destruct names as [s|names]; unfold oassert, lift in H.
    + destruct (String.eqb s "all"); cbn [obind] in H; [|discriminate].
      eapply Hup; eauto.
    + destruct (forallb _ names); cbn [obind] in H; [|discriminate].
      destruct (Dict.get_all names (_artists self)); cbn [obind] in H;
        [|discriminate].
      eapply Hup; eauto.
  - unfold Legend_remove in H.
    destruct names as [s|names]; unfold oassert in H.
    + destruct (String.eqb s "all"); cbn [obind] in H; [|discriminate].
      eapply Hup; eauto.
    + destruct (Legend_remove_loop names self) as [s'|e s'];
        cbn [obind] in H; [|discriminate].
      eapply Hup; eauto.
Qed.

Lemma Legend_panel_after_call_witness :
  Legend_add (NamesSeq ["f"]) figure_f = Return figure_f_legend /\
  legend_visible (LegendState._mpl_legend (legend figure_f_legend)) = true /\
  Dict.get_all ["f"] (_mpl_artists figure_f_legend)
  = Ok (legend_handles (LegendState._mpl_legend (legend figure_f_legend))).
Proof.
  assert (H : Legend_add (NamesSeq ["f"]) figure_f = Return figure_f_legend)
    by reflexivity.
  destruct (Legend_panel_after_call (NamesSeq ["f"]) figure_f
              figure_f_legend (or_introl H)) as [Hvis Hh].
  split; [exact H|]. split; [exact Hvis|].
  apply Hh. discriminate.
Defined.

Section DictMerge.
Variable V : Type.
Implicit Types (d : Dict.t V) (k : string) (v : V).

Lemma NoDup_keys_fold_set (items : list (string * V)) d :
  NoDup (Dict.keys d) ->
  NoDup (Dict.keys (fold_left (fun acc kv => Dict.set (fst kv) (snd kv) acc)
                              items d)).
Proof.
  revert d. induction items as [|[k v] r IH]; intros d H; simpl; auto.
  apply IH. apply NoDup_keys_set. exact H.
Qed.

Lemma get_update k d d' :
  NoDup (Dict.keys d') ->
  Dict.get k (Dict.update d d')
  = match Dict.get k d' with
    | Some v => Some v
    | None => Dict.get k d
    end.
Proof.
  unfold Dict.update. revert d.
  induction d' as [|[k1 v1] r IH]; intros d H; simpl; auto.
  inversion H as [|? ? Hn Hr]; subst. rewrite (IH _ Hr).
  destruct (String.eqb_spec k k1) as [->|Hne].
  - assert (E : Dict.get k1 r = None)
      by (apply get_None_mem, mem_false_not_In; exact Hn).
    rewrite E. apply get_set_same.
  - destruct (Dict.get k r); [reflexivity|].
    apply get_set_other. exact Hne.
Qed.
End DictMerge.

(** X15.  [Legend.add] of a sequence of names that are all registered and
    not [Text], on a figure whose legend is within the registry, returns
    and merges: the names already in the subset keep their positions and
    new ones follow, each name of the sequence now maps to the artist
    registered under it, every other entry is as before, and nothing but
    the legend changes. *)
Theorem Legend_add_merges (names : list string) (self : Figure) :
  registry_inv self -> legend_subset self ->
  forallb (fun name => selectable name self) names = true ->
  exists after suffix,
    Legend_add (NamesSeq names) self = Return after /\
    Dict.keys (LegendState._artists (legend after))
    = Dict.keys (LegendState._artists (legend self)) ++ suffix /\
    (forall k,
        Dict.get k (LegendState._artists (legend after))
        = if str_in k names then Dict.get k (_artists self)
          else Dict.get k (LegendState._artists (legend self))) /\
    after = with_legend (legend after) self.
Proof.
  intros Hinv Hsub Hall.
  destruct (Legend_add_returns names self Hinv Hsub Hall) as [after Hadd].
  destruct (get_all_selectable names self Hall) as (artists & Hget & Hlen).
  destruct (get_all_combine _ names (_artists self) artists Hget)
    as [_ Hitems].
  pose proof Hadd as Hadd'.
  unfold Legend_add, oassert, lift in Hadd'. rewrite Hall in Hadd'.
  cbn [obind] in Hadd'. rewrite Hget in Hadd'.
  destruct (Legend_update_returns_spec _ after Hadd') as (Hafter & _).
  set (d := LegendState._artists (legend self)) in *.
  set (d' := Dict.of_items (combine names artists)) in *.
  assert (Hart : LegendState._artists (legend after) = Dict.update d d')
    by (rewrite Hafter; reflexivity).
  destruct (fold_set_prefix _ d' d) as [suffix Hsuffix].
  exists after, suffix. split; [exact Hadd|]. rewrite Hart.
  split; [exact Hsuffix|]. split.
  - intros k. rewrite get_update
      by (apply (NoDup_keys_fold_set _ _ []); constructor).
    unfold d', Dict.of_items.
    rewrite (get_fold_set _ (_artists self)) by exact Hitems.
    rewrite mem_combine_same_length by exact Hlen.
    destruct (str_in k names) eqn:E; [|reflexivity].
    apply str_in_In in E. rewrite forallb_forall in Hall.
    apply Hall, selectable_registered, mem_get in E.
    destruct E as [a ->]. reflexivity.
  - rewrite Hafter. destruct self. reflexivity.
Qed.

Lemma Legend_add_merges_witness :
  let self :=
    state_of (add_artist (line [1]%Q [1]%Q "g") EmptyString false
                         figure_f_legend) in
  registry_inv self /\ legend_subset self /\
  exists after,
    Legend_add (NamesSeq ["g"; "f"]) self = Return after /\
    Dict.keys (LegendState._artists (legend after)) = ["f"; "g"] /\
    legend_handles (LegendState._mpl_legend (legend after)) = [0; 1]%nat.
Proof.
  intros self.
  assert (H1 : registry_inv self).
  { split; [|reflexivity].
    constructor; [simpl; intuition discriminate|].
    constructor; [simpl; tauto | constructor]. }
  assert (H2 : legend_subset self).
  { intros name.
    change (LegendState._artists (legend self)) with [("f", line_f)].
    change (_artists self)
      with [("f", line_f); ("g", line [1]%Q [1]%Q "g")].
    cbn. destruct (String.eqb name "f"); [reflexivity | discriminate]. }
  destruct (Legend_add_merges ["g"; "f"] self H1 H2 eq_refl)
    as (after & suffix & Hadd & _).
  split; [exact H1|]. split; [exact H2|].
  exists after. split; [exact Hadd|].
  assert (E : Return after = Legend_add (NamesSeq ["g"; "f"]) self)
    by (symmetry; exact Hadd).
  vm_compute in E. injection E as ->. split; reflexivity.
Defined.

(* ------------------------------------------------------------------ *)
(** ** More on the scale pass and the policy                           *)

(** On the figure whose one line has a nan among its y-coordinates,
    [np.min] returns nan; under policy [all] the axes refuse the y-limits
    after the x-limits were set, and under [width] the pass returns. *)
Lemma update_scale_nan_raises :
  Line_init BASE_COLORS (np_array [2; 3]%Q) (np_array [NaN; Finite 1]) "a"
            "k" 1%Q "solid"
  = Ok (line [2; 3]%Q [NaN; Finite 1] "a") /\
  np_min (gathered_y (figure_nan_line "all")) = Ok NaN /\
  update_scale (figure_nan_line "all")
  = Raise limits_error
          (with_limits (2%Q, 3%Q) (0%Q, 1%Q) (figure_nan_line "all")) /\
  xlim (_mpl_ax (figure_nan_line "all")) = (0%Q, 1%Q) /\
  update_scale (figure_nan_line "width")
  = Return (with_limits (2%Q, 3%Q) (0%Q, 1%Q) (figure_nan_line "width")) /\
  update_scale (figure_nan_line "height")
  = Raise limits_error (figure_nan_line "height").
Proof. repeat split; reflexivity. Qed.



(** X17.  [Figure.__init__] with one of the four policies returns a figure
    with no artist, no handle, no mesh, that policy, an empty legend subset
    and a hidden panel; with any other string it raises the options error.
    [set_autoscale] accepts the same four strings and changes the policy
    only; any other string raises the options error and changes nothing. *)
Theorem autoscale_options (mpl_ax : Axes) (autoscale : string)
    (self : Figure) :
  (In autoscale ["all"; "width"; "height"; "none"] ->
   Figure_init mpl_ax autoscale
   = Return (mk_figure mpl_ax [] [] None None autoscale
                       (LegendState.mk (mk_legend [] false) [])) /\
   set_autoscale autoscale self = Return (with_autoscale autoscale self)) /\
  (~ In autoscale ["all"; "width"; "height"; "none"] ->
   raised (Figure_init mpl_ax autoscale)
   = Some (AssertionError
             (OptionsError "Figure" "autoscale" (Some AUTOSCALE_OPTIONS)
                           EmptyString)) /\
   set_autoscale autoscale self
   = Raise (AssertionError
              (OptionsError "Figure" "autoscale" (Some AUTOSCALE_OPTIONS)
                            EmptyString)) self).
Proof.
  change ["all"; "width"; "height"; "none"] with AUTOSCALE_OPTIONS.
  unfold Figure_init, set_autoscale, oassert, Legend_update, lift.
  cbn [Dict.get_all Dict.keys map LegendState._artists legend Dict.empty
       Nat.ltb Nat.leb length obind _artists].
  split; intros H.
  - apply str_in_In in H. rewrite H. split; reflexivity.
  - apply str_in_not_In in H. rewrite H. split; reflexivity.
Qed.

Lemma autoscale_options_witness :
  Figure_init (new_axes refuse_linestyle) "width"
  = Return (mk_figure (new_axes refuse_linestyle) [] [] None None "width"
                      (LegendState.mk (mk_legend [] false) [])) /\
  set_autoscale "both" figure_f
  = Raise (AssertionError
             (OptionsError "Figure" "autoscale" (Some AUTOSCALE_OPTIONS)
                           EmptyString)) figure_f.
Proof.
  destruct (autoscale_options (new_axes refuse_linestyle) "width" figure_f)
    as [Hok _].
  destruct (autoscale_options (new_axes refuse_linestyle) "both" figure_f)
    as [_ Hbad].
  split.
  - apply Hok. simpl. tauto.
  - apply Hbad. simpl. intuition discriminate.
Defined.

(* ------------------------------------------------------------------ *)
(** ** More on the artists                                             *)

Lemma rbind_Ok {A B : Type} (m : result A) (k : A -> result B) b :
  rbind m k = Ok b -> exists a, m = Ok a /\ k a = Ok b.
Proof. destruct m as [a|e]; simpl; [eauto | discriminate]. Qed.

Lemma py_assert_Ok cond m u : py_assert cond m = Ok u -> cond = true.
Proof. unfold py_assert. destruct cond; [reflexivity | discriminate]. Qed.

Lemma Artist_init_Ok x y name b :
  Artist_init x y name = Ok b ->
  b = mk_base (flatten x) (flatten y) name /\
  size (flatten y) = size (flatten x).
Proof.
  unfold Artist_init. cbv zeta. intros H.
  apply rbind_Ok in H. destruct H as (u & Hu & E).
  apply py_assert_Ok, Nat.eqb_eq in Hu. injection E as <-. auto.
Qed.

Lemma Line_attrs_init_Ok COLOR_OPTIONS c lw ls a :
  Line_attrs_init COLOR_OPTIONS c lw ls = Ok a ->
  a = mk_line c lw ls /\ In c COLOR_OPTIONS /\ In ls LS_OPTIONS.
Proof.
  unfold Line_attrs_init, check_color, check_linestyle. intros H.
  apply rbind_Ok in H. destruct H as (c' & Hc & H).
  apply rbind_Ok in Hc. destruct Hc as (u & Hu & Ec). injection Ec as <-.
  apply py_assert_Ok, str_in_In in Hu.
  apply rbind_Ok in H. destruct H as (ls' & Hls & E).
  apply rbind_Ok in Hls. destruct Hls as (u' & Hu' & El). injection El as <-.
  apply py_assert_Ok, str_in_In in Hu'. injection E as <-. auto.
Qed.

Lemma Points_check_color_Ok COLOR_OPTIONS c xdata c' :
  Points_check_color COLOR_OPTIONS c xdata = Ok c' ->
  color_size_ok c' (size xdata) /\
  match c' with
  | ColorName n => In n COLOR_OPTIONS
  | ColorArray _ => True
  end.
Proof.
  destruct c as [n|a]; simpl; intros H; apply rbind_Ok in H;
    destruct H as (u & Hu & E); injection E as <-;
    apply py_assert_Ok in Hu; simpl.
  - split; [exact I | apply str_in_In; exact Hu].
  - split; [apply Nat.eqb_eq; exact Hu | exact I].
Qed.

Lemma num_check_Ok msg (s : num_arg) xdata s' :
  match s with
  | Num q => Ok (NumScalar q)
  | Arr a =>
      let a := flatten a in
      let? _ := py_assert (Nat.eqb (size a) (size xdata)) msg in
      Ok (NumArray a)
  end = Ok s' ->
  attr_size_ok s' (size xdata).
Proof.
  destruct s as [q|a]; cbv zeta; intros H.
  - injection H as <-. exact I.
  - apply rbind_Ok in H. destruct H as (u & Hu & E). injection E as <-.
    apply py_assert_Ok, Nat.eqb_eq in Hu. exact Hu.
Qed.

(** What the constructors establish. *)
Lemma constructed_facts COLOR_OPTIONS artist :
  constructed COLOR_OPTIONS artist ->
  shape_ok artist /\ style_ok COLOR_OPTIONS artist /\ drawable artist.
Proof.
  intros [H|[H|[H|[H|H]]]].
  - destruct H as (x & y & name & c & lw & ls & H). unfold Line_init in H.
    apply rbind_Ok in H. destruct H as (b & Hb & H).
    apply rbind_Ok in H. destruct H as (a & Ha & E). injection E as <-.
    apply Artist_init_Ok in Hb. destruct Hb as [-> Hsize].
    apply Line_attrs_init_Ok in Ha. destruct Ha as (-> & Hc & Hls).
    repeat split; assumption.
  - destruct H as (xy & [dx dy] & name & c & lw & ls & H).
    pose proof (Straight_init_drawable _ _ _ _ _ _ _ _ H) as Hd.
    unfold Straight_init in H.
    apply rbind_Ok in H. destruct H as (b & Hb & H).
    apply rbind_Ok in H. destruct H as (a & Ha & E). injection E as <-.
    apply Artist_init_Ok in Hb. destruct Hb as [-> Hsize].
    apply Line_attrs_init_Ok in Ha. destruct Ha as (-> & Hc & Hls).
    repeat split; try assumption; try discriminate.
  - destruct H as (x & y & name & c & s & t & H). unfold Points_init in H.
    apply rbind_Ok in H. destruct H as (b & Hb & H).
    apply rbind_Ok in H. destruct H as (c' & Hc & H).
    apply rbind_Ok in H. destruct H as (s' & Hs & E). injection E as <-.
    apply Artist_init_Ok in Hb. destruct Hb as [-> Hsize].
    apply Points_check_color_Ok in Hc. destruct Hc as [Hc1 Hc2].
    apply num_check_Ok in Hs.
    repeat split; assumption.
  - destruct H as (x & y & u & v & name & c & pivot & H).
    unfold Arrows_init in H.
    apply rbind_Ok in H. destruct H as (b & Hb & H). cbv zeta in H.
    apply rbind_Ok in H. destruct H as (t & Ht & H).
    apply rbind_Ok in H. destruct H as (c' & Hc & E). injection E as <-.
    apply Artist_init_Ok in Hb. destruct Hb as [-> Hsize].
    apply py_assert_Ok, andb_prop in Ht. destruct Ht as [Hu Hv].
    apply Nat.eqb_eq in Hu, Hv. apply num_check_Ok in Hc.
    cbn [_xdata] in Hv, Hc. split; [|split; exact I].
    unfold shape_ok.
    cbn [get_xdata get_ydata base _xdata _ydata _uv arr_c fst snd].
    repeat split; try assumption. congruence.
  - destruct H as (x & y & txt & name & c & s & ct & off & H).
    pose proof (Text_init_drawable _ _ _ _ _ _ _ _ _ _ H) as Hd.
    unfold Text_init in H.
    apply rbind_Ok in H. destruct H as (b & Hb & H).
    apply rbind_Ok in H. destruct H as (c' & Hc & H).
    apply rbind_Ok in H. destruct H as (ct' & Hct & E). injection E as <-.
    apply Artist_init_Ok in Hb. destruct Hb as [-> Hsize].
    unfold check_color in Hc. apply rbind_Ok in Hc.
    destruct Hc as (u & Hu & Ec). injection Ec as <-.
    apply py_assert_Ok, str_in_In in Hu.
    unfold check_coord_type in Hct. apply rbind_Ok in Hct.
    destruct Hct as (u' & Hu' & Et). injection Et as <-.
    apply py_assert_Ok, mem_In in Hu'.
    repeat split; try assumption; try discriminate.
    apply Hd.
Qed.

(** X18.  Every artist a constructor of [artists.py] returns has
    coordinate arrays of one size, per-point colors and sizes of that same
    size, one point if it is a [Straight] or a [Text], and checked style
    attributes holding accepted values.  With such an artist
    [Figure._add_mpl_artist] reaches its drawing call: no index and no key
    is missing on the way.  It returns, the handle stored, exactly when the
    axes accept that call, and otherwise raises what the axes raise and
    changes nothing. *)
Theorem constructed_artist_ok (COLOR_OPTIONS : list string)
    (artist : Artist) :
  constructed COLOR_OPTIONS artist ->
  shape_ok artist /\ style_ok COLOR_OPTIONS artist /\
  forall label self,
    _add_mpl_artist artist label self
    = match mpl_refuses (_mpl_ax self)
                        (Draw (mpl_kind_for artist) artist
                              (mpl_label_for artist label)) with
      | Some e => Raise e self
      | None =>
          Return (with_mpl_artists
                    (Dict.set (get_name artist) (next_id (_mpl_ax self))
                              (_mpl_artists self))
                    (with_mpl_ax
                       (snd (mpl_draw (mpl_kind_for artist)
                                      (mpl_label_for artist label)
                                      (_mpl_ax self))) self))
      end.
Proof.
  intros H. destruct (constructed_facts COLOR_OPTIONS artist H)
    as (Hshape & Hstyle & Hd).
  split; [exact Hshape|]. split; [exact Hstyle|].
  intros label self. rewrite (add_mpl_artist_drawable _ _ _ Hd).
  unfold draw_and_store.
  destruct (mpl_refuses (_mpl_ax self) _); reflexivity.
Qed.

Lemma constructed_artist_ok_witness :
  constructed BASE_COLORS line_f /\
  shape_ok line_f /\ style_ok BASE_COLORS line_f /\
  _mpl_artists (state_of (_add_mpl_artist line_f "f" (new_figure "none")))
  = [("f", 0%nat)].
Proof.
  assert (H : constructed BASE_COLORS line_f).
  { left. exists (np_array [0; 1; 2]%Q), (np_array [0; 1; 4]%Q), "f", "k",
      1%Q, "solid". reflexivity. }
  destruct (constructed_artist_ok BASE_COLORS line_f H)
    as (Hshape & Hstyle & Hdraw).
  split; [exact H|]. split; [exact Hshape|]. split; [exact Hstyle|].
  rewrite Hdraw. reflexivity.
Defined.

Lemma snd_assign {A B : Type} (P : A -> Prop) (self : A) (check : result B)
    (store : B -> A) :
  P self -> (forall b, check = Ok b -> P (store b)) ->
  P (snd (assign self check store)).
Proof.
  intros Hself Hstore. unfold assign. destruct check as [b|e]; simpl; auto.
Qed.

(** X19.  The setters keep what the constructors establish, whether they
    return or raise: after any call of [Points.set_color],
    [Points.set_size], [Arrows.set_color] or [Arrows.set_pivot] the
    per-point attributes still have the size of the coordinates, and after
    any call of a setter of [Line] or [Text] the checked style attributes
    still hold accepted values. *)
Theorem setters_keep_artist_ok (COLOR_OPTIONS : list string)
    (b : ArtistBase) :
  (forall self c s,
      shape_ok (Points b self) /\ style_ok COLOR_OPTIONS (Points b self) ->
      (shape_ok (Points b (snd (Points_set_color COLOR_OPTIONS c b self))) /\
       style_ok COLOR_OPTIONS
                (Points b (snd (Points_set_color COLOR_OPTIONS c b self)))) /\
      (shape_ok (Points b (snd (Points_set_size s b self))) /\
       style_ok COLOR_OPTIONS (Points b (snd (Points_set_size s b self))))) /\
  (forall self c pivot,
      shape_ok (Arrows b self) ->
      shape_ok (Arrows b (snd (Arrows_set_color c b self))) /\
      shape_ok (Arrows b (snd (Arrows_set_pivot pivot self)))) /\
  (forall self c lw ls,
      style_ok COLOR_OPTIONS (Line b self) ->
      style_ok COLOR_OPTIONS
               (Line b (snd (Line_set_color COLOR_OPTIONS c self))) /\
      style_ok COLOR_OPTIONS (Line b (snd (Line_set_linewidth lw self))) /\
      style_ok COLOR_OPTIONS (Line b (snd (Line_set_linestyle ls self)))) /\
  (forall self c coord_type,
      style_ok COLOR_OPTIONS (Text b self) ->
      style_ok COLOR_OPTIONS
               (Text b (snd (Text_set_color COLOR_OPTIONS c self))) /\
      style_ok COLOR_OPTIONS
               (Text b (snd (Text_set_coord_type coord_type self)))).
Proof.
  split; [|split; [|split]].
  - intros self c s [(Hxy & Hc & Hs) Hstyle]. split.
    + unfold Points_set_color.
      apply (snd_assign (fun a => shape_ok (Points b a) /\
                                  style_ok COLOR_OPTIONS (Points b a))).
      * repeat split; assumption.
      * intros c' Hc'. apply Points_check_color_Ok in Hc'.
        destruct Hc' as [H1 H2]. repeat split; assumption.
    + unfold Points_set_size.
      apply (snd_assign (fun a => shape_ok (Points b a) /\
                                  style_ok COLOR_OPTIONS (Points b a))).
      * repeat split; assumption.
      * intros s' Hs'. apply num_check_Ok in Hs'.
        repeat split; assumption.
  - intros self c pivot (Hxy & Hu & Hv & Hc). split.
    + unfold Arrows_set_color.
      apply (snd_assign (fun a => shape_ok (Arrows b a))).
      * repeat split; assumption.
      * intros c' Hc'. apply num_check_Ok in Hc'. repeat split; assumption.
    + unfold Arrows_set_pivot.
      apply (snd_assign (fun a => shape_ok (Arrows b a))).
      * repeat split; assumption.
      * intros _ _. repeat split; assumption.
  - intros self c lw ls [Hc Hls]. split; [|split].
    + unfold Line_set_color.
      apply (snd_assign (fun a => style_ok COLOR_OPTIONS (Line b a)));
        [split; assumption|].
      intros c' H. unfold check_color in H. apply rbind_Ok in H.
      destruct H as (u & Hu & E). injection E as <-.
      apply py_assert_Ok, str_in_In in Hu. split; assumption.
    + split; assumption.
    + unfold Line_set_linestyle.
      apply (snd_assign (fun a => style_ok COLOR_OPTIONS (Line b a)));
        [split; assumption|].
      intros ls' H. unfold check_linestyle in H. apply rbind_Ok in H.
      destruct H as (u & Hu & E). injection E as <-.
      apply py_assert_Ok, str_in_In in Hu. split; assumption.
  - intros self c ct [Hc Hct]. split.
    + unfold Text_set_color.
      apply (snd_assign (fun a => style_ok COLOR_OPTIONS (Text b a)));
        [split; assumption|].
      intros c' H. unfold check_color in H. apply rbind_Ok in H.
      destruct H as (u & Hu & E). injection E as <-.
      apply py_assert_Ok, str_in_In in Hu. split; assumption.
    + unfold Text_set_coord_type.
      apply (snd_assign (fun a => style_ok COLOR_OPTIONS (Text b a)));
        [split; assumption|].
      intros t H. unfold check_coord_type in H. apply rbind_Ok in H.
      destruct H as (u & Hu & E). injection E as <-.
      apply py_assert_Ok, mem_In in Hu. split; assumption.
Qed.

Lemma setters_keep_artist_ok_witness :
  let b := mk_base [0; 1; 2]%Q [0; 1; 4]%Q "p" in
  let self := mk_points (ColorArray [1; 2; 3]%Q) (NumScalar 1%Q) "." in
  shape_ok (Points b self) /\
  fst (Points_set_color BASE_COLORS (CArr (np_array [1; 2]%Q)) b self)
  = Some (AssertionError size_msg_Points_color) /\
  shape_ok (Points b (snd (Points_set_color BASE_COLORS
                             (CArr (np_array [1; 2]%Q)) b self))) /\
  shape_ok (Points b (snd (Points_set_size (Arr (np_array [5; 5; 5]%Q))
                                           b self))).
Proof.
  intros b self.
  assert (H : shape_ok (Points b self) /\
              style_ok BASE_COLORS (Points b self))
    by (repeat split).
  destruct (setters_keep_artist_ok BASE_COLORS b) as (Hp & _).
  destruct (Hp self (CArr (np_array [1; 2]%Q))
               (Arr (np_array [5; 5; 5]%Q)) H) as [[Hc _] [Hs _]].
  split; [exact (proj1 H)|]. split; [reflexivity|].
  split; [exact Hc | exact Hs].
Defined.

(** X20.  [Arrows.__init__] stores the [pivot] it is given without looking
    at it, while [Arrows.set_pivot] stores only ['tip'], ['mid'] and
    ['tail'] and raises the options error on any other string, leaving the
    object as it was: the constructor builds artists whose pivot the setter
    refuses. *)
Theorem Arrows_pivot_unchecked (x y u v : ndarray) (name : string)
    (c : num_arg) (pivot : string) :
  size (flatten y) = size (flatten x) ->
  size (flatten u) = size (flatten x) ->
  size (flatten v) = size (flatten x) ->
  per_point_ok c (size (flatten x)) ->
  (exists c',
      Arrows_init x y u v name c pivot
      = Ok (Arrows (mk_base (flatten x) (flatten y) name)
                   (mk_arrows (flatten u, flatten v) c' pivot))) /\
  forall self,
    (In pivot ["tip"; "mid"; "tail"] ->
     Arrows_set_pivot pivot self
     = (None, mk_arrows (_uv self) (arr_c self) pivot)) /\
    (~ In pivot ["tip"; "mid"; "tail"] ->
     Arrows_set_pivot pivot self
     = (Some (AssertionError
                (OptionsError "Arrows" "pivot" (Some PIVOT_OPTIONS)
                              EmptyString)),
        self)).
Proof.
  intros Hy Hu Hv Hc. split.
  - unfold Arrows_init. rewrite (Artist_init_equal x y name Hy).
    cbn [rbind _xdata]. unfold py_assert.
    rewrite Hu, Hv, Nat.eqb_refl. cbn [andb rbind].
    destruct (Arrows_check_color_ok c (flatten x) Hc) as [c' ->].
    exists c'. reflexivity.
  - intros self. change ["tip"; "mid"; "tail"] with PIVOT_OPTIONS.
    unfold Arrows_set_pivot, py_assert. split; intros H.
    + apply str_in_In in H. rewrite H. reflexivity.
    + apply str_in_not_In in H. rewrite H. reflexivity.
Qed.

Lemma Arrows_pivot_unchecked_witness :
  let xs := np_array [0; 1]%Q in
  (exists a, Arrows_init xs xs xs xs "w" (Num 0%Q) "north" = Ok a) /\
  forall self,
    Arrows_set_pivot "north" self
    = (Some (AssertionError
               (OptionsError "Arrows" "pivot" (Some PIVOT_OPTIONS)
                             EmptyString)),
       self).
Proof.
  intros xs.
  destruct (Arrows_pivot_unchecked xs xs xs xs "w" (Num 0%Q) "north"
              eq_refl eq_refl eq_refl I) as [[c' Hinit] Hset].
  split; [eexists; exact Hinit|].
  intros self. apply (proj2 (Hset self)). simpl. intuition discriminate.
Defined.

Lemma shape_eqb_eq a b : shape_eqb a b = true <-> shape a = shape b.
Proof.
  unfold shape_eqb. destruct (list_eq_dec Nat.eq_dec (shape a) (shape b));
    split; congruence.
Qed.

(** X21.  [ColorMesh.__init__] returns the mesh exactly when [X] has two
    dimensions and [X], [Y] and [C] have the same shape; it raises an
    assertion error otherwise.  Equal sizes after flattening are not
    enough. *)
Theorem ColorMesh_init_shapes (X Y C : ndarray) (cmap : string) :
  (length (shape X) = 2%nat /\ shape X = shape Y /\ shape Y = shape C ->
   ColorMesh_init X Y C cmap = Ok (mk_mesh X Y C cmap)) /\
  (~ (length (shape X) = 2%nat /\ shape X = shape Y /\ shape Y = shape C) ->
   exists msg, ColorMesh_init X Y C cmap = Err (AssertionError (Plain msg))).
Proof.
  unfold ColorMesh_init, py_assert. split.
  - intros (H2 & Hxy & Hyc). rewrite H2. cbn [Nat.eqb rbind].
    rewrite (proj2 (shape_eqb_eq X Y) Hxy), (proj2 (shape_eqb_eq Y C) Hyc).
    reflexivity.
  - intros H. destruct (Nat.eqb_spec (length (shape X)) 2) as [E2|E2];
      cbn [rbind]; [|eexists; reflexivity].
    destruct (shape_eqb X Y) eqn:Exy; cbn [andb rbind];
      [|eexists; reflexivity].
    destruct (shape_eqb Y C) eqn:Eyc; cbn [rbind]; [|eexists; reflexivity].
    exfalso. apply H. rewrite <- !shape_eqb_eq. auto.
Qed.

Lemma ColorMesh_init_shapes_witness :
  let X := mk_ndarray [2; 3]%nat [0; 1; 2; 0; 1; 2]%Q in
  let Y := mk_ndarray [3; 2]%nat [0; 0; 1; 1; 2; 2]%Q in
  size (flatten X) = size (flatten Y) /\
  ColorMesh_init X X X "plasma" = Ok (mk_mesh X X X "plasma") /\
  exists msg, ColorMesh_init X Y X "plasma" = Err (AssertionError (Plain msg)).
Proof.
  intros X Y.
  destruct (ColorMesh_init_shapes X X X "plasma") as [Hok _].
  destruct (ColorMesh_init_shapes X Y X "plasma") as [_ Hbad].
  split; [reflexivity|]. split.
  - apply Hok. repeat split.
  - apply Hbad. intros (_ & H & _). discriminate H.
Defined.

(** X22.  [Points.set_size] and [Arrows.set_color] store one number
    whatever the number of points, store an array when its flattened size
    is the number of points, and otherwise raise the size assertion and
    leave the object as it was. *)
Theorem per_point_setters (b : ArtistBase) (p : PointsAttrs)
    (w : ArrowsAttrs) :
  (forall q,
      Points_set_size (Num q) b p
      = (None, mk_points (pts_c p) (NumScalar q) (pts_t p)) /\
      Arrows_set_color (Num q) b w
      = (None, mk_arrows (_uv w) (NumScalar q) (_pivot w))) /\
  (forall a,
      size (flatten a) = size (_xdata b) ->
      Points_set_size (Arr a) b p
      = (None, mk_points (pts_c p) (NumArray (flatten a)) (pts_t p)) /\
      Arrows_set_color (Arr a) b w
      = (None, mk_arrows (_uv w) (NumArray (flatten a)) (_pivot w))) /\
  (forall a,
      size (flatten a) <> size (_xdata b) ->
      Points_set_size (Arr a) b p
      = (Some (AssertionError size_msg_Points_size), p) /\
      Arrows_set_color (Arr a) b w
      = (Some (AssertionError size_msg_Arrows_color), w)).
Proof.
  unfold Points_set_size, Arrows_set_color, Points_check_size,
    Arrows_check_color, py_assert.
  split; [|split].
  - intros q. split; reflexivity.
  - intros a H. cbv zeta. rewrite H, Nat.eqb_refl. split; reflexivity.
  - intros a H. cbv zeta.
    destruct (Nat.eqb_spec (size (flatten a)) (size (_xdata b)));
      [congruence|]. split; reflexivity.
Qed.

Lemma per_point_setters_witness :
  let b := mk_base [0; 1; 2]%Q [0; 1; 4]%Q "p" in
  let p := mk_points (ColorName "k") (NumScalar 1%Q) "." in
  Points_set_size (Arr (np_array [1; 2]%Q)) b p
  = (Some (AssertionError size_msg_Points_size), p) /\
  Points_set_size (Arr (np_array [1; 2; 3]%Q)) b p
  = (None, mk_points (ColorName "k") (NumArray [1; 2; 3]%Q) ".").
Proof.
  intros b p.
  destruct (per_point_setters b p (mk_arrows ([], []) (NumScalar 0%Q) "mid"))
    as (_ & Hok & Hbad).
  split.
  - apply (Hbad (np_array [1; 2]%Q)). simpl. discriminate.
  - apply (Hok (np_array [1; 2; 3]%Q)). reflexivity.
Defined.

(** *** The convenience methods of [Figure] *)

Lemma Line_init_name COLOR_OPTIONS x y name c lw ls a :
  Line_init COLOR_OPTIONS x y name c lw ls = Ok a ->
  get_name a = name /\ drawable a.
Proof.
  unfold Line_init. intros H.
  apply rbind_Ok in H. destruct H as (b & Hb & H).
  apply rbind_Ok in H. destruct H as (l & _ & E). injection E as <-.
  apply Artist_init_Ok in Hb. destruct Hb as [-> _]. split; [reflexivity|].
  exact I.
Qed.

Lemma Straight_init_name COLOR_OPTIONS xy dir name c lw ls a :
  Straight_init COLOR_OPTIONS xy dir name c lw ls = Ok a ->
  get_name a = name /\ drawable a.
Proof.
  intros H. split; [|exact (Straight_init_drawable _ _ _ _ _ _ _ _ H)].
  unfold Straight_init in H. destruct dir as [dx dy].
  apply rbind_Ok in H. destruct H as (b & Hb & H).
  apply rbind_Ok in H. destruct H as (l & _ & E). injection E as <-.
  apply Artist_init_Ok in Hb. destruct Hb as [-> _]. reflexivity.
Qed.

Lemma Points_init_name COLOR_OPTIONS x y name c s t a :
  Points_init COLOR_OPTIONS x y name c s t = Ok a ->
  get_name a = name /\ drawable a.
Proof.
  unfold Points_init. intros H.
  apply rbind_Ok in H. destruct H as (b & Hb & H).
  apply rbind_Ok in H. destruct H as (c' & _ & H).
  apply rbind_Ok in H. destruct H as (s' & _ & E). injection E as <-.
  apply Artist_init_Ok in Hb. destruct Hb as [-> _]. split; [reflexivity|].
  exact I.
Qed.

Lemma Arrows_init_name x y u v name c pivot a :
  Arrows_init x y u v name c pivot = Ok a ->
  get_name a = name /\ drawable a.
Proof.
  unfold Arrows_init. intros H.
  apply rbind_Ok in H. destruct H as (b & Hb & H). cbv zeta in H.
  apply rbind_Ok in H. destruct H as (t & _ & H).
  apply rbind_Ok in H. destruct H as (c' & _ & E). injection E as <-.
  apply Artist_init_Ok in Hb. destruct Hb as [-> _]. split; [reflexivity|].
  exact I.
Qed.

Lemma Text_init_name COLOR_OPTIONS x y txt name c s coord_type offset a :
  Text_init COLOR_OPTIONS x y txt name c s coord_type offset = Ok a ->
  get_name a = name /\ drawable a.
Proof.
  intros H. split; [|exact (Text_init_drawable _ _ _ _ _ _ _ _ _ _ H)].
  unfold Text_init in H.
  apply rbind_Ok in H. destruct H as (b & Hb & H).
  apply rbind_Ok in H. destruct H as (c' & _ & H).
  apply rbind_Ok in H. destruct H as (ct & _ & E). injection E as <-.
  apply Artist_init_Ok in Hb. destruct Hb as [-> _]. reflexivity.
Qed.

(** The ways [add_artist] goes for an artist a constructor built: the
    name is taken and [overwrite] is not set; or it draws into [pre], the
    figure itself or the figure [remove_artist] left, and the axes accept
    or refuse. *)
Lemma add_artist_cases self p label overwrite :
  registry_inv self -> drawable p ->
  let pre := if Dict.mem (get_name p) (_artists self)
             then state_of (remove_artist (get_name p) self) else self in
  let label' := if String.eqb label EmptyString then get_name p else label in
  (Dict.mem (get_name p) (_artists self) = true /\ overwrite = false /\
   add_artist p label overwrite self = Raise DuplicateNameError self) \/
  ((Dict.mem (get_name p) (_artists self) = false \/ overwrite = true) /\
   Dict.mem (get_name p) (_artists pre) = false /\
   ((mpl_refuses (_mpl_ax self) (draw_request p label) = None /\
     add_artist p label overwrite self
     = Return
         (with_artists (Dict.set (get_name p) p (_artists pre))
            (with_mpl_artists
               (Dict.set (get_name p) (next_id (_mpl_ax pre))
                         (_mpl_artists pre))
               (with_mpl_ax
                  (snd (mpl_draw (mpl_kind_for p) (mpl_label_for p label')
                                 (_mpl_ax pre)))
                  pre)))) \/
    (exists e,
        mpl_refuses (_mpl_ax self) (draw_request p label) = Some e /\
        add_artist p label overwrite self = Raise e pre))).
Proof.
  intros Hinv Hd pre label'. subst pre label'.
  destruct (Dict.mem (get_name p) (_artists self)) eqn:E.
  - destruct overwrite.
    + right. split; [right; reflexivity|].
      destruct (add_artist_overwrite_taken self p label Hinv E)
        as (h & _ & Hrm & _ & Hfresh & Hsame).
      cbv zeta in Hrm, Hfresh, Hsame. rewrite Hrm, Hsame. cbn [state_of].
      split; [exact Hfresh|].
      destruct (mpl_refuses (_mpl_ax self) (draw_request p label))
        as [e|] eqn:Er.
      * right. exists e. split; [reflexivity|].
        apply add_artist_fresh_refused; assumption.
      * left. split; [reflexivity|].
        apply (add_artist_fresh p label false _ Hd Hfresh). exact Er.
    + left. split; [reflexivity|]. split; [reflexivity|].
      unfold add_artist. rewrite E. reflexivity.
  - right. split; [left; reflexivity|]. split; [exact E|].
    destruct (mpl_refuses (_mpl_ax self) (draw_request p label))
      as [e|] eqn:Er.
    + right. exists e. split; [reflexivity|].
      apply add_artist_fresh_refused; assumption.
    + left. split; [reflexivity|].
      apply (add_artist_fresh p label overwrite self Hd E Er).
Qed.

Lemma add_artist_outcome self a label overwrite :
  reachable self -> drawable a ->
  match add_artist a label overwrite self with
  | Return self' =>
      Dict.get (get_name a) (_artists self') = Some a /\ reachable self'
  | Raise e self' =>
      self' = self \/ overwrite_lost self (get_name a) overwrite e self'
  end.
Proof.
  intros Hr Hd.
  pose proof (@reachable_call (Call_add_artist a label overwrite) self Hr Hd)
    as Hr'. cbn [exec] in Hr'.
  pose proof (reachable_registry_inv self Hr) as Hinv.
  destruct (add_artist_cases self a label overwrite Hinv Hd)
    as [(_ & _ & E)|(Hcase & Hfresh & [[_ E]|(e & Href & E)])];
    cbv zeta in *; rewrite E in Hr' |- *; cbn [state_of] in Hr'.
  - left. reflexivity.
  - split; [|exact Hr']. cbn [_artists with_artists]. apply get_set_same.
  - destruct (Dict.mem (get_name a) (_artists self)) eqn:Em;
      [|left; reflexivity].
    right. destruct Hcase as [Hcase| ->]; [discriminate|].
    destruct (remove_artist_registered _ _ Hinv Em) as (h & _ & Hrm).
    rewrite Hrm in Hfresh |- *. cbn [state_of] in Hfresh |- *.
    split; [reflexivity|]. split; [exact Em|]. split; [exact Hrm|].
    split; [exact Hfresh|]. eexists. exact Href.
Qed.

Lemma build_and_add_artist COLOR_OPTIONS self built name label overwrite :
  reachable self ->
  (forall a, built = Ok a ->
             constructed COLOR_OPTIONS a /\ get_name a = name /\ drawable a) ->
  built_or_raised self
    (build_and_add built (fun a => add_artist a label overwrite) self)
    (registered_as COLOR_OPTIONS name)
    (overwrite_lost self name overwrite).
Proof.
  intros Hr Hb. unfold build_and_add. destruct built as [a|e];
    [|left; reflexivity].
  destruct (Hb a eq_refl) as (Hc & Hn & Hd).
  pose proof (add_artist_outcome self a label overwrite Hr Hd) as H.
  rewrite Hn in H.
  destruct (add_artist a label overwrite self) as [self'|e self'];
    cbn [built_or_raised]; [|exact H].
  destruct H as [Hget Hr'].
  repeat split; assumption.
Qed.

(** X23.  On a figure in a state its methods can reach, each of
    [Figure.straight], [Figure.plot], [Figure.scatter], [Figure.arrows] and
    [Figure.text] either returns the artist it built, registered under the
    name passed, or raises.  When it raises, the figure is as it was: a
    failing constructor, a taken name without [overwrite], or a refusal of
    the axes under a free name changes nothing.  There is one exception:
    with [overwrite] on a taken name, when the axes refuse the artist the
    constructor accepted, the figure is the one [remove_artist] left and
    the old entry is gone.  [Figure.color_mesh] likewise returns the mesh
    it built, now the figure's mesh, or raises and changes nothing, unless
    it was overwriting a mesh and the axes refused the new one: then the
    slot is empty. *)
Theorem Figure_helpers_outcome (COLOR_OPTIONS : list string)
    (self : Figure) :
  reachable self ->
  (forall xy dir name c lw ls label overwrite,
      built_or_raised self
        (Figure_straight COLOR_OPTIONS xy dir name c lw ls label overwrite
                         self)
        (registered_as COLOR_OPTIONS name)
        (overwrite_lost self name overwrite)) /\
  (forall x y name c lw ls label overwrite,
      built_or_raised self
        (Figure_plot COLOR_OPTIONS x y name c lw ls label overwrite self)
        (registered_as COLOR_OPTIONS name)
        (overwrite_lost self name overwrite)) /\
  (forall x y name c s label overwrite,
      built_or_raised self
        (Figure_scatter COLOR_OPTIONS x y name c s label overwrite self)
        (registered_as COLOR_OPTIONS name)
        (overwrite_lost self name overwrite)) /\
  (forall x y u v name c pivot label overwrite,
      built_or_raised self
        (Figure_arrows x y u v name c pivot label overwrite self)
        (registered_as COLOR_OPTIONS name)
        (overwrite_lost self name overwrite)) /\
  (forall x y text name c s coord_type offset overwrite,
      built_or_raised self
        (Figure_text COLOR_OPTIONS x y text name c s coord_type offset
                     overwrite self)
        (registered_as COLOR_OPTIONS name)
        (overwrite_lost self name overwrite)) /\
  (forall X Y C cmap overwrite,
      built_or_raised self (Figure_color_mesh X Y C cmap overwrite self)
        (fun color_mesh self' =>
           ColorMesh_init X Y C cmap = Ok color_mesh /\
           _color_mesh self' = Some color_mesh /\ reachable self')
        (mesh_overwrite_lost self overwrite)).
Proof.
  intros Hr. repeat split.
  - intros xy dir name c lw ls label overwrite.
    apply build_and_add_artist; [exact Hr|]. intros a H.
    destruct (Straight_init_name _ _ _ _ _ _ _ _ H) as [Hn Hd].
    split; [|split; assumption].
    right; left. exists xy, dir, name, c, lw, ls. exact H.
  - intros x y name c lw ls label overwrite.
    apply build_and_add_artist; [exact Hr|]. intros a H.
    destruct (Line_init_name _ _ _ _ _ _ _ _ H) as [Hn Hd].
    split; [|split; assumption].
    left. exists x, y, name, c, lw, ls. exact H.
  - intros x y name c s label overwrite.
    apply build_and_add_artist; [exact Hr|]. intros a H.
    destruct (Points_init_name _ _ _ _ _ _ _ _ H) as [Hn Hd].
    split; [|split; assumption].
    right; right; left. exists x, y, name, c, s, ".". exact H.
  - intros x y u v name c pivot label overwrite.
    apply build_and_add_artist; [exact Hr|]. intros a H.
    destruct (Arrows_init_name _ _ _ _ _ _ _ _ H) as [Hn Hd].
    split; [|split; assumption].
    right; right; right; left. exists x, y, u, v, name, c, pivot. exact H.
  - intros x y text name c s coord_type offset overwrite.
    apply build_and_add_artist; [exact Hr|]. intros a H.
    destruct (Text_init_name _ _ _ _ _ _ _ _ _ _ H) as [Hn Hd].
    split; [|split; assumption].
    right; right; right; right.
    exists x, y, text, name, c, s, coord_type, offset. exact H.
  - intros X Y C cmap overwrite.
    unfold Figure_color_mesh, build_and_add.
    destruct (ColorMesh_init X Y C cmap) as [m|e]; [|left; reflexivity].
    pose proof (@reachable_call (Call_add_color_mesh m overwrite) self Hr I)
      as Hr'. cbn [exec] in Hr'.
    pose proof (reachable_figure_inv self Hr) as Hinv.
    assert (Hmesh : mesh_inv self) by apply Hinv.
    destruct (add_color_mesh_cases m overwrite self Hmesh)
      as (pre & Hnone & _ & _ & _ & _ & _ & Hrm &
          [(_ & _ & E)|[(Hcase & e & Href & E)|(_ & _ & E)]]);
      rewrite E in Hr' |- *; cbn [state_of built_or_raised] in Hr' |- *.
    + split; [reflexivity|]. split; [reflexivity | exact Hr'].
    + destruct Hcase as [[_ ->]|[Hocc ->]]; [left; reflexivity|].
      right. split; [reflexivity|]. split; [exact Hocc|].
      split; [exact (Hrm Hocc)|].
      split; [exact Hnone | eexists; exact Href].
    + left. reflexivity.
Qed.

(** On the figure that holds the line [f]: a new line [g] is registered; a
    line named [f] without [overwrite] and a line of mismatched sizes
    change nothing; a line named [f] in the style ['--:'] with [overwrite]
    takes [f] away and raises. *)
Lemma Figure_helpers_outcome_witness :
  (exists a self',
      Figure_plot BASE_COLORS (np_array [0; 1]%Q) (np_array [1; 2]%Q) "g"
                  "k" 1%Q "solid" EmptyString false figure_f
      = (Return self', Some a) /\
      Dict.get "g" (_artists self') = Some a) /\
  (exists e,
      Figure_plot BASE_COLORS (np_array [0; 1]%Q) (np_array [1; 2]%Q) "f"
                  "k" 1%Q "solid" EmptyString false figure_f
      = (Raise e figure_f, None)) /\
  (exists e,
      Figure_plot BASE_COLORS (np_array [0; 1]%Q) (np_array [1]%Q) "g"
                  "k" 1%Q "solid" EmptyString true figure_f
      = (Raise e figure_f, None)) /\
  (exists e self',
      Figure_plot BASE_COLORS (np_array [0; 1]%Q) (np_array [1; 2]%Q) "f"
                  "k" 1%Q "--:" EmptyString true figure_f
      = (Raise e self', None) /\
      remove_artist "f" figure_f = Return self' /\
      _artists self' = []).
Proof.
  destruct (Figure_helpers_outcome BASE_COLORS figure_f reachable_figure_f)
    as (_ & Hplot & _).
  pose proof (Hplot (np_array [0; 1]%Q) (np_array [1; 2]%Q) "g" "k" 1%Q
                    "solid" EmptyString false) as H1.
  pose proof (Hplot (np_array [0; 1]%Q) (np_array [1; 2]%Q) "f" "k" 1%Q
                    "--:" EmptyString true) as H4.
  split; [|split; [|split]].
  - eexists _, _. split; [reflexivity|]. apply H1.
  - eexists. reflexivity.
  - eexists. reflexivity.
  - eexists _, _. split; [reflexivity|].
    destruct H4 as [H4|(_ & _ & Hrm & _)]; [discriminate H4|].
    split; [exact Hrm | reflexivity].
Defined.

(* ------------------------------------------------------------------ *)
(** ** [Figure3D]                                                      *)

Section Figure3DFacts.
Import Figure3D.

Lemma keys_set_same_keys {V W : Type} k (v : V) (w : W) d d' :
  Dict.keys d = Dict.keys d' ->
  Dict.keys (Dict.set k v d) = Dict.keys (Dict.set k w d').
Proof.
  intros E. destruct (Dict.mem k d) eqn:Hm.
  - rewrite (keys_set_present V k v d Hm).
    rewrite (mem_same_keys V k d d' E) in Hm.
    rewrite (keys_set_present W k w d' Hm). exact E.
  - rewrite (keys_set_fresh V k v d Hm).
    rewrite (mem_same_keys V k d d' E) in Hm.
    rewrite (keys_set_fresh W k w d' Hm). rewrite E. reflexivity.
Qed.

Lemma Figure3D_remove_registered name self :
  consistent self -> Dict.mem name (_artists self) = true ->
  exists h,
    Dict.get name (_mpl_artists self) = Some h /\
    remove_artist name self
    = Return (mk (undraw h (_mpl_ax self))
                 (Dict.remove name (_mpl_artists self))
                 (Dict.remove name (_artists self))
                 (_color_mesh self) (_mpl_surf self)).
Proof.
  intros (Hnd & Hkeys & _) Hmem.
  assert (Hm : Dict.mem name (_mpl_artists self) = true)
    by (rewrite (mem_same_keys _ name _ _ Hkeys); exact Hmem).
  apply mem_get in Hm. destruct Hm as [h Hh]. exists h. split; [exact Hh|].
  unfold remove_artist. rewrite Hmem. unfold Dict.pop. rewrite Hh.
  reflexivity.
Qed.

Lemma Figure3D_consistent_remove_artist name self :
  consistent self -> consistent (state_of (remove_artist name self)).
Proof.
  intros Hinv. destruct (Dict.mem name (_artists self)) eqn:E.
  - destruct (Figure3D_remove_registered _ _ Hinv E) as (h & _ & ->).
    destruct Hinv as (Hnd & Hkeys & Hmesh). repeat split; cbn.
    + apply NoDup_keys_remove. exact Hnd.
    + apply keys_remove_same_keys. exact Hkeys.
    + apply Hmesh.
    + apply Hmesh.
  - unfold remove_artist. rewrite E. exact Hinv.
Qed.

Lemma Figure3D_add_mpl_artist_cases artist label self :
  (exists e, _add_mpl_artist artist label self = Raise e self) \/
  (exists d,
      drawn_id d = next_id (_mpl_ax self) /\
      _add_mpl_artist artist label self
      = Return (mk (mk_axes3d (S (next_id (_mpl_ax self)))
                              (children (_mpl_ax self) ++ [d])
                              (refuses (_mpl_ax self)))
                   (Dict.set (get_name artist) (next_id (_mpl_ax self))
                             (_mpl_artists self))
                   (_artists self) (_color_mesh self) (_mpl_surf self))).
Proof.
  assert (Hd : forall kind s lbl,
             (exists e, draw_and_store kind s lbl self = Raise e self) \/
             (exists d,
                 drawn_id d = next_id (_mpl_ax self) /\
                 draw_and_store kind s lbl self
                 = Return (mk (mk_axes3d (S (next_id (_mpl_ax self)))
                                         (children (_mpl_ax self) ++ [d])
                                         (refuses (_mpl_ax self)))
                              (Dict.set (get_name (Of3D s))
                                        (next_id (_mpl_ax self))
                                        (_mpl_artists self))
                              (_artists self) (_color_mesh self)
                              (_mpl_surf self)))).
  { intros kind s lbl. unfold draw_and_store.
    destruct (refuses (_mpl_ax self) (Draw kind s lbl)).
    - left. eexists. reflexivity.
    - right. eexists. split; [|reflexivity]. reflexivity. }
  destruct artist as [a|s].
  - left. destruct a; eexists; reflexivity.
  - destruct s as [b z a|b z c s|b z txt c s off];
      cbn [_add_mpl_artist]; try apply Hd.
    destruct (item0 (_xdata b)); [|left; eexists; reflexivity].
    destruct (item0 (_ydata b)); [|left; eexists; reflexivity].
    destruct (item0 z); [|left; eexists; reflexivity].
    apply Hd.
Qed.

Lemma Figure3D_consistent_add_artist artist label overwrite self :
  consistent self ->
  consistent (state_of (add_artist artist label overwrite self)).
Proof.
  intros Hinv.
  assert (Hdraw : forall pre label',
             consistent pre ->
             consistent
               (state_of
                  match _add_mpl_artist artist label' pre with
                  | Raise e self0 => Raise e self0
                  | Return self0 =>
                      Return (mk (_mpl_ax self0) (_mpl_artists self0)
                                 (Dict.set (get_name artist) artist
                                           (_artists self0))
                                 (_color_mesh self0) (_mpl_surf self0))
                  end)).
  { intros pre label' (Hnd & Hkeys & Hmesh).
    destruct (Figure3D_add_mpl_artist_cases artist label' pre)
      as [[e ->]|(d & _ & ->)]; cbn.
    - repeat split; try assumption; apply Hmesh.
    - repeat split.
      + apply NoDup_keys_set. exact Hnd.
      + apply keys_set_same_keys. exact Hkeys.
      + apply Hmesh.
      + apply Hmesh. }
  unfold add_artist. cbv zeta.
  destruct (Dict.mem (get_name artist) (_artists self)) eqn:Hmem.
  - destruct overwrite; [|exact Hinv].
    pose proof (Figure3D_consistent_remove_artist (get_name artist) self Hinv)
      as Hpre.
    destruct (remove_artist (get_name artist) self) as [pre|e pre];
      cbn [state_of] in Hpre; [|exact Hpre].
    apply Hdraw. exact Hpre.
  - apply Hdraw. exact Hinv.
Qed.

Lemma Figure3D_consistent_remove_color_mesh self :
  consistent self -> consistent (state_of (remove_color_mesh self)).
Proof.
  intros (Hnd & Hkeys & Hmesh). unfold remove_color_mesh.
  destruct (_color_mesh self) eqn:E.
  - destruct (_mpl_surf self); cbn; repeat split; auto.
  - cbn. repeat split; try assumption; rewrite E; apply Hmesh.
Qed.

Lemma Figure3D_consistent_add_color_mesh color_mesh overwrite self :
  consistent self ->
  consistent (state_of (add_color_mesh color_mesh overwrite self)).
Proof.
  intros Hinv.
  assert (Hdraw : forall pre,
             consistent pre ->
             consistent
               (state_of
                  match refuses (_mpl_ax pre) (DrawSurf color_mesh) with
                  | Some e => Raise e pre
                  | None =>
                      let '(h, ax) :=
                        draw Poly3DCollection EmptyString (_mpl_ax pre) in
                      Return (mk ax (_mpl_artists pre) (_artists pre)
                                 (Some color_mesh) (Some h))
                  end)).
  { intros pre Hpre.
    destruct (refuses (_mpl_ax pre) (DrawSurf color_mesh)); [exact Hpre|].
    destruct Hpre as (Hnd & Hkeys & _). cbn.
    repeat split; try assumption; discriminate. }
  unfold add_color_mesh.
  destruct (_color_mesh self) eqn:E.
  - destruct overwrite; [|exact Hinv].
    pose proof (Figure3D_consistent_remove_color_mesh self Hinv) as Hpre.
    destruct (remove_color_mesh self) as [pre|e pre];
      cbn [state_of] in Hpre; [|exact Hpre].
    apply Hdraw. exact Hpre.
  - apply Hdraw. exact Hinv.
Qed.

Lemma Figure3D_reachable_consistent_aux self :
  reachable self -> consistent self.
Proof.
  induction 1 as [ax|c self Hr IH].
  - repeat split; cbn; auto. constructor.
  - destruct c; cbn [exec].
    + apply Figure3D_consistent_add_artist. exact IH.
    + apply Figure3D_consistent_remove_artist. exact IH.
    + apply Figure3D_consistent_add_color_mesh. exact IH.
    + apply Figure3D_consistent_remove_color_mesh. exact IH.
Qed.

Lemma Artist3D_init_Ok x y z name bz :
  Artist3D_init x y z name = Ok bz ->
  bz = (mk_base (flatten x) (flatten y) name, flatten z) /\
  size (flatten z) = size (flatten x).
Proof.
  unfold Artist3D_init. intros H.
  apply rbind_Ok in H. destruct H as (b & Hb & H). cbv zeta in H.
  apply rbind_Ok in H. destruct H as (u & Hu & E). injection E as <-.
  apply Artist_init_Ok in Hb. destruct Hb as [-> _].
  apply py_assert_Ok, Nat.eqb_eq in Hu. cbn [_xdata] in Hu.
  split; [reflexivity | symmetry; exact Hu].
Qed.

(** With an object a constructor built, [_add_mpl_artist] reaches its
    drawing call, and the axes accept or refuse. *)
Lemma Figure3D_constructed_draws COLOR_OPTIONS s label self :
  constructed COLOR_OPTIONS s ->
  (refuses (_mpl_ax self) (request_for s label) = None /\
   exists d,
     drawn_id d = next_id (_mpl_ax self) /\
     _add_mpl_artist (Of3D s) label self
     = Return (mk (mk_axes3d (S (next_id (_mpl_ax self)))
                             (children (_mpl_ax self) ++ [d])
                             (refuses (_mpl_ax self)))
                  (Dict.set (get_name (Of3D s)) (next_id (_mpl_ax self))
                            (_mpl_artists self))
                  (_artists self) (_color_mesh self) (_mpl_surf self))) \/
  (exists e,
      refuses (_mpl_ax self) (request_for s label) = Some e /\
      _add_mpl_artist (Of3D s) label self = Raise e self).
Proof.
  assert (Hd : forall kind lbl,
             request_for s label = Draw kind s lbl ->
             _add_mpl_artist (Of3D s) label self
             = draw_and_store kind s lbl self ->
             (refuses (_mpl_ax self) (request_for s label) = None /\
              exists d,
                drawn_id d = next_id (_mpl_ax self) /\
                _add_mpl_artist (Of3D s) label self
                = Return (mk (mk_axes3d (S (next_id (_mpl_ax self)))
                                        (children (_mpl_ax self) ++ [d])
                                        (refuses (_mpl_ax self)))
                             (Dict.set (get_name (Of3D s))
                                       (next_id (_mpl_ax self))
                                       (_mpl_artists self))
                             (_artists self) (_color_mesh self)
                             (_mpl_surf self))) \/
             (exists e,
                 refuses (_mpl_ax self) (request_for s label) = Some e /\
                 _add_mpl_artist (Of3D s) label self = Raise e self)).
  { intros kind lbl -> ->. unfold draw_and_store.
    destruct (refuses (_mpl_ax self) (Draw kind s lbl)) as [e|].
    - right. exists e. split; reflexivity.
    - left. split; [reflexivity|]. eexists. split; [|reflexivity].
      reflexivity. }
  intros [H|[H|H]].
  - destruct H as (x & y & z & name & c & lw & ls & H).
    unfold Line3D_init in H.
    apply rbind_Ok in H. destruct H as (bz & _ & H).
    apply rbind_Ok in H. destruct H as (a & _ & E). injection E as <-.
    eapply Hd; reflexivity.
  - destruct H as (x & y & z & name & c & s' & H).
    unfold Points3D_init in H.
    apply rbind_Ok in H. destruct H as (bz & _ & H).
    apply rbind_Ok in H. destruct H as (c' & _ & H).
    apply rbind_Ok in H. destruct H as (s'' & _ & E). injection E as <-.
    eapply Hd; reflexivity.
  - destruct H as (x & y & z & txt & name & c & s' & off & H).
    unfold Text3D_init in H.
    apply rbind_Ok in H. destruct H as (bz & Hbz & H).
    apply rbind_Ok in H. destruct H as (c' & _ & E). injection E as <-.
    apply Artist3D_init_Ok in Hbz. destruct Hbz as [-> _].
    eapply Hd; reflexivity.
Qed.

(** X24.  [Figure3D.add_artist] under a free name draws exactly the
    objects of [artists_3d.py].  For a [Line3D], [Points3D] or [Text3D] a
    constructor returned it reaches the drawing call: if the axes accept
    it, the call returns, the name then maps to the object and to a new
    handle, the last object on the axes, and other names are untouched; if
    they refuse it, the call raises what the axes raise and the figure is
    unchanged.  For a [Points] of [artists.py] it raises [AttributeError]
    (no [get_zdata]) and for a [Line], [Straight], [Arrows] or [Text]
    [NotImplementedError], before any drawing call, and the figure is
    unchanged. *)
Theorem Figure3D_add_artist_dispatch (COLOR_OPTIONS : list string)
    (self : t) (label : string) (overwrite : bool) :
  (forall a,
      Dict.mem (get_name (Of2D a)) (_artists self) = false ->
      add_artist (Of2D a) label overwrite self
      = Raise (undrawable_error a) self) /\
  (forall s,
      constructed COLOR_OPTIONS s ->
      Dict.mem (get_name (Of3D s)) (_artists self) = false ->
      (refuses (_mpl_ax self) (draw_request s label) = None ->
       exists self' d,
         add_artist (Of3D s) label overwrite self = Return self' /\
         Dict.get (get_name (Of3D s)) (_artists self') = Some (Of3D s) /\
         Dict.get (get_name (Of3D s)) (_mpl_artists self')
         = Some (drawn_id d) /\
         children (_mpl_ax self') = children (_mpl_ax self) ++ [d] /\
         (forall k, k <> get_name (Of3D s) ->
                    Dict.get k (_artists self')
                    = Dict.get k (_artists self))) /\
      (forall e,
          refuses (_mpl_ax self) (draw_request s label) = Some e ->
          add_artist (Of3D s) label overwrite self = Raise e self)).
Proof.
  split.
  - intros a Hfree. unfold add_artist. cbv zeta. rewrite Hfree.
    destruct a; reflexivity.
  - intros s Hs Hfree. unfold add_artist, draw_request. cbv zeta.
    rewrite Hfree.
    destruct (Figure3D_constructed_draws COLOR_OPTIONS s
                (if String.eqb label EmptyString
                 then get_name (Of3D s) else label) self Hs)
      as [(Hacc & d & Hid & ->)|(e & Href & ->)]; split.
    + intros _. eexists; exists d. split; [reflexivity|].
      cbn [_artists _mpl_artists _mpl_ax children].
      split; [apply get_set_same|].
      split; [rewrite Hid; apply get_set_same|].
      split; [reflexivity|].
      intros k Hk. apply get_set_other. exact Hk.
    + intros e He. congruence.
    + intros He. congruence.
    + intros e' He. assert (e' = e) by congruence. subst e'. reflexivity.
Qed.

Lemma Figure3D_add_artist_dispatch_witness :
  let self := init (mk_axes3d 0 [] refuse_linestyle3) in
  let dashes :=
    Line3D (mk_base [0; 1]%Q [0; 1]%Q "d") [0; 1]%Q
           (mk_line "k" 1%Q "--:") in
  add_artist (Of2D line_f) EmptyString false self
  = Raise NotImplementedError self /\
  add_artist (Of2D points_p) EmptyString false self
  = Raise (AttributeError "Points" "get_zdata") self /\
  constructed BASE_COLORS line_3d_f /\
  add_artist (Of3D line_3d_f) EmptyString false self = Return figure_3d_f /\
  constructed BASE_COLORS dashes /\
  add_artist (Of3D dashes) EmptyString false self
  = Raise (invalid_linestyle "--:") self.
Proof.
  intros self dashes.
  destruct (Figure3D_add_artist_dispatch BASE_COLORS self EmptyString false)
    as [H2 H3].
  assert (Hc : constructed BASE_COLORS line_3d_f).
  { left. exists (np_array [0; 1]%Q), (np_array [0; 1]%Q),
      (np_array [0; 1]%Q), "f", "k", 1%Q, "solid". reflexivity. }
  assert (Hd : constructed BASE_COLORS dashes).
  { left. exists (np_array [0; 1]%Q), (np_array [0; 1]%Q),
      (np_array [0; 1]%Q), "d", "k", 1%Q, "--:". reflexivity. }
  split; [apply (H2 line_f); reflexivity|].
  split; [apply (H2 points_p); reflexivity|].
  split; [exact Hc|]. split; [reflexivity|]. split; [exact Hd|].
  apply (H3 dashes Hd eq_refl). reflexivity.
Defined.

(** X25.  [Figure3D.add_artist] with [overwrite=True] is not all or
    nothing: passed an object of [artists.py] whose name is registered, it
    first removes the registered artist and its handle and then raises
    ([NotImplementedError], or [AttributeError] for a [Points]).  The
    figure has lost the artist it had under that name, every other name
    keeps its artist, and the old handle is no longer on the axes. *)
Theorem Figure3D_overwrite_loses_artist (self : t) (a : Artist)
    (label : string) :
  consistent self ->
  Dict.mem (get_name (Of2D a)) (_artists self) = true ->
  exists h self',
    Dict.get (get_name (Of2D a)) (_mpl_artists self) = Some h /\
    add_artist (Of2D a) label true self = Raise (undrawable_error a) self' /\
    Dict.mem (get_name (Of2D a)) (_artists self') = false /\
    Dict.mem (get_name (Of2D a)) (_mpl_artists self') = false /\
    (forall k, k <> get_name (Of2D a) ->
               Dict.get k (_artists self') = Dict.get k (_artists self)) /\
    (forall d, In d (children (_mpl_ax self')) ->
               In d (children (_mpl_ax self)) /\ drawn_id d <> h).
Proof.
  intros Hinv Hmem.
  destruct (Figure3D_remove_registered _ _ Hinv Hmem) as (h & Hh & Hrm).
  destruct Hinv as (Hnd & Hkeys & _).
  exists h. eexists. split; [exact Hh|]. split.
  - unfold add_artist. cbv zeta. rewrite Hmem, Hrm.
    destruct a; reflexivity.
  - cbn [_artists _mpl_artists _mpl_ax undraw children].
    split; [apply mem_remove_same; exact Hnd|].
    split; [apply mem_remove_same; rewrite Hkeys; exact Hnd|].
    split; [intros k Hk; apply get_remove_other; exact Hk|].
    intros d Hd. apply filter_In in Hd. destruct Hd as [Hin Hne].
    split; [exact Hin|].
    apply Bool.negb_true_iff, Nat.eqb_neq in Hne. exact Hne.
Qed.

(** X26.  In every state a [Figure3D] reaches from [__init__] through
    [add_artist], [remove_artist], [add_color_mesh] and
    [remove_color_mesh], with any arguments and whether the calls return or
    raise, [_artists] has pairwise distinct keys, [_mpl_artists] has the
    same keys in the same order, and [_color_mesh] and [_mpl_surf] are both
    set or both [None]. *)
Theorem Figure3D_reachable_consistent (self : t) :
  reachable self ->
  NoDup (Dict.keys (_artists self)) /\
  Dict.keys (_mpl_artists self) = Dict.keys (_artists self) /\
  (_color_mesh self = None <-> _mpl_surf self = None).
Proof.
  intros Hr. change (consistent self).
  induction Hr as [ax|c self Hr IH].
  - repeat split; cbn; auto. constructor.
  - destruct c; cbn [exec].
    + apply Figure3D_consistent_add_artist. exact IH.
    + apply Figure3D_consistent_remove_artist. exact IH.
    + apply Figure3D_consistent_add_color_mesh. exact IH.
    + apply Figure3D_consistent_remove_color_mesh. exact IH.
Qed.

Lemma reachable_figure_3d_f : reachable figure_3d_f.
Proof.
  apply (@reachable_call (Call_add_artist (Of3D line_3d_f) EmptyString false)).
  apply reachable_init.
Qed.

Lemma Figure3D_overwrite_loses_artist_witness :
  Dict.mem "f" (_artists figure_3d_f) = true /\
  exists self',
    add_artist (Of2D line_f) EmptyString true figure_3d_f
    = Raise NotImplementedError self' /\
    Dict.mem "f" (_artists self') = false.
Proof.
  split; [reflexivity|].
  destruct (Figure3D_overwrite_loses_artist figure_3d_f line_f EmptyString
              (Figure3D_reachable_consistent_aux figure_3d_f
                 reachable_figure_3d_f) eq_refl)
    as (h & self' & _ & Hadd & Hgone & _).
  exists self'. split; [exact Hadd | exact Hgone].
Defined.

Lemma Figure3D_reachable_consistent_witness :
  reachable figure_3d_f /\
  Dict.keys (_mpl_artists figure_3d_f) = Dict.keys (_artists figure_3d_f).
Proof.
  split; [exact reachable_figure_3d_f|].
  apply (Figure3D_reachable_consistent figure_3d_f reachable_figure_3d_f).
Defined.

Lemma Figure3D_add_artist_outcome COLOR_OPTIONS self s label overwrite :
  reachable self -> constructed COLOR_OPTIONS s ->
  match add_artist (Of3D s) label overwrite self with
  | Return self' =>
      Dict.get (get_name (Of3D s)) (_artists self') = Some (Of3D s) /\
      reachable self'
  | Raise e self' =>
      self' = self \/
      overwrite_lost self (get_name (Of3D s)) overwrite e self'
  end.
Proof.
  intros Hr Hs.
  pose proof (@reachable_call (Call_add_artist (Of3D s) label overwrite)
                self Hr) as Hr'. cbn [exec] in Hr'.
  pose proof (Figure3D_reachable_consistent_aux self Hr) as Hinv.
  unfold add_artist in Hr' |- *. cbv zeta in Hr' |- *.
  destruct (Dict.mem (get_name (Of3D s)) (_artists self)) eqn:Hmem.
  - destruct overwrite; [|left; reflexivity].
    destruct (Figure3D_remove_registered _ _ Hinv Hmem) as (h & _ & Hrm).
    rewrite Hrm in Hr' |- *.
    match goal with
    | |- context [_add_mpl_artist (Of3D s) ?l ?pre] =>
        destruct (Figure3D_constructed_draws COLOR_OPTIONS s l pre Hs)
          as [(_ & d & _ & E)|(e & Href & E)]
    end; rewrite E in Hr' |- *; cbn [state_of] in Hr'.
    + split; [|exact Hr']. cbn [_artists]. apply get_set_same.
    + right. split; [reflexivity|]. split; [exact Hmem|].
      split; [exact Hrm|].
      split; [cbn [_artists]; apply mem_remove_same; apply Hinv|].
      eexists. exact Href.
  - match goal with
    | |- context [_add_mpl_artist (Of3D s) ?l ?pre] =>
        destruct (Figure3D_constructed_draws COLOR_OPTIONS s l pre Hs)
          as [(_ & d & _ & E)|(e & Href & E)]
    end; rewrite E in Hr' |- *; cbn [state_of] in Hr'.
    + split; [|exact Hr']. cbn [_artists]. apply get_set_same.
    + left. reflexivity.
Qed.

Lemma Figure3D_build_and_add_artist COLOR_OPTIONS self built name label
    overwrite :
  reachable self ->
  (forall a, built = Ok a ->
             constructed COLOR_OPTIONS a /\ get_name (Of3D a) = name) ->
  built_or_raised self
    (build_and_add built (fun a => add_artist (Of3D a) label overwrite) self)
    (registered_as COLOR_OPTIONS name)
    (overwrite_lost self name overwrite).
Proof.
  intros Hr Hb. unfold build_and_add. destruct built as [a|e];
    [|left; reflexivity].
  destruct (Hb a eq_refl) as (Hc & Hn).
  pose proof (Figure3D_add_artist_outcome COLOR_OPTIONS self a label
                overwrite Hr Hc) as H.
  rewrite Hn in H.
  destruct (add_artist (Of3D a) label overwrite self) as [self'|e self'];
    cbn [built_or_raised]; [|exact H].
  destruct H as [Hget Hr'].
  repeat split; assumption.
Qed.

(** X27.  On a [Figure3D] in a state its methods can reach, each of
    [plot3D], [scatter3D] and [text3D] either returns the object it built,
    registered under the name passed, or raises; [text3D] does so whatever
    [coord_type] it is passed, which [Text3D.__init__] never looks at.
    When one of them raises, the figure is as it was, with one exception:
    with [overwrite] on a taken name, when the axes refuse the object the
    constructor accepted, the figure is the one [remove_artist] left and
    the old entry is gone.  [Figure3D.color_mesh] likewise returns the mesh
    it built, now the figure's mesh, or raises and changes nothing, unless
    it was overwriting a mesh and the axes refused the new one: then the
    slot is empty. *)
Theorem Figure3D_helpers_outcome (COLOR_OPTIONS : list string) (self : t) :
  reachable self ->
  (forall x y z name c lw ls label overwrite,
      built_or_raised self
        (plot3D COLOR_OPTIONS x y z name c lw ls label overwrite self)
        (registered_as COLOR_OPTIONS name)
        (overwrite_lost self name overwrite)) /\
  (forall x y z name c s label overwrite,
      built_or_raised self
        (scatter3D COLOR_OPTIONS x y z name c s label overwrite self)
        (registered_as COLOR_OPTIONS name)
        (overwrite_lost self name overwrite)) /\
  (forall x y z text name c s coord_type offset overwrite,
      built_or_raised self
        (text3D COLOR_OPTIONS x y z text name c s coord_type offset
                overwrite self)
        (registered_as COLOR_OPTIONS name)
        (overwrite_lost self name overwrite)) /\
  (forall X Y Z cmap overwrite,
      built_or_raised self (color_mesh X Y Z cmap overwrite self)
        (fun m self' =>
           ColorMesh_init X Y Z cmap = Ok m /\
           _color_mesh self' = Some m /\ reachable self')
        (mesh_overwrite_lost self overwrite)).
Proof.
  intros Hr. repeat split.
  - intros x y z name c lw ls label overwrite.
    apply Figure3D_build_and_add_artist; [exact Hr|]. intros a H. split.
    + left. exists x, y, z, name, c, lw, ls. exact H.
    + unfold Line3D_init in H.
      apply rbind_Ok in H. destruct H as (bz & Hbz & H).
      apply rbind_Ok in H. destruct H as (l & _ & E). injection E as <-.
      apply Artist3D_init_Ok in Hbz. destruct Hbz as [-> _]. reflexivity.
  - intros x y z name c s label overwrite.
    apply Figure3D_build_and_add_artist; [exact Hr|]. intros a H. split.
    + right; left. exists x, y, z, name, c, s. exact H.
    + unfold Points3D_init in H.
      apply rbind_Ok in H. destruct H as (bz & Hbz & H).
      apply rbind_Ok in H. destruct H as (c' & _ & H).
      apply rbind_Ok in H. destruct H as (s' & _ & E). injection E as <-.
      apply Artist3D_init_Ok in Hbz. destruct Hbz as [-> _]. reflexivity.
  - intros x y z text name c s coord_type offset overwrite.
    apply Figure3D_build_and_add_artist; [exact Hr|]. intros a H. split.
    + right; right. exists x, y, z, text, name, c, s, offset. exact H.
    + unfold Text3D_init in H.
      apply rbind_Ok in H. destruct H as (bz & Hbz & H).
      apply rbind_Ok in H. destruct H as (c' & _ & E). injection E as <-.
      apply Artist3D_init_Ok in Hbz. destruct Hbz as [-> _]. reflexivity.
  - intros X Y Z cmap overwrite. unfold color_mesh, build_and_add.
    destruct (ColorMesh_init X Y Z cmap) as [m|e]; [|left; reflexivity].
    pose proof (@reachable_call (Call_add_color_mesh m overwrite) self Hr)
      as Hr'. cbn [exec] in Hr'.
    destruct (Figure3D_reachable_consistent_aux self Hr)
      as (_ & _ & Hmesh).
    unfold add_color_mesh in Hr' |- *.
    destruct (_color_mesh self) as [old|] eqn:Eold.
    + destruct overwrite; [|left; reflexivity].
      assert (Hrm : exists h,
                 remove_color_mesh self
                 = Return (mk (undraw h (_mpl_ax self)) (_mpl_artists self)
                              (_artists self) None None)).
      { unfold remove_color_mesh. rewrite Eold.
        destruct (_mpl_surf self) as [h|] eqn:Eh;
          [exists h; reflexivity|].
        exfalso. destruct Hmesh as [_ Hmesh].
        specialize (Hmesh eq_refl). discriminate Hmesh. }
      destruct Hrm as [h Hrm]. rewrite Hrm in Hr' |- *.
      cbn [_mpl_ax undraw refuses] in Hr' |- *.
      destruct (refuses (_mpl_ax self) (DrawSurf m)) as [e|] eqn:Er.
      * right. split; [reflexivity|]. split; [congruence|].
        split; [exact Hrm|]. split; [reflexivity|]. eexists. exact Er.
      * cbn in Hr' |- *. repeat split; try reflexivity. exact Hr'.
    + destruct (refuses (_mpl_ax self) (DrawSurf m)) as [e|] eqn:Er.
      * left. reflexivity.
      * cbn in Hr' |- *. repeat split; try reflexivity. exact Hr'.
Qed.

(** On the 3D figure that holds the line [f]: a line named [f] without
    [overwrite] changes nothing; a text is registered whatever its
    [coord_type]; a line named [f] in the style ['--:'] with [overwrite]
    takes [f] away and raises. *)
Lemma Figure3D_helpers_outcome_witness :
  (exists e,
      plot3D BASE_COLORS (np_array [0; 1]%Q) (np_array [1; 2]%Q)
             (np_array [1; 2]%Q) "f" "k" 1%Q "solid" EmptyString false
             figure_3d_f
      = (Raise e figure_3d_f, None)) /\
  (exists a self',
      text3D BASE_COLORS 0%Q 0%Q 0%Q "origin" "o" "k" 10%Q "bogus"
             (0%Q, 0%Q) false figure_3d_f
      = (Return self', Some a) /\
      Dict.get "o" (_artists self') = Some (Of3D a)) /\
  (exists e self',
      plot3D BASE_COLORS (np_array [0; 1]%Q) (np_array [1; 2]%Q)
             (np_array [1; 2]%Q) "f" "k" 1%Q "--:" EmptyString true
             figure_3d_f
      = (Raise e self', None) /\
      remove_artist "f" figure_3d_f = Return self' /\
      _artists self' = []).
Proof.
  destruct (Figure3D_helpers_outcome BASE_COLORS figure_3d_f
              reachable_figure_3d_f) as (Hplot & _ & Htext & _).
  pose proof (Htext 0%Q 0%Q 0%Q "origin" "o" "k" 10%Q "bogus" (0%Q, 0%Q)
                    false) as H2.
  pose proof (Hplot (np_array [0; 1]%Q) (np_array [1; 2]%Q)
                    (np_array [1; 2]%Q) "f" "k" 1%Q "--:" EmptyString true)
    as H3.
  split; [|split].
  - eexists. reflexivity.
  - eexists _, _. split; [reflexivity|]. apply H2.
  - eexists _, _. split; [reflexivity|].
    destruct H3 as [H3|(_ & _ & Hrm & _)]; [discriminate H3|].
    split; [exact Hrm | reflexivity].
Defined.

End Figure3DFacts.


